(** * GeneratorController: the WiFi web server (genwifiserver.cpp)

    A shallow embedding of the web routines of the generator controller:
    the LCD text expansion, the visitor table, the log page's walk over the
    ring of log entries, the output to the client, the addresses as text, the
    HTTP request handling and the connectivity state machine of
    [process_web].

    Conventions.
    - The target is a 32-bit ARM board (Teensy): [int] and [long] are 32-bit
      two's complement, [unsigned long] and [time_t] are 32 bits.  Integers
      are [Z]; where the C code increments or adds, the wrap-around is written
      out ([wrap_long], [wrap_int], [wrap_ulong]).
    - Arrays are lists; an index is a [Z] (the C code computes with [int]) or a
      [nat] where the code only counts upwards from zero.
    - C strings are [string]s without the terminating NUL; a character buffer
      that the code writes through a moving pointer is a [list ascii].
    - Calls that leave the program (WiFi library, serial port, LCD, the other
      modules of the controller) are either inputs of a step ([env]) or entries
      of the [trace] of a step. *)

From Stdlib Require Import ZArith List String Ascii Bool Lia.
From stdpp Require Import base option list.

Local Open Scope string_scope.
Local Open Scope list_scope.
Local Open Scope Z_scope.

(* ===================================================================== *)
(** ** Constants of generator.h, generator_hw.h, Wifi_names.h and genwifiserver.cpp *)

Definition MAXLINE : nat := 500.
Definition NUM_BUTTONS : Z := 7.
Definition MAX_IP_ADDRESSES : nat := 25.
Definition CONNECT_DELAY_SECS : Z := 10.
Definition MAX_CONNECT_ATTEMPTS : Z := 3.
Definition DELAYED_RSP_MSEC : Z := 1000.
Definition POWER_ON_WEB_DELAY_SECS : Z := 120.
Definition ACTION_PASSWORD : string := "password".

Definition INT_MAX : Z := 2147483647.
Definition LONG_MAX : Z := 2147483647.

(** [++x] on a [long] or an [int]: two's complement wrap-around at 32 bits
    (what the target does; in C the overflow itself is undefined). *)
Definition wrap_long (z : Z) : Z := (z + 2147483648) mod 4294967296 - 2147483648.
Definition wrap_int (z : Z) : Z := wrap_long z.
(** Arithmetic on [unsigned long] ([millis()]) and on [time_t] ([now()]):
    TimeLib has [typedef unsigned long time_t] (generator.h notes that the
    type may be signed elsewhere; for times below 2^31 that makes no
    difference). *)
Definition wrap_ulong (z : Z) : Z := z mod 4294967296.

(** Glyphs of the LCD character generator. *)
Definition NUL : ascii := "000"%char.
Definition DOWNARROW : ascii := "001"%char.
Definition UPARROW : ascii := "002"%char.
Definition RIGHTARROW : ascii := "126"%char.
Definition LEFTARROW : ascii := "127"%char.

(* ===================================================================== *)
(** ** expand_arrows_and_blanks *)

(** [*dst = c] for [dst] pointing at [outmsg[i]].  The array has [MAXLINE]
    elements; a store past its end has no defined result ([None]). *)
Definition poke (buf : list ascii) (i : nat) (c : ascii) : option (list ascii) :=
  if (i <? length buf)%nat then Some (<[i := c]> buf) else None.

(** [strcpy(dst, src)]: the characters of [src] and then the terminating NUL. *)
Fixpoint strcpy (buf : list ascii) (dst : nat) (src : string) : option (list ascii) :=
  match src with
  | EmptyString => poke buf dst NUL
  | String c rest => buf' ← poke buf dst c; strcpy buf' (S dst) rest
  end.

(** The [for (char *src = msg; *src; ++src)] loop; [dst] is the offset of the
    write pointer into [outmsg]. *)
Fixpoint expand_loop (src : string) (outmsg : list ascii) (dst : nat)
  : option (list ascii * nat) :=
  match src with
  | EmptyString => Some (outmsg, dst)
  | String c rest =>
      if (c =? NUL)%char then Some (outmsg, dst)
      else if (c =? LEFTARROW)%char then
        outmsg ← strcpy outmsg dst "&#8592;"; expand_loop rest outmsg (dst + 6)%nat
      else if (c =? UPARROW)%char then
        outmsg ← strcpy outmsg dst "&#8593;"; expand_loop rest outmsg (dst + 6)%nat
      else if (c =? RIGHTARROW)%char then
        outmsg ← strcpy outmsg dst "&#8594;"; expand_loop rest outmsg (dst + 6)%nat
      else if (c =? DOWNARROW)%char then
        outmsg ← strcpy outmsg dst "&#8595;"; expand_loop rest outmsg (dst + 6)%nat
      else if (c =? " ")%char then
        outmsg ← strcpy outmsg dst "&nbsp;"; expand_loop rest outmsg (dst + 5)%nat
      else
        outmsg ← poke outmsg dst c; expand_loop rest outmsg (S dst)
  end.

(** The function proper: [outmsg] is the static buffer as the previous call
    left it; the result is the buffer after the final [*dst = 0]. *)
Definition expand_arrows_and_blanks (outmsg : list ascii) (msg : string)
  : option (list ascii) :=
  '(outmsg, dst) ← expand_loop msg outmsg 0%nat; poke outmsg dst NUL.

(** The C string that starts at the beginning of a buffer. *)
Fixpoint c_str (buf : list ascii) : string :=
  match buf with
  | [] => EmptyString
  | c :: rest => if (c =? NUL)%char then EmptyString else String c (c_str rest)
  end.

(** What a character of the message leaves in the result: for an arrow or a
    blank the entity without its last character, for another character the
    character. *)
Definition expansion_of (c : ascii) : list ascii :=
  if (c =? LEFTARROW)%char then list_ascii_of_string "&#8592"
  else if (c =? UPARROW)%char then list_ascii_of_string "&#8593"
  else if (c =? RIGHTARROW)%char then list_ascii_of_string "&#8594"
  else if (c =? DOWNARROW)%char then list_ascii_of_string "&#8595"
  else if (c =? " ")%char then list_ascii_of_string "&nbsp"
  else [c].

(** The result for a message: the expansions of its characters up to the
    first NUL. *)
Fixpoint expanded (msg : string) : list ascii :=
  match msg with
  | EmptyString => []
  | String c rest => if (c =? NUL)%char then [] else expansion_of c ++ expanded rest
  end.

(** The static buffer before the first call. *)
Definition outmsg0 : list ascii := replicate MAXLINE NUL.

(** [s] occurs in [t] ([strstr(t, s) != NULL]). *)
Fixpoint occurs_in (s t : string) : bool :=
  String.prefix s t ||
  match t with
  | EmptyString => false
  | String _ t' => occurs_in s t'
  end.

(** A row of the LCD mirror with the left arrow and a blank: "\x7f A". *)
Definition lcd_row_arrow_blank : string :=
  String LEFTARROW (String " " (String "A" EmptyString)).

(* ===================================================================== *)
(** ** The visitor table: add_IP_address *)

(** [IPAddress]: four octets, compared as a whole by [operator==]. *)
Definition IPAddress : Type := (Z * Z * Z * Z)%type.

Definition ip_eqb (a b : IPAddress) : bool := bool_decide (a = b).

Record client_t := mk_client {
  ip_address : IPAddress;
  count : Z;                 (* long *)
  gave_password : bool
}.

(** A slot as [add_IP_address] initialises it for a new address. *)
Definition new_client (addr : IPAddress) : client_t :=
  {| ip_address := addr; count := 1; gave_password := false |}.

(** The table before any request: static storage, all zero. *)
Definition no_client_slot : client_t :=
  {| ip_address := (0, 0, 0, 0); count := 0; gave_password := false |}.

(** [clients[ndx] = c].  For [ndx] outside [0 .. length-1] the store is
    outside the array (undefined in C); the model leaves the table as it is,
    and [add_IP_address] reports the index it used. *)
Definition store_client (clients : list client_t) (ndx : Z) (c : client_t)
  : list client_t :=
  if (0 <=? ndx) then <[Z.to_nat ndx := c]> clients else clients.

(** [clients[ndx]] read; outside the array the model reads [no_client_slot]. *)
Definition client_at (clients : list client_t) (ndx : Z) : client_t :=
  if (0 <=? ndx) then default no_client_slot (clients !! Z.to_nat ndx)
  else no_client_slot.

(** Where the [for] loop of [add_IP_address] ends: with the early [return]
    of a slot, or with the two remembered indices. *)
Inductive scan_result :=
| Found (ndx : Z)
| NotFound (empty_ndx min_ndx : Z).

(** The loop [for (ndx = 0; ndx < MAX_IP_ADDRESSES; ++ndx)], over the slots
    from [ndx] on ([clients] has MAX_IP_ADDRESSES slots).  [min_count] is an
    [int] that holds counts, which are [long]: the same 32 bits here. *)
Fixpoint scan_clients (addr : IPAddress) (slots : list client_t)
    (ndx empty_ndx min_ndx min_count : Z) : scan_result :=
  match slots with
  | [] => NotFound empty_ndx min_ndx
  | c :: rest =>
      if ip_eqb (ip_address c) addr then Found ndx
      else if count c =? 0 then
        scan_clients addr rest (ndx + 1) ndx min_ndx min_count
      else if count c <? min_count then
        scan_clients addr rest (ndx + 1) empty_ndx ndx (count c)
      else
        scan_clients addr rest (ndx + 1) empty_ndx min_ndx min_count
  end.

(** [add_IP_address]: the index of the slot whose address is returned, and
    the table afterwards. *)
Definition add_IP_address (addr : IPAddress) (clients : list client_t)
  : Z * list client_t :=
  match scan_clients addr clients 0 (-1) (-1) INT_MAX with
  | Found ndx => (ndx, clients)
  | NotFound empty_ndx min_ndx =>
      let min_ndx := if 0 <=? empty_ndx then empty_ndx else min_ndx in
      (min_ndx, store_client clients min_ndx (new_client addr))
  end.

(** No two slots in use hold the same address. *)
Definition unique_addresses (clients : list client_t) : Prop :=
  forall (j k : nat) (c d : client_t),
    clients !! j = Some c -> clients !! k = Some d ->
    count c <> 0 -> count d <> 0 ->
    ip_address c = ip_address d -> j = k.

(** A full table in which every slot has been counted up to [INT_MAX]:
    slot [i] holds the address 10.0.0.i. *)
Definition saturated_table : list client_t :=
  map (fun i => {| ip_address := (10, 0, 0, Z.of_nat i);
                   count := INT_MAX; gave_password := false |})
      (seq 1 MAX_IP_ADDRESSES).

(* ===================================================================== *)
(** ** The event log as the log page reads it *)

Record logfile_hdr_t := mk_hdr {
  num_entries : Z;     (* unsigned short *)
  newest : Z;          (* unsigned short *)
  oldest : Z           (* unsigned short *)
}.

Record logentry_t := mk_entry {
  datetime : Z;
  event_type : Z;
  extra_info : Z;
  msg : string
}.

Definition no_entry : logentry_t :=
  {| datetime := 0; event_type := 0; extra_info := 0; msg := "" |}.

(** [logfile[ndx]]. *)
Definition log_at (logfile : list logentry_t) (ndx : Z) : logentry_t :=
  if (0 <=? ndx) then default no_entry (logfile !! Z.to_nat ndx) else no_entry.

(** The loop [for (int ndx = logfile_hdr.newest; ;)] of the RSP_LOG branch of
    [generate_response]: the indices whose entries are printed, in order.
    The loop has no bound of its own; [fuel] bounds the number of rounds and
    [None] stands for a walk that is still going when it runs out. *)
Fixpoint log_walk (fuel : nat) (log_max_entries oldest ndx : Z) : option (list Z) :=
  match fuel with
  | O => None
  | S fuel' =>
      if ndx =? oldest then Some [ndx]
      else
        let ndx' := ndx - 1 in
        let ndx' := if ndx' <? 0 then log_max_entries - 1 else ndx' in
        cons ndx <$> log_walk fuel' log_max_entries oldest ndx'
  end.

(** The indices the log page prints ([if (logfile_hdr.num_entries > 0) ...]). *)
Definition log_page_indices (fuel : nat) (hdr : logfile_hdr_t) (log_max_entries : Z)
  : option (list Z) :=
  if 0 <? num_entries hdr then log_walk fuel log_max_entries (oldest hdr) (newest hdr)
  else Some [].

(** The lines of the log page: date and event type of each printed entry. *)
Definition log_page (fuel : nat) (hdr : logfile_hdr_t) (logfile : list logentry_t)
    (log_max_entries : Z) : option (list (Z * Z)) :=
  map (fun ndx => (datetime (log_at logfile ndx), event_type (log_at logfile ndx)))
    <$> log_page_indices fuel hdr log_max_entries.

(** The ring invariant of the log: [k] entries in use, stored from [oldest]
    upwards with wrap-around at [log_max_entries], [newest] the last of them. *)
Definition ring_invariant (hdr : logfile_hdr_t) (log_max_entries k : Z) : Prop :=
  0 <= k <= log_max_entries /\
  num_entries hdr = k /\
  (0 < k ->
   0 <= oldest hdr < log_max_entries /\
   newest hdr = (oldest hdr + k - 1) mod log_max_entries).

(** The slot of the [i]-th entry in insertion order, [i = 0] the oldest. *)
Definition ring_slot (hdr : logfile_hdr_t) (log_max_entries i : Z) : Z :=
  (oldest hdr + i) mod log_max_entries.

(* ===================================================================== *)
(** ** Request lines *)

Definition LF : ascii := "010"%char.

(** [Stream::readBytesUntil(terminator, buffer, length)] of the Arduino core,
    on the bytes still to be read from the connection: it stops at the
    terminator (which it consumes and does not store), after [length] bytes,
    or when no byte is left (the read times out).  The result is the bytes
    stored and the bytes left on the connection. *)
Fixpoint readBytesUntil (terminator : ascii) (length : nat) (input : string)
  : string * string :=
  match length with
  | O => (EmptyString, input)
  | S length' =>
      match input with
      | EmptyString => (EmptyString, EmptyString)
      | String c rest =>
          if (c =? terminator)%char then (EmptyString, rest)
          else
            let '(line, rest') := readBytesUntil terminator length' rest in
            (String c line, rest')
      end
  end.

(** [get_request_line(pclient, linebuf)]: the bytes it leaves in [linebuf]
    (their number is [nbytes]) and the input left on the connection.  What
    the function returns is [nbytes > 1]; the loop below tests it. *)
Definition get_request_line (input : string) : string * string :=
  readBytesUntil LF (MAXLINE - 1) input.

(** [linebuf] read as a C string: it ends at the first NUL byte. *)
Fixpoint cut_nul (line : string) : string :=
  match line with
  | EmptyString => EmptyString
  | String c rest => if (c =? NUL)%char then EmptyString else String c (cut_nul rest)
  end.

(** [while (get_request_line(pclient, linebuf)) body]: [get_request_line]
    answers [nbytes > 1].  [acc] is what [body] updates. *)
Fixpoint request_loop {A : Type} (fuel : nat) (body : string -> A -> A)
    (input : string) (acc : A) : A * string :=
  match fuel with
  | O => (acc, input)
  | S fuel' =>
      let '(line, input') := get_request_line input in
      if (1 <? String.length line)%nat
      then request_loop fuel' body input' (body line acc)
      else (acc, input')
  end.

(** Every round that goes on has taken at least two bytes off the input, so
    one round more than the input has bytes is enough (see
    [request_loop_fuel]). *)
Definition while_get_request_line {A : Type} (body : string -> A -> A)
    (input : string) (acc : A) : A * string :=
  request_loop (S (String.length input)) body input acc.

(** The lines that the loop hands to its body, in order: the loop run with
    a body that notes each line. *)
Definition collect (line : string) (acc : list string) : list string := acc ++ [line].

Definition request_lines (input : string) : list string :=
  fst (while_get_request_line collect input []).

(* ===================================================================== *)
(** ** The scanners of the main module *)

Definition is_blank (c : ascii) : bool := (c =? " ")%char.

Fixpoint skip_blanks (ptr : string) : string :=
  match ptr with
  | String c rest => if is_blank c then skip_blanks rest else ptr
  | EmptyString => EmptyString
  end.

(** Modelled from the spec: [scan_key] is declared in generator.h and its
    body is in the controller's main module, which is not among the sources.
    The spec has the routes matched "by literal, case-sensitive, method+path
    prefix matching"; between the method and the path it has a blank, so
    blanks before the keyword are passed over.  The result is whether the
    keyword was found and where the scan pointer is afterwards. *)
Definition scan_key_model (ptr keyword : string) : bool * string :=
  let ptr := skip_blanks ptr in
  if String.prefix keyword ptr
  then (true, String.substring (String.length keyword)
                (String.length ptr - String.length keyword) ptr)
  else (false, ptr).

Definition digit_of (c : ascii) : option Z :=
  let n := Z.of_nat (nat_of_ascii c) in
  if (48 <=? n) && (n <=? 57) then Some (n - 48) else None.

Fixpoint scan_digits (ptr : string) (acc : option Z) : option Z * string :=
  match ptr with
  | EmptyString => (acc, EmptyString)
  | String c rest =>
      match digit_of c with
      | Some d => scan_digits rest (Some (10 * default 0 acc + d))
      | None => (acc, ptr)
      end
  end.

(** Modelled from the spec: [scan_int] is declared in generator.h and defined
    in the main module.  The spec has the body field [button=<int>] with the
    "button index within range": a decimal number between [min] and [max],
    with the number and the scan pointer after it as the result. *)
Definition scan_int_model (ptr : string) (min max : Z) : option (Z * string) :=
  match scan_digits (skip_blanks ptr) None with
  | (Some n, rest) => if (min <=? n) && (n <=? max) then Some (n, rest) else None
  | (None, _) => None
  end.

(* ===================================================================== *)
(** ** The state of the web routines *)

Inductive web_status_t :=
| WEB_NOT_CONNECTED | WEB_AWAITING_CONNECTION
| WEB_AWAITING_CLIENT | WEB_PROCESSING_REQUEST.

Inductive request_type_t :=
| REQ_UNKNOWN | REQ_ROOT | REQ_VISITORS | REQ_LOG | REQ_PUSHBUTTON
| REQ_SETPASS | REQ_FAVICON | REQ_BUTTONIMAGE.

Inductive response_type_t :=
| RSP_UNKNOWN | RSP_STATUS | RSP_VISITORS | RSP_LOG | RSP_FAVICON
| RSP_BUTTONIMAGE | RSP_ASKPASS | RSP_NONE.

(** [WiFi.status()] return codes that the code names. *)
Definition WL_IDLE_STATUS : Z := 0.
Definition WL_CONNECTED : Z := 3.
Definition WL_CONNECT_FAILED : Z := 4.

(** Log event types that the code passes to [log_event]. *)
Definition EV_IFTTT_SENDING : Z := 26.
Definition EV_IFTTT_SENT : Z := 27.
Definition EV_IFTTT_FAILED : Z := 28.

(** A [WiFiClient]: the peer, the bytes it has sent that are not read yet,
    and whether the connection is open. *)
Record WiFiClient := mk_WiFiClient {
  remoteIP : IPAddress;
  inbuf : string;
  connected : bool
}.

(** The client object that [server.available()] gives when nobody called. *)
Definition no_WiFiClient : WiFiClient :=
  {| remoteIP := (0, 0, 0, 0); inbuf := ""; connected := false |}.

(** What a step does outside the variables of this file, in order. *)
Inductive event :=
| WiFi_begin                                  (* WiFi.begin(WIFI_SSID, WIFI_PASSWORD) *)
| server_begin                                (* server.begin() *)
| wifi_reset                                  (* wifi_reset() of the main module *)
| sent_response (response_type : response_type_t) (* generate_response's output *)
| ifttt_post                                  (* the POST to the IFTTT server *)
| log_event (event_type : Z)                  (* log_event() of the main module *)
| assertion_failed.                           (* assert() of the main module, test false *)

Record web := mk_web {
  web_status : web_status_t;
  delayed_response : bool;
  delayed_sendtime : Z;           (* unsigned long *)
  next_connect_time : Z;          (* time_t *)
  clients : list client_t;        (* clients[MAX_IP_ADDRESSES] *)
  current_client : Z;             (* the index of the slot current_client points to *)
  requests_processed : Z;         (* long *)
  wifi_connects : Z;
  wifi_connectfails : Z;
  wifi_disconnects : Z;
  wifi_resets : Z;
  client : WiFiClient;            (* the one static client *)
  processing_web : bool;          (* process_web's anti-recursion flag *)
  connect_attempts : Z;           (* process_web's static int *)
  button_webpushed : list bool;   (* extern bool button_webpushed[] *)
  ifttt_do_trigger : bool;        (* extern bool ifttt_do_trigger *)
  trace : list event
}.

Definition set_web_status (v : web_status_t) (s : web) : web :=
  mk_web v (delayed_response s) (delayed_sendtime s) (next_connect_time s) (clients s)
    (current_client s) (requests_processed s) (wifi_connects s) (wifi_connectfails s)
    (wifi_disconnects s) (wifi_resets s) (client s) (processing_web s)
    (connect_attempts s) (button_webpushed s) (ifttt_do_trigger s) (trace s).
Definition set_delayed_response (v : bool) (s : web) : web :=
  mk_web (web_status s) v (delayed_sendtime s) (next_connect_time s) (clients s)
    (current_client s) (requests_processed s) (wifi_connects s) (wifi_connectfails s)
    (wifi_disconnects s) (wifi_resets s) (client s) (processing_web s)
    (connect_attempts s) (button_webpushed s) (ifttt_do_trigger s) (trace s).
Definition set_delayed_sendtime (v : Z) (s : web) : web :=
  mk_web (web_status s) (delayed_response s) v (next_connect_time s) (clients s)
    (current_client s) (requests_processed s) (wifi_connects s) (wifi_connectfails s)
    (wifi_disconnects s) (wifi_resets s) (client s) (processing_web s)
    (connect_attempts s) (button_webpushed s) (ifttt_do_trigger s) (trace s).
Definition set_next_connect_time (v : Z) (s : web) : web :=
  mk_web (web_status s) (delayed_response s) (delayed_sendtime s) v (clients s)
    (current_client s) (requests_processed s) (wifi_connects s) (wifi_connectfails s)
    (wifi_disconnects s) (wifi_resets s) (client s) (processing_web s)
    (connect_attempts s) (button_webpushed s) (ifttt_do_trigger s) (trace s).
Definition set_clients (v : list client_t) (s : web) : web :=
  mk_web (web_status s) (delayed_response s) (delayed_sendtime s) (next_connect_time s) v
    (current_client s) (requests_processed s) (wifi_connects s) (wifi_connectfails s)
    (wifi_disconnects s) (wifi_resets s) (client s) (processing_web s)
    (connect_attempts s) (button_webpushed s) (ifttt_do_trigger s) (trace s).
Definition set_current_client (v : Z) (s : web) : web :=
  mk_web (web_status s) (delayed_response s) (delayed_sendtime s) (next_connect_time s)
    (clients s) v (requests_processed s) (wifi_connects s) (wifi_connectfails s)
    (wifi_disconnects s) (wifi_resets s) (client s) (processing_web s)
    (connect_attempts s) (button_webpushed s) (ifttt_do_trigger s) (trace s).
Definition set_requests_processed (v : Z) (s : web) : web :=
  mk_web (web_status s) (delayed_response s) (delayed_sendtime s) (next_connect_time s)
    (clients s) (current_client s) v (wifi_connects s) (wifi_connectfails s)
    (wifi_disconnects s) (wifi_resets s) (client s) (processing_web s)
    (connect_attempts s) (button_webpushed s) (ifttt_do_trigger s) (trace s).
Definition set_wifi_connects (v : Z) (s : web) : web :=
  mk_web (web_status s) (delayed_response s) (delayed_sendtime s) (next_connect_time s)
    (clients s) (current_client s) (requests_processed s) v (wifi_connectfails s)
    (wifi_disconnects s) (wifi_resets s) (client s) (processing_web s)
    (connect_attempts s) (button_webpushed s) (ifttt_do_trigger s) (trace s).
Definition set_wifi_connectfails (v : Z) (s : web) : web :=
  mk_web (web_status s) (delayed_response s) (delayed_sendtime s) (next_connect_time s)
    (clients s) (current_client s) (requests_processed s) (wifi_connects s) v
    (wifi_disconnects s) (wifi_resets s) (client s) (processing_web s)
    (connect_attempts s) (button_webpushed s) (ifttt_do_trigger s) (trace s).
Definition set_wifi_disconnects (v : Z) (s : web) : web :=
  mk_web (web_status s) (delayed_response s) (delayed_sendtime s) (next_connect_time s)
    (clients s) (current_client s) (requests_processed s) (wifi_connects s)
    (wifi_connectfails s) v (wifi_resets s) (client s) (processing_web s)
    (connect_attempts s) (button_webpushed s) (ifttt_do_trigger s) (trace s).
Definition set_wifi_resets (v : Z) (s : web) : web :=
  mk_web (web_status s) (delayed_response s) (delayed_sendtime s) (next_connect_time s)
    (clients s) (current_client s) (requests_processed s) (wifi_connects s)
    (wifi_connectfails s) (wifi_disconnects s) v (client s) (processing_web s)
    (connect_attempts s) (button_webpushed s) (ifttt_do_trigger s) (trace s).
Definition set_client (v : WiFiClient) (s : web) : web :=
  mk_web (web_status s) (delayed_response s) (delayed_sendtime s) (next_connect_time s)
    (clients s) (current_client s) (requests_processed s) (wifi_connects s)
    (wifi_connectfails s) (wifi_disconnects s) (wifi_resets s) v (processing_web s)
    (connect_attempts s) (button_webpushed s) (ifttt_do_trigger s) (trace s).
Definition set_processing_web (v : bool) (s : web) : web :=
  mk_web (web_status s) (delayed_response s) (delayed_sendtime s) (next_connect_time s)
    (clients s) (current_client s) (requests_processed s) (wifi_connects s)
    (wifi_connectfails s) (wifi_disconnects s) (wifi_resets s) (client s) v
    (connect_attempts s) (button_webpushed s) (ifttt_do_trigger s) (trace s).
Definition set_connect_attempts (v : Z) (s : web) : web :=
  mk_web (web_status s) (delayed_response s) (delayed_sendtime s) (next_connect_time s)
    (clients s) (current_client s) (requests_processed s) (wifi_connects s)
    (wifi_connectfails s) (wifi_disconnects s) (wifi_resets s) (client s)
    (processing_web s) v (button_webpushed s) (ifttt_do_trigger s) (trace s).
Definition set_button_webpushed (v : list bool) (s : web) : web :=
  mk_web (web_status s) (delayed_response s) (delayed_sendtime s) (next_connect_time s)
    (clients s) (current_client s) (requests_processed s) (wifi_connects s)
    (wifi_connectfails s) (wifi_disconnects s) (wifi_resets s) (client s)
    (processing_web s) (connect_attempts s) v (ifttt_do_trigger s) (trace s).
Definition set_ifttt_do_trigger (v : bool) (s : web) : web :=
  mk_web (web_status s) (delayed_response s) (delayed_sendtime s) (next_connect_time s)
    (clients s) (current_client s) (requests_processed s) (wifi_connects s)
    (wifi_connectfails s) (wifi_disconnects s) (wifi_resets s) (client s)
    (processing_web s) (connect_attempts s) (button_webpushed s) v (trace s).
(** A call that leaves the file: appended to the trace. *)
Definition emit (ev : event) (s : web) : web :=
  mk_web (web_status s) (delayed_response s) (delayed_sendtime s) (next_connect_time s)
    (clients s) (current_client s) (requests_processed s) (wifi_connects s)
    (wifi_connectfails s) (wifi_disconnects s) (wifi_resets s) (client s)
    (processing_web s) (connect_attempts s) (button_webpushed s) (ifttt_do_trigger s)
    (trace s ++ [ev]).

(** What one call of [process_web] reads from outside: the clocks, the power
    inputs, the WiFi module and the network. *)
Record env := mk_env {
  env_have_power : bool;          (* HAVE_POWER after update_bools() *)
  env_last_poweron_time : Z;      (* extern time_t last_poweron_time *)
  env_now_gate : Z;               (* now() in the power test *)
  env_now : Z;                    (* now() inside the switch *)
  env_millis : Z;                 (* millis() *)
  env_wifi_status : Z;            (* WiFi.status() *)
  env_incoming : option WiFiClient; (* what server.available() returns *)
  env_ifttt_connect : bool        (* pclient->connect(ifttt_server, 80) *)
}.

(* ===================================================================== *)
(** ** Output to the client: client_write and client_printf *)

Definition CHUNKSIZE : nat := 500.

(** What the connection does in one round of the loop of [client_write]:
    the answer of [pclient->connected()], and how many of the bytes it is
    offered [pclient->write()] takes (it returns no more than it is offered). *)
Record round_t := mk_round {
  is_connected : bool;
  takes : nat
}.

(** [client_write(pclient, buf, length, show)], [buf] being the [length] bytes
    to send.  [peer] is what the connection does round by round, [written]
    the pieces handed to [pclient->write()] so far.  The result is what the
    function returns and the pieces written, in order; [None] stands for a
    loop that is still going when [peer] runs out. *)
Fixpoint client_write (peer : list round_t) (buf : list ascii)
    (written : list (list ascii)) {struct peer} : option (bool * list (list ascii)) :=
  match buf with
  | [] => Some (true, written)
  | _ :: _ =>
      match peer with
      | [] => None
      | r :: peer' =>
          if is_connected r then
            let offered :=
              if (CHUNKSIZE <? length buf)%nat then CHUNKSIZE else length buf in
            let bytes_done := Nat.min (takes r) offered in
            client_write peer' (drop bytes_done buf) (written ++ [take bytes_done buf])
          else Some (false, written)
      end
  end.

(** [vsnprintf(buf, size, format, ...)], [text] being what the format and its
    arguments expand to: at most [size - 1] characters are stored. *)
Definition vsnprintf (size : nat) (text : string) : string :=
  String.substring 0 (size - 1) text.

(** [client_printf(pclient, format, ...)]: the text is cut to the buffer of
    MAXLINE bytes and sent up to its first NUL ([strlen]).  The function
    itself returns nothing; the result here is that of its [client_write]. *)
Definition client_printf (peer : list round_t) (text : string)
  : option (bool * list (list ascii)) :=
  client_write peer (list_ascii_of_string (cut_nul (vsnprintf MAXLINE text))) [].

(** A format that is printed without arguments, as in
    [client_printf(pclient, expand_arrows_and_blanks(lcdbuf[row]))]: the
    characters are copied and "%%" gives "%"; any other conversion would read
    an argument that the call does not pass ([None]). *)
Fixpoint plain_format (format : string) : option string :=
  match format with
  | EmptyString => Some EmptyString
  | String c rest =>
      if (c =? "%")%char then
        match rest with
        | String c' rest' =>
            if (c' =? "%")%char then String "%" <$> plain_format rest' else None
        | EmptyString => None
        end
      else String c <$> plain_format rest
  end.

(** The loop [for (int row = 0; row < 4; ++row)] of the status page: each row
    of the LCD mirror is expanded in the static buffer [outmsg] and the
    result is the format of a [client_printf].  The result is the buffer
    afterwards and the texts printed, one for each row. *)
Fixpoint status_rows (outmsg : list ascii) (lcdbuf : list string)
  : option (list ascii * list string) :=
  match lcdbuf with
  | [] => Some (outmsg, [])
  | row :: rows =>
      outmsg ← expand_arrows_and_blanks outmsg row;
      text ← plain_format (c_str outmsg);
      '(outmsg', texts) ← status_rows outmsg rows;
      Some (outmsg', cut_nul (vsnprintf MAXLINE text) :: texts)
  end.

(* ===================================================================== *)
(** ** Addresses as text: format_ip_address and format_mac_address *)

(** The digit [d] (0 .. 9) as a character. *)
Definition digit_char (d : Z) : ascii := ascii_of_nat (48 + Z.to_nat d).

(** The hexadecimal digit [d] (0 .. 15) as [%X] prints it. *)
Definition hex_char (d : Z) : ascii :=
  if d <? 10 then ascii_of_nat (48 + Z.to_nat d) else ascii_of_nat (55 + Z.to_nat d).

(** The digits of [n >= 0] in base ten, most significant first, in front of
    [acc]; an [int] has at most ten. *)
Fixpoint dec_digits (fuel : nat) (n : Z) (acc : string) : string :=
  match fuel with
  | O => acc
  | S fuel' =>
      let acc := String (digit_char (n mod 10)) acc in
      if n <? 10 then acc else dec_digits fuel' (n / 10) acc
  end.

(** [%d] of [printf] for an [int]. *)
Definition printf_d (n : Z) : string :=
  if n <? 0 then String "-" (dec_digits 10 (- n) EmptyString)
  else dec_digits 10 n EmptyString.

(** The digits of [n >= 0] in base sixteen; an [unsigned int] has at most
    eight. *)
Fixpoint hex_digits (fuel : nat) (n : Z) (acc : string) : string :=
  match fuel with
  | O => acc
  | S fuel' =>
      let acc := String (hex_char (n mod 16)) acc in
      if n <? 16 then acc else hex_digits fuel' (n / 16) acc
  end.

(** [%02X] of [printf]: the argument as an [unsigned int] in upper-case
    hexadecimal, with a leading zero if it has one digit only. *)
Definition printf_02X (n : Z) : string :=
  let digits := hex_digits 8 (n mod 4294967296) EmptyString in
  if (String.length digits <? 2)%nat then String "0" digits else digits.

(** [sprintf(str, ...)] into [char str[size]], [text] being what is printed:
    the text and its NUL have to fit ([None]: the store runs past the end). *)
Definition sprintf (size : nat) (text : string) : option string :=
  if (String.length text <? size)%nat then Some text else None.

(** [format_ip_address(addr)].  WIFI_PORT comes from the configuration
    header, where the sources at hand leave it undefined; it is an argument
    here. *)
Definition format_ip_address (WIFI_PORT : Z) (addr : IPAddress) : option string :=
  let '(a0, a1, a2, a3) := addr in
  sprintf 30
    (printf_d a0 ++ "." ++ printf_d a1 ++ "." ++ printf_d a2 ++ "." ++ printf_d a3
     ++ ":" ++ printf_d WIFI_PORT)%string.

(** An octet: the range of [uint8_t] and of [byte]. *)
Definition is_byte (b : Z) : Prop := 0 <= b < 256.

(** An [IPAddress] has four octets. *)
Definition is_address (addr : IPAddress) : Prop :=
  let '(a0, a1, a2, a3) := addr in
  is_byte a0 /\ is_byte a1 /\ is_byte a2 /\ is_byte a3.

(** An [int] (and a [long]) of the target. *)
Definition is_int (n : Z) : Prop := -2147483648 <= n <= 2147483647.

(** [format_mac_address(mac)]: the six bytes from [mac[5]] down to [mac[0]].
    [None]: a read past the end of [mac], or a store past the end of [str]. *)
Definition format_mac_address (mac : list Z) : option string :=
  m5 ← mac !! 5%nat; m4 ← mac !! 4%nat; m3 ← mac !! 3%nat;
  m2 ← mac !! 2%nat; m1 ← mac !! 1%nat; m0 ← mac !! 0%nat;
  sprintf 30
    (printf_02X m5 ++ "-" ++ printf_02X m4 ++ "-" ++ printf_02X m3 ++ "-"
     ++ printf_02X m2 ++ "-" ++ printf_02X m1 ++ "-" ++ printf_02X m0)%string.

(* ===================================================================== *)
(** ** The visitors page *)

(** The loop [for (ndx = 0; ndx < MAX_IP_ADDRESSES; ++ndx)] of the
    RSP_VISITORS branch of [generate_response]: the records that get a line
    on the page, in the order of their lines. *)
Definition visitors_listed (clients : list client_t) : list client_t :=
  List.filter (fun c => 0 <? count c) clients.

(** The line of a record: "IP %s visited %d times%s<br>\r\n". *)
Definition visitor_line (WIFI_PORT : Z) (c : client_t) : option string :=
  ip ← format_ip_address WIFI_PORT (ip_address c);
  Some ("IP " ++ ip ++ " visited " ++ printf_d (count c) ++ " times"
        ++ (if gave_password c then "; password was given" else "")
        ++ "<br>" ++ String "013"%char (String "010"%char EmptyString))%string.

(* ===================================================================== *)
(** ** Sample requests, tables and states *)

Definition CRLF : string := String "013"%char (String "010"%char EmptyString).

(** A request as a browser sends it: request line, a header line, the empty
    line, and the body (without a line end of its own). *)
Definition http_request (request_line body : string) : string :=
  (request_line ++ CRLF ++ "Host: generator" ++ CRLF ++ CRLF ++ body)%string.

Definition owner : IPAddress := (192, 168, 1, 20).
Definition stranger : IPAddress := (192, 168, 1, 99).

(** A table with two visitors; the first has given the password. *)
Definition sample_clients : list client_t :=
  [ {| ip_address := owner; count := 5; gave_password := true |};
    {| ip_address := (192, 168, 1, 21); count := 2; gave_password := false |} ]
  ++ replicate 23 no_client_slot.

(** The server connected to the network and waiting for a client. *)
Definition web_waiting : web :=
  {| web_status := WEB_AWAITING_CLIENT;
     delayed_response := false; delayed_sendtime := 0;
     next_connect_time := 0;
     clients := sample_clients; current_client := 0;
     requests_processed := 7;
     wifi_connects := 1; wifi_connectfails := 0;
     wifi_disconnects := 0; wifi_resets := 0;
     client := no_WiFiClient;
     processing_web := false; connect_attempts := 0;
     button_webpushed := replicate 7 false;
     ifttt_do_trigger := false;
     trace := [] |}.

(** The controller after start-up: not connected, no attempt made. *)
Definition web_start : web :=
  {| web_status := WEB_NOT_CONNECTED;
     delayed_response := false; delayed_sendtime := 0;
     next_connect_time := 0;
     clients := replicate MAX_IP_ADDRESSES no_client_slot; current_client := 0;
     requests_processed := 0;
     wifi_connects := 0; wifi_connectfails := 0;
     wifi_disconnects := 0; wifi_resets := 0;
     client := no_WiFiClient;
     processing_web := false; connect_attempts := 0;
     button_webpushed := replicate 7 false;
     ifttt_do_trigger := false;
     trace := [] |}.

(** [web_waiting] at the moment [process_web] hands the request [input] of
    [peer] to [process_client_request]. *)
Definition web_with_request (peer : IPAddress) (input : string) : web :=
  set_web_status WEB_PROCESSING_REQUEST
    (set_client {| remoteIP := peer; inbuf := input; connected := true |}
       (set_processing_web true web_waiting)).

(** A call of [process_web] with power on for a long time, at second [now]
    and millisecond [millis], the WiFi module reporting [status]. *)
Definition env_at (now millis status : Z) (incoming : option WiFiClient) : env :=
  {| env_have_power := true; env_last_poweron_time := 0;
     env_now_gate := now; env_now := now; env_millis := millis;
     env_wifi_status := status; env_incoming := incoming;
     env_ifttt_connect := true |}.

(** Two association attempts that the module reports as failed, with calls
    that wait in between, and the start of a third attempt; the report that
    the third has failed is [third_failure]. *)
Definition two_failures_and_an_attempt : list env :=
  [ env_at 1000 0 WL_IDLE_STATUS None; env_at 1001 0 WL_CONNECT_FAILED None;
    env_at 1005 0 WL_IDLE_STATUS None;
    env_at 1011 0 WL_IDLE_STATUS None; env_at 1012 0 WL_IDLE_STATUS None;
    env_at 1013 0 WL_CONNECT_FAILED None;
    env_at 1023 0 WL_IDLE_STATUS None ].

Definition third_failure : env := env_at 1024 0 WL_CONNECT_FAILED None.

(** A log of capacity 4 that has wrapped: entries at slots 3, 0, 1 in the
    order of their insertion. *)
Definition sample_hdr : logfile_hdr_t := {| num_entries := 3; newest := 1; oldest := 3 |}.

Definition sample_logfile : list logentry_t :=
  [ {| datetime := 200; event_type := 5; extra_info := 0; msg := "" |};
    {| datetime := 300; event_type := 7; extra_info := 0; msg := "" |};
    {| datetime := 50; event_type := 1; extra_info := 0; msg := "" |};
    {| datetime := 100; event_type := 3; extra_info := 0; msg := "" |} ].

Definition LFs : string := String "010"%char EmptyString.

(** Requests as [process_client_request] finds them. *)
Definition pushbutton_by_owner : web :=
  web_with_request owner (http_request "POST /PUSHBUTTON.HTML HTTP/1.1" "BUTTON=2").
Definition pushbutton_by_stranger : web :=
  web_with_request stranger (http_request "POST /PUSHBUTTON.HTML HTTP/1.1" "BUTTON=2").
Definition pushbutton_without_body : web :=
  web_with_request stranger (http_request "POST /PUSHBUTTON.HTML HTTP/1.1" "").
Definition two_buttons_by_owner : web :=
  web_with_request owner
    (http_request "POST /PUSHBUTTON.HTML HTTP/1.1" ("BUTTON=1" ++ LFs ++ "BUTTON=2")%string).
Definition setpass_right : web :=
  web_with_request stranger (http_request "POST /SETPASS.HTML HTTP/1.1" "PWD=password").
Definition setpass_wrong : web :=
  web_with_request stranger (http_request "POST /SETPASS.HTML HTTP/1.1" "PWD=letmein").
Definition setpass_right_then_more : web :=
  web_with_request stranger
    (http_request "POST /SETPASS.HTML HTTP/1.1" ("PWD=password" ++ LFs ++ "xx")%string).
Definition setpass_without_body : web :=
  web_with_request stranger (http_request "POST /SETPASS.HTML HTTP/1.1" "").
Definition root_by_owner : web :=
  web_with_request owner (http_request "GET / HTTP/1.1" "").

(** The owner's connection with the pushbutton request on it. *)
Definition owner_pushes_button : WiFiClient :=
  {| remoteIP := owner;
     inbuf := http_request "POST /PUSHBUTTON.HTML HTTP/1.1" "BUTTON=2";
     connected := true |}.

(** A delayed response armed at millisecond 5000 for button 2. *)
Definition web_armed : web :=
  {| web_status := WEB_PROCESSING_REQUEST;
     delayed_response := true; delayed_sendtime := 6000;
     next_connect_time := 0;
     clients := sample_clients; current_client := 0;
     requests_processed := 8;
     wifi_connects := 1; wifi_connectfails := 0;
     wifi_disconnects := 0; wifi_resets := 0;
     client := {| remoteIP := owner; inbuf := ""; connected := true |};
     processing_web := false; connect_attempts := 0;
     button_webpushed := <[2%nat := true]> (replicate 7 false);
     ifttt_do_trigger := false;
     trace := [] |}.

(** A call without power. *)
Definition env_no_power : env :=
  {| env_have_power := false; env_last_poweron_time := 0;
     env_now_gate := 2000; env_now := 2000; env_millis := 9000;
     env_wifi_status := WL_CONNECTED; env_incoming := None;
     env_ifttt_connect := true |}.

(* ===================================================================== *)
(** ** Requests on the wire *)

(** The character [t] does not occur in [s]. *)
Fixpoint free_of (t : ascii) (s : string) : bool :=
  match s with
  | EmptyString => true
  | String c rest => negb (c =? t)%char && free_of t rest
  end.

(** The bytes of a request: each of [lines] followed by a line feed, and
    then [rest]. *)
Fixpoint join_lines (lines : list string) (rest : string) : string :=
  match lines with
  | [] => rest
  | line :: lines' => (line ++ String LF (join_lines lines' rest))%string
  end.

(** A line that the loop over the request lines hands to its body and goes
    on after: two bytes at least, no line feed, and short enough for the
    line feed to be read with it. *)
Definition full_line (line : string) : bool :=
  (2 <=? String.length line)%nat && (String.length line <=? MAXLINE - 2)%nat
  && free_of LF line.

(** A line that ends the loop: less than two bytes (the empty line of HTTP
    is a lone carriage return here). *)
Definition end_line (line : string) : bool :=
  (String.length line <=? 1)%nat && free_of LF line.

(** The stranger asks for the visitors page. *)
Definition visitors_by_stranger : web :=
  web_with_request stranger (http_request "GET /VISITORS HTTP/1.1" "").

(** The stranger pushes button 2 after a setpass request with the password:
    slot 24 of the table is the stranger's, with two requests counted and
    the password flag set. *)
Definition stranger_after_password : web :=
  set_clients
    (<[24%nat := {| ip_address := stranger; count := 2; gave_password := true |}]>
       sample_clients)
    pushbutton_by_stranger.

(** Three calls with the network up: the owner's pushbutton request comes
    in, a call before the response is due, and a call after. *)
Definition busy_second : list env :=
  [ env_at 2000 5000 WL_CONNECTED (Some owner_pushes_button);
    env_at 2000 5500 WL_CONNECTED None;
    env_at 2001 6100 WL_CONNECTED None ].

(** Calls without a client: the power is off, then the network is lost, and
    a new association is tried and made. *)
Definition network_lost_and_found : list env :=
  [ env_no_power;
    env_at 2000 9100 WL_CONNECT_FAILED None;
    env_at 2010 19100 WL_IDLE_STATUS None;
    env_at 2011 20100 WL_CONNECTED None;
    env_at 2012 21100 WL_CONNECTED None ].

(** Calls around the wrap of [millis()]. *)
Definition around_the_wrap : list env :=
  [ env_at 2000 4294967000 WL_CONNECTED None;
    env_at 2001 4294967295 WL_CONNECTED None;
    env_at 2002 0 WL_CONNECTED None;
    env_at 2003 1000 WL_CONNECTED None ].

(** A row of the LCD mirror [lcdbuf[4][21]] that can be printed as a format:
    at most 20 characters, and no per cent sign among them. *)
Definition lcd_row (row : string) : bool :=
  (String.length row <=? 20)%nat && free_of "%" row.

(** The four rows of the display while the generator runs. *)
Definition sample_lcdbuf : list string :=
  [ "Generator running";
    String RIGHTARROW " exercise";
    "";
    String LEFTARROW (String " " (String "A" EmptyString)) ].

(** The calls of a first association after power-up: the attempt, a call
    while it is under way, and the call that finds it made. *)
Definition first_attempt : env := env_at 1000 0 WL_IDLE_STATUS None.
Definition attempt_made : env := env_at 1002 0 WL_CONNECTED None.

(** The network is lost while the owner's request waits at the server. *)
Definition network_gone : env := env_at 2000 5000 WL_CONNECT_FAILED (Some owner_pushes_button).

(** A log header whose [oldest] lies outside a log of capacity 4. *)
Definition broken_hdr : logfile_hdr_t := {| num_entries := 3; newest := 1; oldest := 7 |}.

(** A full table without the stranger: slot [i] holds 10.0.0.(i+1) with
    [6 + i] requests counted, so slot 0 has the least count. *)
Definition busy_table : list client_t :=
  map (fun i => {| ip_address := (10, 0, 0, Z.of_nat i);
                   count := 5 + Z.of_nat i; gave_password := true |})
      (seq 1 MAX_IP_ADDRESSES).

(** A call in the last second before [millis()] wraps. *)
Definition before_the_wrap : env := env_at 2000 4294967100 WL_CONNECTED None.




(* ===================================================================== *)
(** ** The HTTP engine and the connectivity state machine *)

Section Server.

(** The two scanners of the main module that the request handling calls:
    [scan_key ptr keyword] is the result of [scan_key(&ptr, keyword)] and the
    pointer afterwards; [scan_int ptr min max] is [None] when
    [scan_int(&ptr, &num, min, max)] is false, else the number stored and the
    pointer afterwards.  Everything below holds for any two such functions. *)
Variable scan_key : string -> string -> bool * string.
Variable scan_int : string -> Z -> Z -> option (Z * string).

(** [button_webpushed[button] = true]. *)
Definition push_button (buttons : list bool) (button : Z) : list bool :=
  if 0 <=? button then <[Z.to_nat button := true]> buttons else buttons.

Definition queue_button_push (millis : Z) (button : Z) (s : web) : web :=
  let s := set_button_webpushed (push_button (button_webpushed s) button) s in
  let s := set_delayed_response true s in
  set_delayed_sendtime (wrap_ulong (millis + DELAYED_RSP_MSEC)) s.

(** [strcmp(ptr, ACTION_PASSWORD) == 0]. *)
Definition check_password (ptr : string) : bool := String.eqb ptr ACTION_PASSWORD.

(** [generate_response]: the page sent is recorded by its type; then the
    rest of the input is read away, the connection is stopped and the server
    waits for the next client.  (What the pages of type RSP_STATUS and RSP_LOG
    hold is [expand_arrows_and_blanks] and [log_page] above.) *)
Definition generate_response (response_type : response_type_t) (s : web) : web :=
  let s := emit (sent_response response_type) s in
  let c := client s in
  let c := if connected c
           then {| remoteIP := remoteIP c; inbuf := ""; connected := false |}
           else c in
  set_web_status WEB_AWAITING_CLIENT (set_client c s).

(** The body of the loop over the lines of the request header. *)
Definition header_line (line : string) (request_type : request_type_t)
  : request_type_t :=
  let ptr := cut_nul line in
  let '(is_get, ptr) := scan_key ptr "GET" in
  if is_get then
    let '(b, ptr) := scan_key ptr "/ " in
    if b then REQ_ROOT else
    let '(b, ptr) := scan_key ptr "/VISITORS " in
    if b then REQ_VISITORS else
    let '(b, ptr) := scan_key ptr "/LOG " in
    if b then REQ_LOG else
    let '(b, ptr) := scan_key ptr "/FAVICON.ICO " in
    if b then REQ_FAVICON else
    let '(b, ptr) := scan_key ptr "/BUTTONIMAGE.JPG " in
    if b then REQ_BUTTONIMAGE else request_type
  else
    let '(is_post, ptr) := scan_key ptr "POST" in
    if is_post then
      let '(b, ptr) := scan_key ptr "/PUSHBUTTON.HTML" in
      if b then REQ_PUSHBUTTON else
      let '(b, ptr) := scan_key ptr "/SETPASS.HTML" in
      if b then REQ_SETPASS else request_type
    else request_type.

(** [scan_key(&ptr, "BUTTON=") && scan_int(&ptr, &button, 0, NUM_BUTTONS - 1)]:
    the button of a body line, if it names one. *)
Definition button_of_line (line : string) : option Z :=
  let '(b, ptr) := scan_key (cut_nul line) "BUTTON=" in
  if b then fst <$> scan_int ptr 0 (NUM_BUTTONS - 1) else None.

(** The body of the loop over the lines of a pushbutton request. *)
Definition pushbutton_line (millis : Z) (line : string)
    (acc : web * response_type_t) : web * response_type_t :=
  let '(s, response_type) := acc in
  match button_of_line line with
  | Some button =>
      if gave_password (client_at (clients s) (current_client s))
      then (queue_button_push millis button s, RSP_NONE)
      else (s, RSP_ASKPASS)
  | None => (s, response_type)
  end.

(** [scan_key(&ptr, "PWD=") && check_password(ptr)]. *)
Definition password_line (line : string) : bool :=
  let '(b, ptr) := scan_key (cut_nul line) "PWD=" in
  b && check_password ptr.

(** [current_client->gave_password = true]. *)
Definition set_gave_password (s : web) : web :=
  let c := client_at (clients s) (current_client s) in
  set_clients (store_client (clients s) (current_client s)
                 {| ip_address := ip_address c; count := count c;
                    gave_password := true |}) s.

(** The body of the loop over the lines of a setpass request. *)
Definition setpass_line (line : string) (acc : web * response_type_t)
  : web * response_type_t :=
  let '(s, response_type) := acc in
  if password_line line then (set_gave_password s, RSP_STATUS)
  else (s, RSP_ASKPASS).

(** [++current_client->count; ++requests_processed]. *)
Definition count_request (s : web) : web :=
  let c := client_at (clients s) (current_client s) in
  let s := set_clients (store_client (clients s) (current_client s)
                          {| ip_address := ip_address c;
                             count := wrap_long (count c + 1);
                             gave_password := gave_password c |}) s in
  set_requests_processed (wrap_long (requests_processed s + 1)) s.

(** The response type for the request types that need no body. *)
Definition simple_response (request_type : request_type_t) : response_type_t :=
  match request_type with
  | REQ_ROOT => RSP_STATUS
  | REQ_BUTTONIMAGE => RSP_BUTTONIMAGE
  | REQ_LOG => RSP_LOG
  | REQ_VISITORS => RSP_VISITORS
  | REQ_FAVICON => RSP_FAVICON
  | _ => RSP_UNKNOWN
  end.

(** [pclient->available()]: the bytes received and not yet read. *)
Definition available (c : WiFiClient) : Z := Z.of_nat (String.length (inbuf c)).

(** With the input left on the connection. *)
Definition set_inbuf (input : string) (s : web) : web :=
  set_client {| remoteIP := remoteIP (client s); inbuf := input;
                connected := connected (client s) |} s.

(** The request type that the header lines of the pending request give. *)
Definition request_type_of (input : string) : request_type_t :=
  fst (while_get_request_line header_line input REQ_UNKNOWN).

(** The input after the header: the body of the request. *)
Definition body_of (input : string) : string :=
  snd (while_get_request_line header_line input REQ_UNKNOWN).

(** [if (request_type != REQ_FAVICON) { ++current_client->count;
    ++requests_processed; }]. *)
Definition count_visit (request_type : request_type_t) (s : web) : web :=
  match request_type with
  | REQ_FAVICON => s
  | _ => count_request s
  end.

(** "Figure out what kind of response to generate": the chain of tests on
    [request_type], with the loops over the body of a pushbutton and of a
    setpass request.  [response_type] starts as RSP_UNKNOWN. *)
Definition choose_response (millis : Z) (request_type : request_type_t) (s : web)
  : web * response_type_t :=
  match request_type with
  | REQ_PUSHBUTTON =>
      if 2 <? available (client s) then
        let '(acc, input) :=
          while_get_request_line (pushbutton_line millis) (inbuf (client s))
            (s, RSP_UNKNOWN) in
        (set_inbuf input (fst acc), snd acc)
      else (s, RSP_UNKNOWN)
  | REQ_SETPASS =>
      let '(acc, input) :=
        while_get_request_line setpass_line (inbuf (client s)) (s, RSP_UNKNOWN) in
      (set_inbuf input (fst acc), snd acc)
  | _ => (s, simple_response request_type)
  end.

(** [if (response_type != RSP_NONE) generate_response(pclient, response_type)]. *)
Definition respond (response_type : response_type_t) (s : web) : web :=
  match response_type with
  | RSP_NONE => s
  | _ => generate_response response_type s
  end.

(** [process_client_request(&client)]; [millis] is what [millis()] reads when
    a button push is queued. *)
Definition process_client_request (millis : Z) (s : web) : web :=
  let '(ndx, tbl) := add_IP_address (remoteIP (client s)) (clients s) in
  let s := set_current_client ndx (set_clients tbl s) in
  let '(request_type, input) :=
    while_get_request_line header_line (inbuf (client s)) REQ_UNKNOWN in
  let s := set_inbuf input s in
  let s := count_visit request_type s in
  let '(s, response_type) := choose_response millis request_type s in
  respond response_type s.

(** [ifttt_send_trigger(&client)]. *)
Definition ifttt_send_trigger (connect_ok : bool) (s : web) : web :=
  let stopped := {| remoteIP := remoteIP (client s); inbuf := "";
                    connected := false |} in
  let s := set_client stopped s in
  let s := emit (log_event EV_IFTTT_SENDING) s in
  if connect_ok
  then emit (log_event EV_IFTTT_SENT) (emit ifttt_post s)
  else emit (log_event EV_IFTTT_FAILED) s.

(** The test at the head of [process_web]: power, no call in progress, and
    the power has been on for long enough. *)
Definition web_enabled (e : env) (s : web) : bool :=
  env_have_power e && negb (processing_web s) &&
  (POWER_ON_WEB_DELAY_SECS <? wrap_ulong (env_now_gate e - env_last_poweron_time e)).

(** The [switch (web_status)] of [process_web].  ([assert] is a function of
    the main module; a test that fails is noted in the trace, and the case
    goes on with the statements that follow the call.) *)
Definition web_switch (e : env) (s : web) : web :=
  match web_status s with
  | WEB_NOT_CONNECTED =>
      if next_connect_time s <=? env_now e then
        let s := emit WiFi_begin s in
        let s := set_connect_attempts (wrap_int (connect_attempts s + 1)) s in
        set_web_status WEB_AWAITING_CONNECTION s
      else s
  | WEB_AWAITING_CONNECTION =>
      if env_wifi_status e =? WL_CONNECTED then
        let s := set_wifi_connects (wrap_long (wifi_connects s + 1)) s in
        let s := emit server_begin s in
        let s := set_connect_attempts 0 s in
        set_web_status WEB_AWAITING_CLIENT s
      else if env_wifi_status e =? WL_IDLE_STATUS then s
      else
        let s := set_wifi_connectfails (wrap_long (wifi_connectfails s + 1)) s in
        let s :=
          if MAX_CONNECT_ATTEMPTS <=? connect_attempts s then
            let s := set_wifi_resets (wrap_long (wifi_resets s + 1)) s in
            let s := emit wifi_reset s in
            set_connect_attempts 0 s
          else s in
        let s := set_next_connect_time (wrap_ulong (env_now e + CONNECT_DELAY_SECS)) s in
        set_web_status WEB_NOT_CONNECTED s
  | WEB_AWAITING_CLIENT =>
      if negb (env_wifi_status e =? WL_CONNECTED) then
        let s := set_wifi_disconnects (wrap_long (wifi_disconnects s + 1)) s in
        let s := set_wifi_resets (wrap_long (wifi_resets s + 1)) s in
        let s := emit wifi_reset s in
        let s := set_connect_attempts 0 s in
        let s := set_next_connect_time (wrap_ulong (env_now e + CONNECT_DELAY_SECS)) s in
        set_web_status WEB_NOT_CONNECTED s
      else
        match env_incoming e with
        | Some c =>
            let s := set_client c s in
            let s := set_web_status WEB_PROCESSING_REQUEST s in
            process_client_request (env_millis e) s
        | None =>
            let s := set_client no_WiFiClient s in
            if ifttt_do_trigger s then
              let s := ifttt_send_trigger (env_ifttt_connect e) s in
              set_ifttt_do_trigger false s
            else s
        end
  | WEB_PROCESSING_REQUEST =>
      let s := if delayed_response s then s else emit assertion_failed s in
      if delayed_sendtime s <? env_millis e then
        let s := set_delayed_response false s in
        generate_response RSP_STATUS s
      else s
  end.

(** One call of [process_web()]. *)
Definition process_web (e : env) (s : web) : web :=
  let s := if web_enabled e s
           then web_switch e (set_processing_web true s)
           else s in
  set_processing_web false s.

(** The main loop calling [process_web()] again and again, once for each
    element of [es]. *)
Fixpoint run (es : list env) (s : web) : web :=
  match es with
  | [] => s
  | e :: es' => run es' (process_web e s)
  end.

(** *** Vocabulary of the statements below *)

(** The events that a call of [process_web] adds to the trace. *)
Definition step_events (e : env) (s : web) : list event :=
  drop (length (trace s)) (trace (process_web e s)).

(** The module reports a state that is neither connected nor idle while the
    controller waits for the association: the [default:] branch. *)
Definition association_failed (e : env) : bool :=
  negb (env_wifi_status e =? WL_CONNECTED) && negb (env_wifi_status e =? WL_IDLE_STATUS).

Definition awaiting_connection (s : web) : bool :=
  match web_status s with WEB_AWAITING_CONNECTION => true | _ => false end.

(** A call of [process_web] that finds the association attempt failed. *)
Definition connect_fails (e : env) (s : web) : bool :=
  web_enabled e s && awaiting_connection s && association_failed e.

(** A call of [process_web] that finds the association made. *)
Definition connect_succeeds (e : env) (s : web) : bool :=
  web_enabled e s && awaiting_connection s && (env_wifi_status e =? WL_CONNECTED).

(** The number of calls in a run that find the attempt failed. *)
Fixpoint failures (es : list env) (s : web) : nat :=
  match es with
  | [] => O
  | e :: es' => ((if connect_fails e s then 1 else 0) + failures es' (process_web e s))%nat
  end.

(** No call of the run finds the association made. *)
Fixpoint no_success (es : list env) (s : web) : bool :=
  match es with
  | [] => true
  | e :: es' => negb (connect_succeeds e s) && no_success es' (process_web e s)
  end.

(** The machine is in WEB_NOT_CONNECTED after every call of the run. *)
Fixpoint stays_not_connected (es : list env) (s : web) : Prop :=
  match es with
  | [] => True
  | e :: es' =>
      web_status (process_web e s) = WEB_NOT_CONNECTED /\
      stays_not_connected es' (process_web e s)
  end.

(** The number of module resets in a trace. *)
Definition resets_in (t : list event) : nat :=
  length (List.filter (fun ev => match ev with wifi_reset => true | _ => false end) t).

(** A call of [process_web] that leaves a pending delayed response pending:
    the call is switched off, or the time to send has not come. *)
Definition still_waiting (s : web) (e : env) : bool :=
  negb (web_enabled e s) || negb (delayed_sendtime s <? env_millis e).

(** The record of the peer of the pending request: the slot that
    [add_IP_address] returns for it. *)
Definition peer_slot (s : web) : Z :=
  fst (add_IP_address (remoteIP (client s)) (clients s)).

Definition peer_record (s : web) : client_t :=
  client_at (snd (add_IP_address (remoteIP (client s)) (clients s))) (peer_slot s).

(** The body of the pending request, and the lines of it that the loops over
    the body see. *)
Definition request_body (s : web) : string := body_of (inbuf (client s)).

Definition body_lines (s : web) : list string := request_lines (request_body s).

(** The buttons that the lines of the body name, in order. *)
Definition body_buttons (s : web) : list Z :=
  omap button_of_line (body_lines s).

(** A [long] below its largest value: [++] is defined on it. *)
Definition can_increment (z : Z) : Prop := -2147483648 <= z < LONG_MAX.

(** The variables of the connectivity machine that the HTTP engine has no
    business with. *)
Definition link (s : web) : Z * Z * (Z * Z * Z * Z) * bool * bool :=
  (next_connect_time s, connect_attempts s,
   (wifi_connects s, wifi_connectfails s, wifi_disconnects s, wifi_resets s),
   ifttt_do_trigger s, processing_web s).

(** [s'] differs from [s] in neither those, nor the state of the machine,
    nor the trace. *)
Definition quiet (s s' : web) : Prop :=
  link s' = link s /\ web_status s' = web_status s /\ trace s' = trace s.

(** The buttons and the delayed response. *)
Definition pending (s : web) : list bool * bool * Z :=
  (button_webpushed s, delayed_response s, delayed_sendtime s).

(** In a series of failing attempts that starts from [s0], before the reset:
    [f] attempts have failed, a further one may be under way, and no reset
    has been made. *)
Definition attempts_invariant (s0 s : web) (f : Z) : Prop :=
  wifi_resets s = wifi_resets s0 /\
  resets_in (trace s) = resets_in (trace s0) /\
  ((web_status s = WEB_NOT_CONNECTED /\ connect_attempts s = f) \/
   (web_status s = WEB_AWAITING_CONNECTION /\ connect_attempts s = f + 1)).


(** The response to a setpass request whose body lines are [lines], where a
    line that gives the password is the last one, or no line gives it. *)
Definition last_line_matches (lines : list string) : bool :=
  match last lines with
  | Some line => password_line line
  | None => false
  end.

(** The state in which [process_client_request] chooses the response to a
    request that is counted. *)
Definition counted (s : web) : web :=
  count_request
    (set_inbuf (request_body s)
       (set_current_client (peer_slot s)
          (set_clients (snd (add_IP_address (remoteIP (client s)) (clients s))) s))).

(** *** Vocabulary of the statements on runs of the machine *)

(** The machine is past the association with the network: it waits for a
    client or has a request in hand. *)
Definition serving (s : web) : bool :=
  match web_status s with
  | WEB_AWAITING_CLIENT | WEB_PROCESSING_REQUEST => true
  | _ => false
  end.

(** A call in which [WiFi.status()] reports the association as made. *)
Definition network_up (e : env) : bool := env_wifi_status e =? WL_CONNECTED.

(** The calls of the connectivity machine that leave the file. *)
Definition is_link_event (ev : event) : bool :=
  match ev with
  | WiFi_begin | server_begin | wifi_reset => true
  | _ => false
  end.

(** The counters and the timer of the connectivity machine. *)
Definition link_counters (s : web) : Z * Z * Z * Z * Z * Z :=
  (wifi_connects s, wifi_connectfails s, wifi_disconnects s, wifi_resets s,
   connect_attempts s, next_connect_time s).

(** A call in which [server.available()] has no client. *)
Definition no_caller (e : env) : bool :=
  match env_incoming e with
  | None => true
  | Some _ => false
  end.

(** What the visitors have left behind: the table with its password flags,
    the request counter and the buttons pushed. *)
Definition visits (s : web) : list client_t * Z * Z * list bool :=
  (clients s, current_client s, requests_processed s, button_webpushed s).

(** The number of attempts to send the IFTTT trigger in a trace: each starts
    with the log entry EV_IFTTT_SENDING. *)
Definition triggers_in (t : list event) : nat :=
  length (List.filter (fun ev => match ev with
                                 | log_event ty => ty =? EV_IFTTT_SENDING
                                 | _ => false
                                 end) t).

(** A value of [millis()]: an [unsigned long]. *)
Definition is_ulong (z : Z) : bool := (0 <=? z) && (z <? 4294967296).

(** The largest [unsigned long]. *)
Definition ULONG_MAX : Z := 4294967295.

(** A call in which [WiFi.status()] reports the association as under way. *)
Definition association_pending (e : env) : bool := env_wifi_status e =? WL_IDLE_STATUS.

(** The counters that a new association does not touch. *)
Definition failure_counters (s : web) : Z * Z * Z :=
  (wifi_connectfails s, wifi_disconnects s, wifi_resets s).

(** Where [connect_attempts] lies in each state of the machine: attempts that
    have failed since the last reset while it is not connected, with the one
    under way while it awaits the connection, and none once it is connected. *)
Definition attempts_in_range (s : web) : bool :=
  match web_status s with
  | WEB_NOT_CONNECTED =>
      (0 <=? connect_attempts s) && (connect_attempts s <? MAX_CONNECT_ATTEMPTS)
  | WEB_AWAITING_CONNECTION =>
      (1 <=? connect_attempts s) && (connect_attempts s <=? MAX_CONNECT_ATTEMPTS)
  | WEB_AWAITING_CLIENT | WEB_PROCESSING_REQUEST => connect_attempts s =? 0
  end.

(* ===================================================================== *)
(** ** Lemmas: arithmetic and the line loop *)

Lemma wrap_long_incr (z : Z) : can_increment z -> wrap_long (z + 1) = z + 1.
Proof.
  unfold can_increment, wrap_long, LONG_MAX. intros H.
  rewrite Z.mod_small; lia.
Qed.

Lemma wrap_ulong_small (z : Z) : 0 <= z < 4294967296 -> wrap_ulong z = z.
Proof. intros H. unfold wrap_ulong. apply Z.mod_small. exact H. Qed.

(** A property of the accumulator that the body keeps holds after the loop. *)
Lemma request_loop_inv {A : Type} (P : A -> Prop) (body : string -> A -> A) :
  (forall line a, P a -> P (body line a)) ->
  forall fuel input acc, P acc -> P (fst (request_loop fuel body input acc)).
Proof.
  intros Hbody. induction fuel as [|fuel IH]; intros input acc Hacc; simpl.
  - exact Hacc.
  - destruct (get_request_line input) as [line input'].
    destruct (1 <? String.length line)%nat; simpl; auto.
Qed.

(** Reading takes bytes off the input, and as many as it stores at least. *)
Lemma readBytesUntil_length (t : ascii) (n : nat) (input : string) :
  (String.length (fst (readBytesUntil t n input))
   + String.length (snd (readBytesUntil t n input))
   <= String.length input)%nat.
Proof.
  revert input. induction n as [|n IH]; intros input; simpl.
  - lia.
  - destruct input as [|c rest]; simpl; [lia|].
    destruct (c =? t)%char; simpl; [lia|].
    specialize (IH rest).
    destruct (readBytesUntil t n rest) as [line rest']; simpl in *. lia.
Qed.

Lemma request_loop_enough {A : Type} (body : string -> A -> A) :
  forall fuel1 fuel2 input acc,
    (String.length input < fuel1)%nat -> (String.length input < fuel2)%nat ->
    request_loop fuel1 body input acc = request_loop fuel2 body input acc.
Proof.
  induction fuel1 as [|fuel1 IH]; intros fuel2 input acc H1 H2; [lia|].
  destruct fuel2 as [|fuel2]; [lia|].
  simpl.
  pose proof (readBytesUntil_length LF (MAXLINE - 1) input) as Hlen.
  unfold get_request_line.
  destruct (readBytesUntil LF (MAXLINE - 1) input) as [line input'].
  simpl in Hlen.
  destruct (1 <? String.length line)%nat eqn:Hline; [|reflexivity].
  apply Nat.ltb_lt in Hline.
  apply IH; lia.
Qed.

(** The loop never runs out of rounds: with more rounds than the input has
    bytes, the result is that of [while_get_request_line]. *)
Lemma request_loop_fuel {A : Type} (body : string -> A -> A) :
  forall fuel input acc,
    (String.length input < fuel)%nat ->
    request_loop fuel body input acc = while_get_request_line body input acc.
Proof.
  intros fuel input acc Hlt. unfold while_get_request_line.
  apply request_loop_enough; lia.
Qed.

Lemma request_loop_collect :
  forall fuel input acc0,
    request_loop fuel collect input acc0
    = (acc0 ++ fst (request_loop fuel collect input []),
       snd (request_loop fuel collect input [])).
Proof.
  induction fuel as [|fuel IH]; intros input acc0; simpl.
  - by rewrite app_nil_r.
  - destruct (get_request_line input) as [line input'].
    destruct (1 <? String.length line)%nat; simpl.
    + rewrite (IH input' (collect line acc0)), (IH input' (collect line [])).
      unfold collect. simpl. by rewrite <- app_assoc.
    + by rewrite app_nil_r.
Qed.

(** The loop is a fold of its body over the lines it reads. *)
Lemma request_loop_fold {A : Type} (body : string -> A -> A) :
  forall fuel input acc,
    request_loop fuel body input acc
    = (fold_left (fun a line => body line a)
         (fst (request_loop fuel collect input [])) acc,
       snd (request_loop fuel collect input [])).
Proof.
  induction fuel as [|fuel IH]; intros input acc; simpl; [reflexivity|].
  destruct (get_request_line input) as [line input'].
  destruct (1 <? String.length line)%nat; simpl; [|reflexivity].
  rewrite IH, (request_loop_collect fuel input' (collect line [])).
  reflexivity.
Qed.

Lemma while_get_request_line_fold {A : Type} (body : string -> A -> A)
    (input : string) (acc : A) :
  fst (while_get_request_line body input acc)
  = fold_left (fun a line => body line a) (request_lines input) acc.
Proof.
  unfold while_get_request_line, request_lines, while_get_request_line.
  by rewrite request_loop_fold.
Qed.

(** ** Lemmas: what the HTTP engine leaves alone *)

Lemma quiet_refl (s : web) : quiet s s.
Proof. by unfold quiet. Qed.

Lemma quiet_trans (s1 s2 s3 : web) : quiet s1 s2 -> quiet s2 s3 -> quiet s1 s3.
Proof. unfold quiet. intros (?&?&?) (?&?&?). repeat split; congruence. Qed.

Lemma quiet_queue_button_push (m b : Z) (s : web) : quiet s (queue_button_push m b s).
Proof. by unfold quiet. Qed.

Lemma quiet_set_gave_password (s : web) : quiet s (set_gave_password s).
Proof. by unfold quiet. Qed.

Lemma quiet_count_request (s : web) : quiet s (count_request s).
Proof. by unfold quiet. Qed.

Lemma quiet_set_inbuf (input : string) (s : web) : quiet s (set_inbuf input s).
Proof. by unfold quiet. Qed.

Lemma quiet_pushbutton_line (m : Z) (line : string) (acc : web * response_type_t) :
  quiet (fst acc) (fst (pushbutton_line m line acc)).
Proof.
  destruct acc as [s r]. unfold pushbutton_line.
  destruct (button_of_line line); [|apply quiet_refl].
  destruct (gave_password _); simpl; [apply quiet_queue_button_push|apply quiet_refl].
Qed.

Lemma quiet_setpass_line (line : string) (acc : web * response_type_t) :
  quiet (fst acc) (fst (setpass_line line acc)).
Proof.
  destruct acc as [s r]. unfold setpass_line.
  destruct (password_line line); simpl;
    [apply quiet_set_gave_password|apply quiet_refl].
Qed.

Lemma quiet_loop (body : string -> web * response_type_t -> web * response_type_t) :
  (forall line acc, quiet (fst acc) (fst (body line acc))) ->
  forall input acc, quiet (fst acc) (fst (fst (while_get_request_line body input acc))).
Proof.
  intros Hbody input acc. unfold while_get_request_line.
  apply (request_loop_inv (fun a => quiet (fst acc) (fst a))).
  - intros line a Ha. eapply quiet_trans; [exact Ha|apply Hbody].
  - apply quiet_refl.
Qed.

(** [generate_response] adds the response to the trace and returns the
    machine to WEB_AWAITING_CLIENT. *)
Lemma generate_response_effect (r : response_type_t) (s : web) :
  link (generate_response r s) = link s /\
  pending (generate_response r s) = pending s /\
  clients (generate_response r s) = clients s /\
  requests_processed (generate_response r s) = requests_processed s /\
  web_status (generate_response r s) = WEB_AWAITING_CLIENT /\
  trace (generate_response r s) = trace s ++ [sent_response r].
Proof. by unfold generate_response. Qed.

Lemma quiet_count_visit (request_type : request_type_t) (s : web) :
  quiet s (count_visit request_type s).
Proof. destruct request_type; simpl; by unfold quiet. Qed.

Lemma quiet_choose_response (m : Z) (request_type : request_type_t) (s : web) :
  quiet s (fst (choose_response m request_type s)).
Proof.
  unfold choose_response. destruct request_type; simpl; try apply quiet_refl.
  - destruct (2 <? available (client s)); simpl; [|apply quiet_refl].
    pose proof (quiet_loop (pushbutton_line m) (quiet_pushbutton_line m)
                  (inbuf (client s)) (s, RSP_UNKNOWN)) as Hq.
    destruct (while_get_request_line _ _ _) as [acc rest]. simpl in *.
    eapply quiet_trans; [exact Hq|apply quiet_set_inbuf].
  - pose proof (quiet_loop setpass_line quiet_setpass_line
                  (inbuf (client s)) (s, RSP_UNKNOWN)) as Hq.
    destruct (while_get_request_line _ _ _) as [acc rest]. simpl in *.
    eapply quiet_trans; [exact Hq|apply quiet_set_inbuf].
Qed.

(** [respond] sends nothing for RSP_NONE and one response otherwise. *)
Lemma respond_effect (r : response_type_t) (s : web) :
  link (respond r s) = link s /\
  pending (respond r s) = pending s /\
  clients (respond r s) = clients s /\
  requests_processed (respond r s) = requests_processed s /\
  ((r = RSP_NONE /\ respond r s = s) \/
   (r <> RSP_NONE /\ web_status (respond r s) = WEB_AWAITING_CLIENT /\
    trace (respond r s) = trace s ++ [sent_response r])).
Proof.
  destruct r; simpl;
    first [ by (repeat split; try reflexivity; left)
          | by (repeat split; try reflexivity; right) ].
Qed.

(** [process_client_request] either sends no response and leaves the state
    of the machine as it is, or sends one response and has the machine wait
    for the next client. *)
Lemma process_client_request_link (m : Z) (s : web) :
  link (process_client_request m s) = link s /\
  ((web_status (process_client_request m s) = web_status s /\
    trace (process_client_request m s) = trace s) \/
   (exists r, r <> RSP_NONE /\
              web_status (process_client_request m s) = WEB_AWAITING_CLIENT /\
              trace (process_client_request m s) = trace s ++ [sent_response r])).
Proof.
  unfold process_client_request.
  destruct (add_IP_address _ _) as [ndx tbl].
  destruct (while_get_request_line header_line _ _) as [request_type input].
  set (s0 := set_inbuf input (set_current_client ndx (set_clients tbl s))).
  assert (H0 : quiet s s0) by (by unfold quiet).
  pose proof (quiet_count_visit request_type s0) as H1.
  pose proof (quiet_choose_response m request_type (count_visit request_type s0)) as H2.
  destruct (choose_response m request_type (count_visit request_type s0))
    as [s2 response_type].
  simpl in H2.
  destruct (quiet_trans _ _ _ H0 (quiet_trans _ _ _ H1 H2)) as (Hl & Hw & Ht).
  destruct (respond_effect response_type s2) as (Hl' & _ & _ & _ & [[-> Hr]|(Hne & Hw' & Ht')]).
  - rewrite Hr. split; [exact Hl|]. left. by split.
  - split; [congruence|]. right. exists response_type.
    repeat split; [exact Hne|exact Hw'|congruence].
Qed.

(** ** Lemmas: one call of [process_web] *)

Lemma process_web_disabled (e : env) (s : web) :
  web_enabled e s = false -> process_web e s = set_processing_web false s.
Proof. intros H. unfold process_web. by rewrite H. Qed.

Lemma process_web_enabled (e : env) (s : web) :
  web_enabled e s = true ->
  process_web e s = set_processing_web false (web_switch e (set_processing_web true s)).
Proof. intros H. unfold process_web. by rewrite H. Qed.

(** What a call does, state by state of the machine it finds. *)
Lemma process_web_not_connected (e : env) (s : web) :
  web_status s = WEB_NOT_CONNECTED ->
  (process_web e s = set_processing_web false s /\
   (web_enabled e s = false \/ env_now e < next_connect_time s)) \/
  (web_enabled e s = true /\ next_connect_time s <= env_now e /\
   process_web e s
   = set_processing_web false
       (set_web_status WEB_AWAITING_CONNECTION
          (set_connect_attempts (wrap_int (connect_attempts s + 1))
             (emit WiFi_begin (set_processing_web true s))))).
Proof.
  intros Hs. destruct (web_enabled e s) eqn:Hen.
  - rewrite (process_web_enabled e s Hen). unfold web_switch. simpl. rewrite Hs.
    destruct (Z.leb_spec (next_connect_time s) (env_now e)).
    + right. by repeat split.
    + left. split; [reflexivity|by right].
  - left. split; [by apply process_web_disabled|by left].
Qed.

Lemma process_web_awaiting_connection (e : env) (s : web) :
  web_status s = WEB_AWAITING_CONNECTION ->
  (process_web e s = set_processing_web false s /\ connect_fails e s = false /\
   connect_succeeds e s = false) \/
  (connect_succeeds e s = true /\
   process_web e s
   = set_processing_web false
       (set_web_status WEB_AWAITING_CLIENT
          (set_connect_attempts 0
             (emit server_begin
                (set_wifi_connects (wrap_long (wifi_connects s + 1))
                   (set_processing_web true s)))))) \/
  (connect_fails e s = true /\ connect_attempts s < MAX_CONNECT_ATTEMPTS /\
   process_web e s
   = set_processing_web false
       (set_web_status WEB_NOT_CONNECTED
          (set_next_connect_time (wrap_ulong (env_now e + CONNECT_DELAY_SECS))
             (set_wifi_connectfails (wrap_long (wifi_connectfails s + 1))
                (set_processing_web true s))))) \/
  (connect_fails e s = true /\ MAX_CONNECT_ATTEMPTS <= connect_attempts s /\
   process_web e s
   = set_processing_web false
       (set_web_status WEB_NOT_CONNECTED
          (set_next_connect_time (wrap_ulong (env_now e + CONNECT_DELAY_SECS))
             (set_connect_attempts 0
                (emit wifi_reset
                   (set_wifi_resets (wrap_long (wifi_resets s + 1))
                      (set_wifi_connectfails (wrap_long (wifi_connectfails s + 1))
                         (set_processing_web true s)))))))).
Proof.
  intros Hs. unfold connect_fails, connect_succeeds, awaiting_connection, association_failed.
  rewrite Hs. destruct (web_enabled e s) eqn:Hen; simpl.
  - rewrite (process_web_enabled e s Hen). unfold web_switch. simpl. rewrite Hs.
    destruct (env_wifi_status e =? WL_CONNECTED); simpl.
    + right; left. by split.
    + destruct (env_wifi_status e =? WL_IDLE_STATUS); simpl.
      * left. by repeat split.
      * destruct (Z.leb_spec MAX_CONNECT_ATTEMPTS (connect_attempts s)).
        -- right; right; right. by repeat split.
        -- right; right; left. by repeat split.
  - left. rewrite (process_web_disabled e s Hen). by repeat split.
Qed.

Lemma process_web_awaiting_client (e : env) (s : web) :
  web_status s = WEB_AWAITING_CLIENT ->
  (web_enabled e s = false /\ process_web e s = set_processing_web false s) \/
  (web_enabled e s = true /\ env_wifi_status e <> WL_CONNECTED /\
   process_web e s
   = set_processing_web false
       (set_web_status WEB_NOT_CONNECTED
          (set_next_connect_time (wrap_ulong (env_now e + CONNECT_DELAY_SECS))
             (set_connect_attempts 0
                (emit wifi_reset
                   (set_wifi_resets (wrap_long (wifi_resets s + 1))
                      (set_wifi_disconnects (wrap_long (wifi_disconnects s + 1))
                         (set_processing_web true s)))))))) \/
  (web_enabled e s = true /\ env_wifi_status e = WL_CONNECTED /\
   exists c, env_incoming e = Some c /\
   process_web e s
   = set_processing_web false
       (process_client_request (env_millis e)
          (set_web_status WEB_PROCESSING_REQUEST
             (set_client c (set_processing_web true s))))) \/
  (web_enabled e s = true /\ env_wifi_status e = WL_CONNECTED /\
   env_incoming e = None /\ ifttt_do_trigger s = true /\
   process_web e s
   = set_processing_web false
       (set_ifttt_do_trigger false
          (ifttt_send_trigger (env_ifttt_connect e)
             (set_client no_WiFiClient (set_processing_web true s))))) \/
  (web_enabled e s = true /\ env_wifi_status e = WL_CONNECTED /\
   env_incoming e = None /\ ifttt_do_trigger s = false /\
   process_web e s
   = set_processing_web false (set_client no_WiFiClient (set_processing_web true s))).
Proof.
  intros Hs. destruct (web_enabled e s) eqn:Hen.
  - right. rewrite (process_web_enabled e s Hen). unfold web_switch. simpl. rewrite Hs.
    destruct (Z.eqb_spec (env_wifi_status e) WL_CONNECTED) as [Hc|Hc]; simpl.
    + right. destruct (env_incoming e) as [c|] eqn:Hin.
      * left. repeat split; [exact Hc|]. by exists c.
      * right. destruct (ifttt_do_trigger s) eqn:Htr.
        -- left. by repeat split.
        -- right. by repeat split.
    + left. by repeat split.
  - left. split; [reflexivity|by apply process_web_disabled].
Qed.

Lemma process_web_processing_request (e : env) (s : web) :
  web_status s = WEB_PROCESSING_REQUEST -> delayed_response s = true ->
  (still_waiting s e = true /\ process_web e s = set_processing_web false s) \/
  (still_waiting s e = false /\
   process_web e s
   = set_processing_web false
       (generate_response RSP_STATUS
          (set_delayed_response false (set_processing_web true s)))).
Proof.
  intros Hs Hd. unfold still_waiting. destruct (web_enabled e s) eqn:Hen; simpl.
  - rewrite (process_web_enabled e s Hen). unfold web_switch. simpl. rewrite Hs, Hd. simpl.
    destruct (delayed_sendtime s <? env_millis e); simpl; [by right|by left].
  - left. split; [reflexivity|by apply process_web_disabled].
Qed.

Lemma step_events_app (e : env) (s : web) (evs : list event) :
  trace (process_web e s) = trace s ++ evs -> step_events e s = evs.
Proof. intros H. unfold step_events. rewrite H. apply drop_app_length. Qed.

Lemma process_client_request_events (m : Z) (s : web) :
  exists evs, trace (process_client_request m s) = trace s ++ evs /\
              forall ev, In ev evs -> exists r, ev = sent_response r.
Proof.
  destruct (process_client_request_link m s) as (_ & [(_ & Ht)|(r & _ & _ & Ht)]).
  - exists []. rewrite app_nil_r. split; [exact Ht|]. intros ev [].
  - exists [sent_response r]. split; [exact Ht|].
    intros ev [<-|[]]. by exists r.
Qed.

(** The events of a call, by the state of the machine it finds. *)
Lemma step_events_cases (e : env) (s : web) :
  match web_status s with
  | WEB_NOT_CONNECTED =>
      step_events e s = [] \/
      (step_events e s = [WiFi_begin] /\ next_connect_time s <= env_now e /\
       web_enabled e s = true)
  | WEB_AWAITING_CONNECTION =>
      step_events e s = [] \/ step_events e s = [server_begin] \/
      (step_events e s = [wifi_reset] /\ connect_fails e s = true /\
       MAX_CONNECT_ATTEMPTS <= connect_attempts s)
  | WEB_AWAITING_CLIENT =>
      step_events e s = [] \/ step_events e s = [wifi_reset] \/
      (env_incoming e <> None /\
       forall ev, In ev (step_events e s) -> exists r, ev = sent_response r) \/
      (env_incoming e = None /\ ifttt_do_trigger s = true /\
       env_wifi_status e = WL_CONNECTED /\
       (step_events e s
        = [log_event EV_IFTTT_SENDING; ifttt_post; log_event EV_IFTTT_SENT] \/
        step_events e s = [log_event EV_IFTTT_SENDING; log_event EV_IFTTT_FAILED]))
  | WEB_PROCESSING_REQUEST =>
      forall ev, In ev (step_events e s) ->
                 ev = assertion_failed \/ ev = sent_response RSP_STATUS
  end.
Proof.
  destruct (web_status s) eqn:Hs.
  - destruct (process_web_not_connected e s Hs) as [(Hp & _)|(Hen & Hle & Hp)].
    + left. apply step_events_app. rewrite Hp. simpl. by rewrite app_nil_r.
    + right. split; [|by split]. apply step_events_app. by rewrite Hp.
  - destruct (process_web_awaiting_connection e s Hs)
      as [(Hp & _)|[(_ & Hp)|[(_ & _ & Hp)|(Hf & Hmax & Hp)]]].
    + left. apply step_events_app. rewrite Hp. simpl. by rewrite app_nil_r.
    + right; left. apply step_events_app. by rewrite Hp.
    + left. apply step_events_app. rewrite Hp. simpl. by rewrite app_nil_r.
    + right; right. split; [|by split]. apply step_events_app. by rewrite Hp.
  - destruct (process_web_awaiting_client e s Hs)
      as [(_ & Hp)|[(_ & _ & Hp)|[(_ & _ & c & Hin & Hp)|
          [(_ & Hc & Hin & Htr & Hp)|(_ & _ & _ & _ & Hp)]]]].
    + left. apply step_events_app. rewrite Hp. simpl. by rewrite app_nil_r.
    + right; left. apply step_events_app. by rewrite Hp.
    + right; right; left. split; [by rewrite Hin|].
      destruct (process_client_request_events (env_millis e)
                  (set_web_status WEB_PROCESSING_REQUEST
                     (set_client c (set_processing_web true s)))) as (evs & Ht & Hev).
      rewrite (step_events_app e s evs); [exact Hev|].
      rewrite Hp. simpl. exact Ht.
    + right; right; right. repeat split; try assumption.
      destruct (env_ifttt_connect e); [left|right];
        apply step_events_app; rewrite Hp; unfold ifttt_send_trigger; simpl;
        by rewrite <- ?app_assoc.
    + left. apply step_events_app. rewrite Hp. simpl. by rewrite app_nil_r.
  - intros ev. unfold step_events, process_web.
    destruct (web_enabled e s); simpl;
      [|rewrite drop_all; intros []].
    unfold web_switch. simpl. rewrite Hs.
    destruct (delayed_response s); simpl;
      destruct (_ <? _); simpl;
      rewrite ?drop_all, <- ?app_assoc, ?drop_app_length; simpl;
      intuition (subst; auto).
Qed.

(** ** Lemmas: runs *)

Arguments process_web : simpl never.
Arguments process_client_request : simpl never.

Lemma run_app (es1 es2 : list env) (s : web) :
  run (es1 ++ es2) s = run es2 (run es1 s).
Proof. revert s. induction es1 as [|e es1 IH]; intros s; simpl; [reflexivity|apply IH]. Qed.

Lemma failures_app (es1 es2 : list env) (s : web) :
  failures (es1 ++ es2) s = (failures es1 s + failures es2 (run es1 s))%nat.
Proof.
  revert s. induction es1 as [|e es1 IH]; intros s; simpl; [reflexivity|].
  rewrite IH. lia.
Qed.

Lemma no_success_app (es1 es2 : list env) (s : web) :
  no_success (es1 ++ es2) s = no_success es1 s && no_success es2 (run es1 s).
Proof.
  revert s. induction es1 as [|e es1 IH]; intros s; simpl; [reflexivity|].
  rewrite IH. by rewrite andb_assoc.
Qed.

Lemma resets_in_app (t1 t2 : list event) :
  resets_in (t1 ++ t2) = (resets_in t1 + resets_in t2)%nat.
Proof. unfold resets_in. by rewrite List.filter_app, length_app. Qed.

(** A failing call: back to WEB_NOT_CONNECTED with the time of the next try. *)
Lemma connect_fails_effect (e : env) (s : web) :
  connect_fails e s = true ->
  web_status (process_web e s) = WEB_NOT_CONNECTED /\
  next_connect_time (process_web e s) = wrap_ulong (env_now e + CONNECT_DELAY_SECS).
Proof.
  intros Hf.
  assert (Hs : web_status s = WEB_AWAITING_CONNECTION).
  { unfold connect_fails, awaiting_connection in Hf.
    destruct (web_status s); try reflexivity;
      by rewrite andb_false_r in Hf. }
  destruct (process_web_awaiting_connection e s Hs)
    as [(_ & Hf' & _)|[(Hsucc & _)|[(_ & _ & Hp)|(_ & _ & Hp)]]].
  - congruence.
  - unfold connect_fails, connect_succeeds, association_failed in *.
    destruct (env_wifi_status e =? WL_CONNECTED); simpl in *;
      rewrite ?andb_false_r in *; congruence.
  - by rewrite Hp.
  - by rewrite Hp.
Qed.

Lemma attempts_step (s0 s : web) (f : Z) (e : env) :
  attempts_invariant s0 s f -> 0 <= f ->
  connect_succeeds e s = false ->
  f + (if connect_fails e s then 1 else 0) < MAX_CONNECT_ATTEMPTS ->
  attempts_invariant s0 (process_web e s) (f + (if connect_fails e s then 1 else 0)).
Proof.
  unfold attempts_invariant, MAX_CONNECT_ATTEMPTS.
  intros (Hr & Ht & [(Hs & Ha)|(Hs & Ha)]) Hf0 Hns Hlt.
  - assert (Hnf : connect_fails e s = false).
    { unfold connect_fails, awaiting_connection. rewrite Hs.
      by rewrite andb_false_r. }
    rewrite Hnf in *. rewrite Z.add_0_r.
    destruct (process_web_not_connected e s Hs) as [(Hp & _)|(_ & _ & Hp)];
      rewrite Hp; simpl.
    + repeat split; try assumption. by left.
    + rewrite resets_in_app. simpl. rewrite Nat.add_0_r.
      repeat split; try assumption. right. split; [reflexivity|].
      rewrite Ha. unfold wrap_int, wrap_long. rewrite Z.mod_small; lia.
  - destruct (process_web_awaiting_connection e s Hs)
      as [(Hp & Hnf & _)|[(Hsucc & _)|[(Hfl & Hlt' & Hp)|(Hfl & Hge & Hp)]]].
    + rewrite Hnf, Z.add_0_r, Hp. simpl. repeat split; try assumption. by right.
    + congruence.
    + rewrite Hfl, Hp. simpl. repeat split; try assumption. by left.
    + rewrite Hfl in Hlt. unfold MAX_CONNECT_ATTEMPTS in Hge. lia.
Qed.

Lemma attempts_run (s0 : web) (es : list env) :
  forall (s : web) (f : Z),
    attempts_invariant s0 s f -> 0 <= f ->
    no_success es s = true ->
    f + Z.of_nat (failures es s) < MAX_CONNECT_ATTEMPTS ->
    attempts_invariant s0 (run es s) (f + Z.of_nat (failures es s)).
Proof.
  induction es as [|e es IH]; intros s f Hinv Hf Hns Hlt; simpl in *.
  - by rewrite Z.add_0_r.
  - apply andb_true_iff in Hns as [Hns1 Hns2]. apply negb_true_iff in Hns1.
    set (d := if connect_fails e s then 1 else 0) in *.
    assert (Hd : Z.of_nat ((if connect_fails e s then 1 else 0)
                            + failures es (process_web e s))
                 = d + Z.of_nat (failures es (process_web e s))).
    { subst d. destruct (connect_fails e s); lia. }
    rewrite Hd in *.
    assert (Hd0 : 0 <= d) by (subst d; destruct (connect_fails e s); lia).
    rewrite Z.add_assoc. apply IH; try assumption; try lia.
    apply attempts_step; try assumption. lia.
Qed.

Lemma stays_not_connected_frame (es : list env) :
  forall s, web_status s = WEB_NOT_CONNECTED ->
    stays_not_connected es s ->
    web_status (run es s) = WEB_NOT_CONNECTED /\
    next_connect_time (run es s) = next_connect_time s.
Proof.
  induction es as [|e es IH]; intros s Hs Hstay;
    cbn [stays_not_connected run] in *; [by split|].
  destruct Hstay as [Hs' Hstay].
  destruct (IH _ Hs' Hstay) as [H1 H2]. split; [exact H1|].
  rewrite H2.
  destruct (process_web_not_connected e s Hs) as [(Hp & _)|(_ & _ & Hp)].
  - by rewrite Hp.
  - rewrite Hp in Hs'. discriminate.
Qed.

Lemma ifttt_send_trigger_status (b : bool) (s : web) :
  web_status (ifttt_send_trigger b s) = web_status s.
Proof. unfold ifttt_send_trigger. by destruct b. Qed.

(** A call that finds a request in progress leaves the machine there or has
    it wait for the next client; the time of the next try stays. *)
Lemma process_web_in_request (e : env) (s : web) :
  web_status s = WEB_PROCESSING_REQUEST ->
  (web_status (process_web e s) = WEB_PROCESSING_REQUEST \/
   web_status (process_web e s) = WEB_AWAITING_CLIENT) /\
  next_connect_time (process_web e s) = next_connect_time s.
Proof.
  intros Hs. unfold process_web. destruct (web_enabled e s); simpl; [|by split; [left|]].
  unfold web_switch. simpl. rewrite Hs.
  destruct (delayed_response s); simpl; destruct (_ <? _); simpl;
    by (split; [first [by left|by right]|]).
Qed.

(* ===================================================================== *)
(** ** The connectivity state machine *)

(** C6.  From WEB_NOT_CONNECTED with no attempt counted, a run in which no
    call finds the association made and whose last call is the
    MAX_CONNECT_ATTEMPTS-th to find an attempt failed: [wifi_resets] has been
    incremented once and [wifi_reset()] called once, [connect_attempts] is
    zero again, the machine is in WEB_NOT_CONNECTED with [next_connect_time]
    the time of that call plus CONNECT_DELAY_SECS; before that last call no
    reset was made; and every call that finds an attempt failed sets
    [next_connect_time] so and returns to WEB_NOT_CONNECTED. *)
Theorem C6_reset_after_max_connect_attempts :
  forall (es : list env) (e : env) (s0 : web),
    web_status s0 = WEB_NOT_CONNECTED ->
    connect_attempts s0 = 0 ->
    can_increment (wifi_resets s0) ->
    no_success (es ++ [e]) s0 = true ->
    connect_fails e (run es s0) = true ->
    failures (es ++ [e]) s0 = Z.to_nat MAX_CONNECT_ATTEMPTS ->
    (wifi_resets (run (es ++ [e]) s0) = wifi_resets s0 + 1 /\
     resets_in (trace (run (es ++ [e]) s0)) = S (resets_in (trace s0)) /\
     connect_attempts (run (es ++ [e]) s0) = 0 /\
     web_status (run (es ++ [e]) s0) = WEB_NOT_CONNECTED /\
     next_connect_time (run (es ++ [e]) s0)
     = wrap_ulong (env_now e + CONNECT_DELAY_SECS)) /\
    (forall es1 es2, es = es1 ++ es2 ->
       wifi_resets (run es1 s0) = wifi_resets s0 /\
       resets_in (trace (run es1 s0)) = resets_in (trace s0)) /\
    (forall e1 s1, connect_fails e1 s1 = true ->
       web_status (process_web e1 s1) = WEB_NOT_CONNECTED /\
       next_connect_time (process_web e1 s1)
       = wrap_ulong (env_now e1 + CONNECT_DELAY_SECS)).
Proof.
  intros es e s0 Hs0 Ha0 Hinc Hns Hfail Hcount.
  rewrite no_success_app in Hns. apply andb_true_iff in Hns as [Hns _].
  rewrite failures_app in Hcount. cbn [failures] in Hcount.
  rewrite Hfail in Hcount. unfold MAX_CONNECT_ATTEMPTS in Hcount.
  assert (Hes : failures es s0 = 2%nat) by (simpl in Hcount; lia).
  assert (Hinv0 : attempts_invariant s0 s0 0).
  { unfold attempts_invariant. repeat split. by left. }
  split; [|split].
  - pose proof (attempts_run s0 es s0 0 Hinv0 (Z.le_refl 0) Hns) as Hinv.
    rewrite Hes in Hinv. specialize (Hinv ltac:(unfold MAX_CONNECT_ATTEMPTS; lia)).
    destruct Hinv as (Hr & Ht & Hst).
    assert (Hs : web_status (run es s0) = WEB_AWAITING_CONNECTION).
    { unfold connect_fails, awaiting_connection in Hfail.
      destruct (web_status (run es s0)); try reflexivity;
        by rewrite andb_false_r in Hfail. }
    destruct Hst as [(Hs' & _)|(_ & Ha)]; [congruence|].
    rewrite run_app. cbn [run].
    destruct (process_web_awaiting_connection e (run es s0) Hs)
      as [(_ & Hf' & _)|[(Hsucc & _)|[(_ & Hlt & _)|(_ & _ & Hp)]]].
    + congruence.
    + unfold connect_fails, connect_succeeds, association_failed in *.
      destruct (env_wifi_status e =? WL_CONNECTED); simpl in *;
        rewrite ?andb_false_r in *; congruence.
    + unfold MAX_CONNECT_ATTEMPTS in Hlt. lia.
    + rewrite Hp. simpl. rewrite resets_in_app, Hr, Ht. simpl.
      repeat split; [by apply wrap_long_incr|unfold resets_in; simpl; lia].
  - intros es1 es2 ->.
    rewrite no_success_app in Hns. apply andb_true_iff in Hns as [Hns1 _].
    rewrite failures_app in Hes.
    pose proof (attempts_run s0 es1 s0 0 Hinv0 (Z.le_refl 0) Hns1
                  ltac:(unfold MAX_CONNECT_ATTEMPTS; lia)) as (Hr & Ht & _).
    by split.
  - intros e1 s1. apply connect_fails_effect.
Qed.

(** C7.  A call moves the machine into WEB_AWAITING_CONNECTION only from
    WEB_NOT_CONNECTED and only when [now() >= next_connect_time], and
    [WiFi.begin] is called in no other call; a call that moves the machine
    into WEB_NOT_CONNECTED (the attempt failed, or the network was lost) sets
    [next_connect_time] to [now()] plus CONNECT_DELAY_SECS; so the next
    attempt after such a call is made at a time that is at least that. *)
Theorem C7_attempts_wait_for_next_connect_time :
  (forall e s,
     web_status s <> WEB_AWAITING_CONNECTION ->
     web_status (process_web e s) = WEB_AWAITING_CONNECTION ->
     web_status s = WEB_NOT_CONNECTED /\ next_connect_time s <= env_now e) /\
  (forall e s,
     In WiFi_begin (step_events e s) ->
     web_status s = WEB_NOT_CONNECTED /\ next_connect_time s <= env_now e /\
     web_status (process_web e s) = WEB_AWAITING_CONNECTION) /\
  (forall e s,
     web_status s <> WEB_NOT_CONNECTED ->
     web_status (process_web e s) = WEB_NOT_CONNECTED ->
     next_connect_time (process_web e s)
     = wrap_ulong (env_now e + CONNECT_DELAY_SECS) /\
     (connect_fails e s = true \/
      (web_status s = WEB_AWAITING_CLIENT /\ env_wifi_status e <> WL_CONNECTED))) /\
  (forall e1 s es e2,
     web_status s <> WEB_NOT_CONNECTED ->
     web_status (process_web e1 s) = WEB_NOT_CONNECTED ->
     stays_not_connected es (process_web e1 s) ->
     web_status (process_web e2 (run es (process_web e1 s))) = WEB_AWAITING_CONNECTION ->
     wrap_ulong (env_now e1 + CONNECT_DELAY_SECS) <= env_now e2).
Proof.
  assert (Hinto : forall e s,
     web_status s <> WEB_NOT_CONNECTED ->
     web_status (process_web e s) = WEB_NOT_CONNECTED ->
     next_connect_time (process_web e s)
     = wrap_ulong (env_now e + CONNECT_DELAY_SECS) /\
     (connect_fails e s = true \/
      (web_status s = WEB_AWAITING_CLIENT /\ env_wifi_status e <> WL_CONNECTED))).
  { intros e s Hne Hs'. destruct (web_status s) eqn:Hs; [done| | |].
    - destruct (process_web_awaiting_connection e s Hs)
        as [(Hp & _)|[(_ & Hp)|[(Hf & _ & Hp)|(Hf & _ & Hp)]]];
        rewrite Hp in *; simpl in *; try congruence; by (split; [|left]).
    - destruct (process_web_awaiting_client e s Hs)
        as [(_ & Hp)|[(_ & Hc & Hp)|[(_ & _ & c & _ & Hp)|
            [(_ & _ & _ & _ & Hp)|(_ & _ & _ & _ & Hp)]]]];
        rewrite Hp in *; simpl in *; rewrite ?ifttt_send_trigger_status in *;
        simpl in *; try congruence.
      + split; [reflexivity|]. right. by split.
      + destruct (process_client_request_link (env_millis e)
                    (set_web_status WEB_PROCESSING_REQUEST
                       (set_client c (set_processing_web true s))))
          as (_ & [(Hw & _)|(r & _ & Hw & _)]); simpl in Hw; congruence.
    - destruct (process_web_in_request e s Hs) as ([Hw|Hw] & _); congruence. }
  split; [|split; [|split]].
  - intros e s Hne Hs'. destruct (web_status s) eqn:Hs; [| done | |].
    + destruct (process_web_not_connected e s Hs) as [(Hp & _)|(_ & Hle & _)].
      * rewrite Hp in Hs'. simpl in Hs'. congruence.
      * by split.
    + destruct (process_web_awaiting_client e s Hs)
        as [(_ & Hp)|[(_ & Hc & Hp)|[(_ & _ & c & _ & Hp)|
            [(_ & _ & _ & _ & Hp)|(_ & _ & _ & _ & Hp)]]]];
        rewrite Hp in *; simpl in *; rewrite ?ifttt_send_trigger_status in *;
        simpl in *; try congruence.
      destruct (process_client_request_link (env_millis e)
                  (set_web_status WEB_PROCESSING_REQUEST
                     (set_client c (set_processing_web true s))))
        as (_ & [(Hw & _)|(r & _ & Hw & _)]); simpl in Hw; congruence.
    + destruct (process_web_in_request e s Hs) as ([Hw|Hw] & _); congruence.
  - intros e s Hin. pose proof (step_events_cases e s) as Hc.
    destruct (web_status s) eqn:Hs.
    + destruct Hc as [Hc|(Hc & Hle & Hen)]; [rewrite Hc in Hin; destruct Hin|].
      split; [reflexivity|]. split; [exact Hle|].
      destruct (process_web_not_connected e s Hs) as [(_ & [Hd|Hlt])|(_ & _ & Hp)];
        [congruence|lia|by rewrite Hp].
    + destruct Hc as [Hc|[Hc|(Hc & _)]]; rewrite Hc in Hin;
        simpl in Hin; intuition discriminate.
    + destruct Hc as [Hc|[Hc|[(_ & Hc)|(_ & _ & _ & [Hc|Hc])]]];
        try (rewrite Hc in Hin; simpl in Hin; intuition discriminate).
      destruct (Hc _ Hin) as [r Hr]. discriminate.
    + destruct (Hc _ Hin); discriminate.
  - exact Hinto.
  - intros e1 s es e2 Hne Hs1 Hstay Hs2.
    destruct (Hinto e1 s Hne Hs1) as [Hnext _].
    destruct (stays_not_connected_frame es _ Hs1 Hstay) as [Hs Hn].
    rewrite <- Hnext, <- Hn.
    destruct (process_web_not_connected e2 _ Hs) as [(Hp & _)|(_ & Hle & _)];
      [|exact Hle].
    rewrite Hp in Hs2. simpl in Hs2. congruence.
Qed.

(** C8.  In WEB_AWAITING_CLIENT the trigger to IFTTT is sent only in a call
    in which [server.available()] gives no client (and the trigger flag is
    set); a call in which the network is up and a client has connected runs
    [process_client_request] for it, calls nothing of the IFTTT path and
    leaves the trigger flag as it was. *)
Theorem C8_client_before_trigger :
  forall e s,
    web_status s = WEB_AWAITING_CLIENT ->
    ((In (log_event EV_IFTTT_SENDING) (step_events e s) \/
      In ifttt_post (step_events e s)) ->
     env_incoming e = None /\ ifttt_do_trigger s = true) /\
    (forall c,
       env_incoming e = Some c ->
       web_enabled e s = true ->
       env_wifi_status e = WL_CONNECTED ->
       process_web e s
       = set_processing_web false
           (process_client_request (env_millis e)
              (set_web_status WEB_PROCESSING_REQUEST
                 (set_client c (set_processing_web true s)))) /\
       (forall ev, In ev (step_events e s) -> exists r, ev = sent_response r) /\
       ifttt_do_trigger (process_web e s) = ifttt_do_trigger s).
Proof.
  intros e s Hs. split.
  - intros Hin. pose proof (step_events_cases e s) as Hc. rewrite Hs in Hc.
    destruct Hc as [Hc|[Hc|[(_ & Hc)|(Hnone & Htr & _)]]].
    + rewrite Hc in Hin. simpl in Hin. tauto.
    + rewrite Hc in Hin. simpl in Hin. intuition discriminate.
    + destruct Hin as [Hin|Hin]; destruct (Hc _ Hin) as [r Hr]; discriminate.
    + by split.
  - intros c Hin Hen Hc.
    destruct (process_web_awaiting_client e s Hs)
      as [(Hd & _)|[(_ & Hnc & _)|[(_ & _ & c' & Hin' & Hp)|
          [(_ & _ & Hnone & _)|(_ & _ & Hnone & _)]]]]; try congruence.
    assert (c' = c) as -> by congruence.
    split; [exact Hp|]. split.
    + pose proof (step_events_cases e s) as Hcs. rewrite Hs in Hcs.
      destruct (process_client_request_events (env_millis e)
                  (set_web_status WEB_PROCESSING_REQUEST
                     (set_client c (set_processing_web true s)))) as (evs & Ht & Hev).
      rewrite (step_events_app e s evs); [exact Hev|].
      rewrite Hp. simpl. exact Ht.
    + rewrite Hp.
      destruct (process_client_request_link (env_millis e)
                  (set_web_status WEB_PROCESSING_REQUEST
                     (set_client c (set_processing_web true s)))) as (Hl & _).
      unfold link in Hl. simpl in *. congruence.
Qed.

(* ===================================================================== *)
(** ** Lemmas: the visitor table under stores *)

Lemma client_at_store (tbl : list client_t) (n j : Z) (c : client_t) :
  client_at (store_client tbl n c) j
  = if (j =? n) && (0 <=? n) && (n <? Z.of_nat (length tbl))
    then c else client_at tbl j.
Proof.
  unfold client_at, store_client.
  destruct (Z.leb_spec 0 n) as [Hn|Hn]; simpl.
  - destruct (Z.eqb_spec j n) as [->|Hne]; simpl.
    + destruct (Z.leb_spec 0 n); [|lia].
      destruct (Z.ltb_spec n (Z.of_nat (length tbl))) as [Hlt|Hge].
      * rewrite list_lookup_insert_eq by lia. reflexivity.
      * rewrite list_insert_ge by lia. reflexivity.
    + destruct (Z.leb_spec 0 j) as [Hj|Hj]; [|reflexivity].
      rewrite list_lookup_insert_ne by lia. reflexivity.
  - rewrite andb_false_r. reflexivity.
Qed.

Lemma store_client_length (tbl : list client_t) (n : Z) (c : client_t) :
  length (store_client tbl n c) = length tbl.
Proof. unfold store_client. destruct (0 <=? n); [apply length_insert|reflexivity]. Qed.










(** [process_client_request] step by step, with the names of the
    vocabulary. *)
Lemma process_client_request_unfold (m : Z) (s : web) :
  process_client_request m s
  = let s1 := set_inbuf (request_body s)
                (set_current_client (peer_slot s)
                   (set_clients (snd (add_IP_address (remoteIP (client s)) (clients s))) s)) in
    let s2 := count_visit (request_type_of (inbuf (client s))) s1 in
    let p := choose_response m (request_type_of (inbuf (client s))) s2 in
    respond (snd p) (fst p).
Proof.
  unfold process_client_request, request_body, body_of, peer_slot, request_type_of.
  destruct (add_IP_address _ _) as [ndx tbl].
  destruct (while_get_request_line header_line _ _) as [request_type input].
  simpl. by destruct (choose_response _ _ _).
Qed.

(* ===================================================================== *)
(** ** The HTTP engine *)


(** The loop over the body of a pushbutton request, by the password flag of
    the peer: each line that names a button queues it, or none does. *)
Lemma fold_pushbutton_line (m : Z) (lines : list string) :
  forall (s : web) (r : response_type_t),
    fold_left (fun a line => pushbutton_line m line a) lines (s, r)
    = if gave_password (client_at (clients s) (current_client s))
      then (fold_left (fun s b => queue_button_push m b s)
              (omap button_of_line lines) s,
            match omap button_of_line lines with [] => r | _ => RSP_NONE end)
      else (s, match omap button_of_line lines with [] => r | _ => RSP_ASKPASS end).
Proof.
  induction lines as [|line lines IH]; intros s r.
  - simpl. by destruct (gave_password _).
  - cbn [fold_left].
    change (omap button_of_line (line :: lines))
      with (match button_of_line line with
            | Some b => b :: omap button_of_line lines
            | None => omap button_of_line lines
            end).
    destruct (button_of_line line) as [b|] eqn:Hb.
    + replace (pushbutton_line m line (s, r))
        with (if gave_password (client_at (clients s) (current_client s))
              then (queue_button_push m b s, RSP_NONE)
              else (s, RSP_ASKPASS))
        by (unfold pushbutton_line; by rewrite Hb).
      destruct (gave_password (client_at (clients s) (current_client s))) eqn:Hgp.
      * rewrite IH. simpl. rewrite Hgp. by destruct (omap button_of_line lines).
      * rewrite IH, Hgp. by destruct (omap button_of_line lines).
    + replace (pushbutton_line m line (s, r)) with (s, r)
        by (unfold pushbutton_line; by rewrite Hb).
      apply IH.
Qed.

Lemma counted_gave_password (s : web) :
  gave_password (client_at (clients (counted s)) (current_client (counted s)))
  = gave_password (peer_record s).
Proof.
  unfold counted, peer_record. simpl. rewrite client_at_store, Z.eqb_refl. simpl.
  by destruct (_ && _).
Qed.

Lemma process_pushbutton (m : Z) (s : web) :
  request_type_of (inbuf (client s)) = REQ_PUSHBUTTON ->
  exists rest,
    process_client_request m s
    = if 2 <? Z.of_nat (String.length (request_body s)) then
        if gave_password (peer_record s) then
          respond (match body_buttons s with [] => RSP_UNKNOWN | _ => RSP_NONE end)
            (set_inbuf rest
               (fold_left (fun s b => queue_button_push m b s) (body_buttons s)
                  (counted s)))
        else
          respond (match body_buttons s with [] => RSP_UNKNOWN | _ => RSP_ASKPASS end)
            (set_inbuf rest (counted s))
      else respond RSP_UNKNOWN (counted s).
Proof.
  intros Hrt. rewrite process_client_request_unfold, Hrt. cbv zeta.
  change (count_visit REQ_PUSHBUTTON _) with (counted s).
  unfold choose_response.
  change (available (client (counted s))) with (Z.of_nat (String.length (request_body s))).
  change (inbuf (client (counted s))) with (request_body s).
  destruct (2 <? Z.of_nat (String.length (request_body s))); [|by exists ""].
  pose proof (while_get_request_line_fold (pushbutton_line m) (request_body s)
                (counted s, RSP_UNKNOWN)) as Hfold.
  destruct (while_get_request_line (pushbutton_line m) _ _) as [acc rest].
  exists rest. simpl in Hfold. cbn [fst snd]. rewrite Hfold, fold_pushbutton_line.
  rewrite counted_gave_password. fold (body_lines s). fold (body_buttons s).
  by destruct (gave_password (peer_record s)).
Qed.

(** Calls that find the delayed response still waiting change nothing. *)
Lemma run_still_waiting (es : list env) (s : web) :
  web_status s = WEB_PROCESSING_REQUEST -> delayed_response s = true ->
  processing_web s = false ->
  forallb (still_waiting s) es = true ->
  run es s = s.
Proof.
  intros Hs Hd Hp. induction es as [|e es IH]; simpl; [reflexivity|].
  intros Hall. apply andb_true_iff in Hall as [He Hall].
  destruct (process_web_processing_request e s Hs Hd) as [(_ & Heq)|(Hw & _)];
    [|congruence].
  assert (Hsame : set_processing_web false s = s).
  { destruct s. simpl in *. by subst. }
  rewrite Heq, Hsame. by apply IH.
Qed.

(** C1 (amended).  A request whose header makes it a pushbutton request:
    - from a peer whose record has [gave_password = false]: no button is
      queued and the delayed response is not armed; the response is the
      password form if more than two bytes of body are there and a line of
      the body names a button, and the page for an unknown request if not;
    - from a peer whose record has [gave_password = true], with more than two
      bytes of body of which exactly one line names a button [i] in
      [0 .. NUM_BUTTONS-1]: that button is queued and no other, no response is
      sent, the machine stays where it is, and the delayed response is armed
      for [millis() + DELAYED_RSP_MSEC];
    and for a delayed response that is armed in WEB_PROCESSING_REQUEST: calls
    of [process_web] that are switched off or come with [millis()] not after
    the time to send change nothing, and the first other call sends the status
    page, disarms and returns to WEB_AWAITING_CLIENT. *)
Theorem C1_pushbutton_needs_password :
  (forall (m : Z) (s : web),
     request_type_of (inbuf (client s)) = REQ_PUSHBUTTON ->
     gave_password (peer_record s) = false ->
     pending (process_client_request m s) = pending s /\
     ((2 < Z.of_nat (String.length (request_body s)) /\ body_buttons s <> []) ->
      trace (process_client_request m s) = trace s ++ [sent_response RSP_ASKPASS]) /\
     ((Z.of_nat (String.length (request_body s)) <= 2 \/ body_buttons s = []) ->
      trace (process_client_request m s) = trace s ++ [sent_response RSP_UNKNOWN])) /\
  (forall (m : Z) (s : web) (i : Z),
     request_type_of (inbuf (client s)) = REQ_PUSHBUTTON ->
     gave_password (peer_record s) = true ->
     2 < Z.of_nat (String.length (request_body s)) ->
     body_buttons s = [i] ->
     0 <= i <= NUM_BUTTONS - 1 ->
     button_webpushed (process_client_request m s)
     = <[Z.to_nat i := true]> (button_webpushed s) /\
     delayed_response (process_client_request m s) = true /\
     delayed_sendtime (process_client_request m s) = wrap_ulong (m + DELAYED_RSP_MSEC) /\
     trace (process_client_request m s) = trace s /\
     web_status (process_client_request m s) = web_status s) /\
  (forall (s : web) (es : list env) (e : env),
     web_status s = WEB_PROCESSING_REQUEST ->
     delayed_response s = true ->
     processing_web s = false ->
     forallb (still_waiting s) es = true ->
     still_waiting s e = false ->
     run es s = s /\
     trace (run (es ++ [e]) s) = trace s ++ [sent_response RSP_STATUS] /\
     delayed_response (run (es ++ [e]) s) = false /\
     web_status (run (es ++ [e]) s) = WEB_AWAITING_CLIENT).
Proof.
  split; [|split].
  - intros m s Hrt Hgp. destruct (process_pushbutton m s Hrt) as [rest Hp].
    rewrite Hp, Hgp. clear Hp.
    destruct (Z.ltb_spec 2 (Z.of_nat (String.length (request_body s)))) as [Hlen|Hlen].
    + destruct (body_buttons s) as [|b bs] eqn:Hb; simpl.
      * split; [reflexivity|]. split; [intros [_ Hne]; by destruct Hne|reflexivity].
      * split; [reflexivity|]. split; [reflexivity|intros [?|?]; [lia|discriminate]].
    + simpl. split; [reflexivity|]. split; [intros [? _]; lia|reflexivity].
  - intros m s i Hrt Hgp Hlen Hb Hi. destruct (process_pushbutton m s Hrt) as [rest Hp].
    rewrite Hp, Hgp, Hb. clear Hp.
    destruct (Z.ltb_spec 2 (Z.of_nat (String.length (request_body s)))); [|lia].
    simpl. unfold push_button. destruct (Z.leb_spec 0 i); [|lia]. by repeat split.
  - intros s es e Hs Hd Hpw Hall He.
    pose proof (run_still_waiting es s Hs Hd Hpw Hall) as Hrun.
    split; [exact Hrun|]. rewrite run_app, Hrun. cbn [run].
    destruct (process_web_processing_request e s Hs Hd) as [(Hw & _)|(_ & Heq)];
      [congruence|].
    rewrite Heq. by repeat split.
Qed.

(** Setting the password flag twice is setting it once. *)
Lemma set_gave_password_twice (s : web) :
  set_gave_password (set_gave_password s) = set_gave_password s.
Proof.
  unfold set_gave_password. simpl.
  set (tbl := clients s). set (n := current_client s).
  assert (Hsame :
    store_client (store_client tbl n
         {| ip_address := ip_address (client_at tbl n);
            count := count (client_at tbl n); gave_password := true |}) n
      {| ip_address :=
           ip_address (client_at (store_client tbl n
             {| ip_address := ip_address (client_at tbl n);
                count := count (client_at tbl n); gave_password := true |}) n);
         count :=
           count (client_at (store_client tbl n
             {| ip_address := ip_address (client_at tbl n);
                count := count (client_at tbl n); gave_password := true |}) n);
         gave_password := true |}
    = store_client tbl n
        {| ip_address := ip_address (client_at tbl n);
           count := count (client_at tbl n); gave_password := true |}).
  { rewrite client_at_store, Z.eqb_refl. simpl.
    destruct (Z.leb_spec 0 n) as [Hn|Hn]; simpl.
    - destruct (Z.ltb_spec n (Z.of_nat (length tbl))) as [Hlt|Hge]; simpl.
      + unfold store_client. destruct (Z.leb_spec 0 n); [|lia].
        apply list_insert_insert_eq.
      + unfold store_client. destruct (Z.leb_spec 0 n); [|lia].
        rewrite !(list_insert_ge tbl) by lia. reflexivity.
    - unfold store_client. destruct (Z.leb_spec 0 n); [lia|reflexivity]. }
  by rewrite Hsame.
Qed.

(** The loop over the body of a setpass request: the flag is set if some
    line gives the password, and the response is that of the last line. *)
Lemma fold_setpass_line (lines : list string) :
  forall (s : web) (r : response_type_t),
    fold_left (fun a line => setpass_line line a) lines (s, r)
    = (if existsb password_line lines then set_gave_password s else s,
       match last lines with
       | Some line => if password_line line then RSP_STATUS else RSP_ASKPASS
       | None => r
       end).
Proof.
  induction lines as [|line lines IH]; intros s r; [reflexivity|].
  cbn [fold_left existsb].
  replace (setpass_line line (s, r))
    with (if password_line line then (set_gave_password s, RSP_STATUS)
          else (s, RSP_ASKPASS))
    by (unfold setpass_line; by destruct (password_line line)).
  assert (Hlast : forall r' : response_type_t,
    match last (line :: lines) with
    | Some l => if password_line l then RSP_STATUS else RSP_ASKPASS
    | None => r'
    end
    = match last lines with
      | Some l => if password_line l then RSP_STATUS else RSP_ASKPASS
      | None => if password_line line then RSP_STATUS else RSP_ASKPASS
      end).
  { intros r'. destruct lines as [|l2 lines]; [reflexivity|].
    rewrite last_cons_cons.
    destruct (last (l2 :: lines)) eqn:Hl; [reflexivity|].
    apply last_None in Hl. discriminate. }
  rewrite Hlast.
  destruct (password_line line) eqn:Hline; rewrite IH; simpl; f_equal.
  destruct (existsb password_line lines); [apply set_gave_password_twice|reflexivity].
Qed.

Lemma process_setpass (m : Z) (s : web) :
  request_type_of (inbuf (client s)) = REQ_SETPASS ->
  exists rest,
    process_client_request m s
    = respond (match last (body_lines s) with
               | Some line => if password_line line then RSP_STATUS else RSP_ASKPASS
               | None => RSP_UNKNOWN
               end)
        (set_inbuf rest
           (if existsb password_line (body_lines s)
            then set_gave_password (counted s) else counted s)).
Proof.
  intros Hrt. rewrite process_client_request_unfold, Hrt. cbv zeta.
  change (count_visit REQ_SETPASS _) with (counted s).
  unfold choose_response.
  change (inbuf (client (counted s))) with (request_body s).
  pose proof (while_get_request_line_fold setpass_line (request_body s)
                (counted s, RSP_UNKNOWN)) as Hfold.
  destruct (while_get_request_line setpass_line _ _) as [acc rest].
  exists rest. simpl in Hfold. cbn [fst snd]. rewrite Hfold, fold_setpass_line.
  reflexivity.
Qed.

Lemma existsb_last (f : string -> bool) (lines : list string) (line : string) :
  last lines = Some line -> f line = true -> existsb f lines = true.
Proof.
  intros Hlast Hf. apply existsb_exists. exists line. split; [|exact Hf].
  apply list_elem_of_In, last_Some_elem_of, Hlast.
Qed.

(** C5 (amended).  [check_password] is exact string equality with
    ACTION_PASSWORD, and a body line gives the password when [scan_key] finds
    PWD= and what follows passes [check_password].  For a request whose
    header makes it a setpass request: the record of the peer has
    [gave_password = true] afterwards exactly when it had before or some body
    line gives the password; if the last body line gives it, the response is
    the status page; if there are body lines and none gives it, the response
    is the password form; if there is no body line, the response is the page
    for an unknown request. *)
Theorem C5_setpass_checks_password :
  (forall ptr, check_password ptr = true <-> ptr = ACTION_PASSWORD) /\
  (forall line,
     password_line line = true <->
     fst (scan_key (cut_nul line) "PWD=") = true /\
     snd (scan_key (cut_nul line) "PWD=") = ACTION_PASSWORD) /\
  (forall (m : Z) (s : web),
     request_type_of (inbuf (client s)) = REQ_SETPASS ->
     (0 <= peer_slot s < Z.of_nat (length (clients s)) ->
      gave_password (client_at (clients (process_client_request m s)) (peer_slot s))
      = gave_password (peer_record s) || existsb password_line (body_lines s)) /\
     (last_line_matches (body_lines s) = true ->
      trace (process_client_request m s) = trace s ++ [sent_response RSP_STATUS]) /\
     (body_lines s <> [] -> existsb password_line (body_lines s) = false ->
      trace (process_client_request m s) = trace s ++ [sent_response RSP_ASKPASS]) /\
     (body_lines s = [] ->
      trace (process_client_request m s) = trace s ++ [sent_response RSP_UNKNOWN])).
Proof.
  assert (Hcheck : forall ptr, check_password ptr = true <-> ptr = ACTION_PASSWORD).
  { intros ptr. unfold check_password. apply String.eqb_eq. }
  split; [exact Hcheck|]. split.
  - intros line. unfold password_line.
    destruct (scan_key (cut_nul line) "PWD=") as [b ptr]. simpl.
    rewrite andb_true_iff, Hcheck. reflexivity.
  - intros m s Hrt. destruct (process_setpass m s Hrt) as [rest Hp]. rewrite Hp.
    clear Hp. split; [|split; [|split]].
    + intros Hrange.
      destruct (respond_effect
                  (match last (body_lines s) with
                   | Some line => if password_line line then RSP_STATUS else RSP_ASKPASS
                   | None => RSP_UNKNOWN
                   end)
                  (set_inbuf rest
                     (if existsb password_line (body_lines s)
                      then set_gave_password (counted s) else counted s)))
        as (_ & _ & -> & _).
      assert (Hlen : length (snd (add_IP_address (remoteIP (client s)) (clients s)))
                     = length (clients s)).
      { unfold add_IP_address. destruct (scan_clients _ _ _ _ _ _); simpl;
          [reflexivity|apply store_client_length]. }
      pose proof (counted_gave_password s) as Hgp.
      change (current_client (counted s)) with (peer_slot s) in Hgp.
      destruct (existsb password_line (body_lines s)); simpl.
      * rewrite client_at_store, Z.eqb_refl, store_client_length, Hlen. simpl.
        destruct (Z.leb_spec 0 (peer_slot s)); [|lia].
        destruct (Z.ltb_spec (peer_slot s) (Z.of_nat (length (clients s)))); [|lia].
        simpl. by rewrite orb_true_r.
      * rewrite orb_false_r. exact Hgp.
    + unfold last_line_matches. intros Hlast.
      destruct (last (body_lines s)) as [line|]; [|discriminate].
      rewrite Hlast. destruct (existsb _ _); reflexivity.
    + intros Hne Hnone.
      destruct (last (body_lines s)) as [line|] eqn:Hlast.
      * destruct (password_line line) eqn:Hline.
        -- rewrite (existsb_last _ _ _ Hlast Hline) in Hnone. discriminate.
        -- by rewrite Hnone.
      * apply last_None in Hlast. contradiction.
    + intros Hnil. rewrite Hnil. reflexivity.
Qed.

(** ** Runs of the machine *)

Lemma process_web_processing_request_any (e : env) (s : web) :
  web_status s = WEB_PROCESSING_REQUEST ->
  exists s1,
    (s1 = s \/ s1 = emit assertion_failed (set_processing_web true s)) /\
    (process_web e s = set_processing_web false s1 \/
     process_web e s
     = set_processing_web false
         (generate_response RSP_STATUS (set_delayed_response false
                                          (set_processing_web true s1)))).
Proof.
  intros Hs. unfold process_web. destruct (web_enabled e s).
  - unfold web_switch. simpl. rewrite Hs.
    destruct (delayed_response s); simpl.
    + exists s. split; [by left|].
      destruct (delayed_sendtime s <? env_millis e); [by right|by left].
    + exists (emit assertion_failed (set_processing_web true s)). split; [by right|].
      destruct (delayed_sendtime s <? env_millis e); [by right|by left].
  - exists s. split; [by left|by left].
Qed.

Lemma serving_step (e : env) (s : web) :
  serving s = true -> network_up e = true ->
  serving (process_web e s) = true /\
  link_counters (process_web e s) = link_counters s /\
  exists evs, trace (process_web e s) = trace s ++ evs /\
              forallb (fun ev => negb (is_link_event ev)) evs = true.
Proof.
  unfold serving, network_up. intros Hserving Hup. apply Z.eqb_eq in Hup.
  destruct (web_status s) eqn:Hs; try discriminate.
  - destruct (process_web_awaiting_client e s Hs)
      as [(_ & Heq)|[(_ & Hne & _)|[(_ & _ & c & _ & Heq)|[(_ & _ & _ & _ & Heq)|(_ & _ & _ & _ & Heq)]]]];
      [|done| | |]; rewrite Heq.
    + simpl. rewrite Hs. repeat split. exists []. by rewrite app_nil_r.
    + set (s1 := set_web_status WEB_PROCESSING_REQUEST
                   (set_client c (set_processing_web true s))).
      destruct (process_client_request_link (env_millis e) s1) as [Hlink Hcases].
      unfold link in Hlink. simpl in Hlink.
      injection Hlink as Hnct Hca Hwc Hwf Hwd Hwr _ _.
      split; [|split].
      * simpl. by destruct Hcases as [[-> _]|(r & _ & -> & _)].
      * unfold link_counters. simpl. congruence.
      * simpl. destruct Hcases as [[_ ->]|(r & _ & _ & ->)].
        -- exists []. by rewrite app_nil_r.
        -- by exists [sent_response r].
    + unfold ifttt_send_trigger.
      destruct (env_ifttt_connect e); simpl; rewrite Hs; repeat split.
      * exists [log_event EV_IFTTT_SENDING; ifttt_post; log_event EV_IFTTT_SENT].
        by rewrite <- !app_assoc.
      * exists [log_event EV_IFTTT_SENDING; log_event EV_IFTTT_FAILED].
        by rewrite <- !app_assoc.
    + simpl. rewrite Hs. repeat split. exists []. by rewrite app_nil_r.
  - destruct (process_web_processing_request_any e s Hs)
      as (s1 & [-> | ->] & [Heq|Heq]); rewrite Heq; simpl; rewrite ?Hs; repeat split.
    + exists []. by rewrite app_nil_r.
    + by exists [sent_response RSP_STATUS].
    + by exists [assertion_failed].
    + exists [assertion_failed; sent_response RSP_STATUS]. by rewrite <- app_assoc.
Qed.

(** X14.  Once the machine is past the association, it stays there for as
    long as [WiFi.status()] reports the association as made: whatever comes in
    and whatever the clocks say, it waits for clients or answers one, it
    makes no call of [WiFi.begin], [server.begin] or [wifi_reset], and the
    counters and the retry timer of the connectivity machine do not move. *)
Theorem serving_while_network_up (es : list env) :
  forall s : web,
    serving s = true -> forallb network_up es = true ->
    serving (run es s) = true /\
    link_counters (run es s) = link_counters s /\
    exists evs, trace (run es s) = trace s ++ evs /\
                forallb (fun ev => negb (is_link_event ev)) evs = true.
Proof.
  induction es as [|e es IH]; intros s Hs Hup; cbn [run].
  - repeat split; [exact Hs|]. exists []. by rewrite app_nil_r.
  - cbn [forallb] in Hup. apply andb_true_iff in Hup as [He Hup].
    destruct (serving_step e s Hs He) as (Hs1 & Hc1 & evs1 & Ht1 & Hev1).
    destruct (IH (process_web e s) Hs1 Hup) as (Hs2 & Hc2 & evs2 & Ht2 & Hev2).
    split; [exact Hs2|]. split; [congruence|].
    exists (evs1 ++ evs2). split.
    + by rewrite Ht2, Ht1, <- app_assoc.
    + rewrite forallb_app. by rewrite Hev1, Hev2.
Qed.

Lemma visits_step (e : env) (s : web) :
  no_caller e = true -> visits (process_web e s) = visits s.
Proof.
  unfold no_caller. intros Hnone. destruct (env_incoming e) eqn:Hin; [discriminate|].
  destruct (web_status s) eqn:Hs.
  - by destruct (process_web_not_connected e s Hs) as [[-> _]|(_ & _ & ->)].
  - by destruct (process_web_awaiting_connection e s Hs)
      as [(-> & _)|[(_ & ->)|[(_ & _ & ->)|(_ & _ & ->)]]].
  - destruct (process_web_awaiting_client e s Hs)
      as [(_ & ->)|[(_ & _ & ->)|[(_ & _ & c & Hc & _)|[(_ & _ & _ & _ & ->)|(_ & _ & _ & _ & ->)]]]];
      [done|done|congruence| |done].
    unfold ifttt_send_trigger. by destruct (env_ifttt_connect e).
  - by destruct (process_web_processing_request_any e s Hs)
      as (s1 & [-> | ->] & [-> | ->]).
Qed.

(** X15.  Without a client nothing touches what the visitors have left
    behind: over any run of calls in which [server.available()] has no
    client, whatever the network, the clocks and the trigger do, the visitor
    table with its counts and password flags, the request counter and the
    buttons pushed stay as they are. *)
Theorem visits_change_only_with_a_client (es : list env) :
  forall s : web, forallb no_caller es = true -> visits (run es s) = visits s.
Proof.
  induction es as [|e es IH]; intros s Hnone; cbn [run]; [reflexivity|].
  cbn [forallb] in Hnone. apply andb_true_iff in Hnone as [He Hnone].
  rewrite (IH _ Hnone). by apply visits_step.
Qed.

Lemma triggers_in_app (t1 t2 : list event) :
  triggers_in (t1 ++ t2) = (triggers_in t1 + triggers_in t2)%nat.
Proof. unfold triggers_in. by rewrite List.filter_app, length_app. Qed.

Lemma trigger_step (e : env) (s : web) :
  (ifttt_do_trigger (process_web e s) = ifttt_do_trigger s /\
   triggers_in (trace (process_web e s)) = triggers_in (trace s)) \/
  (ifttt_do_trigger s = true /\ ifttt_do_trigger (process_web e s) = false /\
   triggers_in (trace (process_web e s)) = S (triggers_in (trace s))).
Proof.
  destruct (web_status s) eqn:Hs.
  - left. destruct (process_web_not_connected e s Hs) as [[-> _]|(_ & _ & ->)];
      simpl; rewrite ?triggers_in_app; simpl; split; try done; try (unfold triggers_in; simpl; lia).
  - left. destruct (process_web_awaiting_connection e s Hs)
      as [(-> & _)|[(_ & ->)|[(_ & _ & ->)|(_ & _ & ->)]]];
      simpl; rewrite ?triggers_in_app; simpl; split; try done; try (unfold triggers_in; simpl; lia).
  - destruct (process_web_awaiting_client e s Hs)
      as [(_ & ->)|[(_ & _ & ->)|[(_ & _ & c & _ & ->)|[(_ & _ & _ & Hflag & ->)|(_ & _ & _ & _ & ->)]]]].
    + by left.
    + left. simpl. rewrite triggers_in_app. split; [done|]. unfold triggers_in. simpl. lia.
    + left. set (s1 := set_web_status WEB_PROCESSING_REQUEST
                         (set_client c (set_processing_web true s))).
      destruct (process_client_request_link (env_millis e) s1) as [Hlink Hcases].
      unfold link in Hlink. simpl in Hlink. injection Hlink as _ _ _ _ _ _ Hflag _.
      split; [exact Hflag|]. simpl.
      destruct Hcases as [[_ ->]|(r & _ & _ & ->)]; [done|].
      rewrite triggers_in_app. simpl. unfold triggers_in. simpl. lia.
    + right. split; [exact Hflag|]. split; [reflexivity|].
      unfold ifttt_send_trigger. destruct (env_ifttt_connect e); simpl;
        rewrite !triggers_in_app; unfold triggers_in; simpl; lia.
    + by left.
  - left. destruct (process_web_processing_request_any e s Hs)
      as (s1 & [-> | ->] & [-> | ->]); simpl; rewrite ?triggers_in_app;
      split; try done; unfold triggers_in; simpl; lia.
Qed.

(** X16.  The trigger is tried once: in any run of calls of [process_web]
    at most one attempt to send the IFTTT trigger is made, and none if
    [ifttt_do_trigger] is not set at the start; after an attempt the flag is
    clear whether or not the connection to the server was made (a trigger
    that failed is not sent again), and the calls never set the flag. *)
Theorem trigger_tried_once (es : list env) :
  forall s : web,
    (triggers_in (trace (run es s))
     <= triggers_in (trace s) + (if ifttt_do_trigger s then 1 else 0))%nat /\
    (triggers_in (trace s) <= triggers_in (trace (run es s)))%nat /\
    (triggers_in (trace s) < triggers_in (trace (run es s))
     -> ifttt_do_trigger (run es s) = false)%nat /\
    (ifttt_do_trigger (run es s) = true -> ifttt_do_trigger s = true).
Proof.
  induction es as [|e es IH]; intros s; cbn [run].
  - repeat split; try lia. done.
  - destruct (IH (process_web e s)) as (Hmost & Hleast & Hclear & Hset).
    destruct (trigger_step e s) as [(Hflag & Hsame)|(Hflag & Hflag' & Hmore)].
    + rewrite Hflag, Hsame in *.
      split; [exact Hmost|]. split; [exact Hleast|]. split; [exact Hclear|exact Hset].
    + rewrite Hflag' in Hmost. rewrite Hmore in *. rewrite Hflag.
      split; [lia|]. split; [lia|]. split.
      * intros _. destruct (ifttt_do_trigger (run es (process_web e s))) eqn:Hend;
          [|reflexivity]. specialize (Hset eq_refl). congruence.
      * reflexivity.
Qed.

(** X17.  The time to send the delayed response is [millis() +
    DELAYED_RSP_MSEC] in [unsigned long] arithmetic, and it is compared with
    [millis() > delayed_sendtime].  When a button is queued in the last second
    before [millis()] wraps around, the sum wraps and the time to send lies
    before the present: the next call that is not switched off sends the
    response at once, as long as [millis()] has not wrapped itself.  When the
    sum is the largest [unsigned long], no value of [millis()] is after it:
    no call ever sends the response, and the machine stays in
    WEB_PROCESSING_REQUEST, where it looks at no client. *)
Theorem delayed_response_time_wraps :
  (forall (m b : Z) (s : web) (e : env),
     is_ulong m = true -> ULONG_MAX - DELAYED_RSP_MSEC < m ->
     web_status s = WEB_PROCESSING_REQUEST ->
     web_enabled e s = true -> m <= env_millis e ->
     delayed_sendtime (queue_button_push m b s) = m + DELAYED_RSP_MSEC - 4294967296 /\
     trace (process_web e (queue_button_push m b s))
     = trace s ++ [sent_response RSP_STATUS] /\
     web_status (process_web e (queue_button_push m b s)) = WEB_AWAITING_CLIENT) /\
  (forall (b : Z) (s : web) (es : list env),
     web_status s = WEB_PROCESSING_REQUEST -> processing_web s = false ->
     forallb (fun e => is_ulong (env_millis e)) es = true ->
     delayed_sendtime (queue_button_push (ULONG_MAX - DELAYED_RSP_MSEC) b s) = ULONG_MAX /\
     run es (queue_button_push (ULONG_MAX - DELAYED_RSP_MSEC) b s)
     = queue_button_push (ULONG_MAX - DELAYED_RSP_MSEC) b s).
Proof.
  split.
  - intros m b s e Hm Hlate Hs Hen Hnow.
    unfold is_ulong in Hm. apply andb_true_iff in Hm as [Hlo Hhi].
    apply Z.leb_le in Hlo. apply Z.ltb_lt in Hhi.
    unfold ULONG_MAX, DELAYED_RSP_MSEC in *.
    assert (Hsend : delayed_sendtime (queue_button_push m b s) = m + 1000 - 4294967296).
    { simpl. unfold wrap_ulong, DELAYED_RSP_MSEC.
      symmetry. apply (Z.mod_unique _ _ 1); lia. }
    split; [exact Hsend|].
    destruct (process_web_processing_request e (queue_button_push m b s) Hs eq_refl)
      as [(Hwait & _)|(_ & ->)].
    + unfold still_waiting in Hwait. rewrite Hsend in Hwait.
      change (web_enabled e (queue_button_push m b s)) with (web_enabled e s) in Hwait.
      rewrite Hen in Hwait. simpl in Hwait.
      apply negb_true_iff, Z.ltb_ge in Hwait. lia.
    + by split.
  - intros b s es Hs Hpw Hes.
    assert (Hsend : delayed_sendtime (queue_button_push (ULONG_MAX - DELAYED_RSP_MSEC) b s)
                    = ULONG_MAX) by reflexivity.
    split; [exact Hsend|].
    apply run_still_waiting; [exact Hs|reflexivity|exact Hpw|].
    induction es as [|e es IH]; [reflexivity|].
    cbn [forallb] in *. apply andb_true_iff in Hes as [He Hes].
    rewrite (IH Hes), andb_true_r.
    unfold still_waiting. rewrite Hsend.
    unfold is_ulong in He. apply andb_true_iff in He as [_ He]. apply Z.ltb_lt in He.
    apply orb_true_iff. right. apply negb_true_iff, Z.ltb_ge.
    unfold ULONG_MAX. lia.
Qed.

Lemma set_processing_web_same (s : web) :
  processing_web s = false -> set_processing_web false s = s.
Proof. intros Hp. destruct s. simpl in *. by subst. Qed.

Lemma run_association_pending (idle : list env) (s : web) :
  web_status s = WEB_AWAITING_CONNECTION -> processing_web s = false ->
  forallb association_pending idle = true ->
  run idle s = s.
Proof.
  intros Hs Hp. induction idle as [|e idle IH]; cbn [run forallb]; [reflexivity|].
  intros Hidle. apply andb_true_iff in Hidle as [He Hidle].
  unfold association_pending in He. apply Z.eqb_eq in He.
  assert (Hstep : process_web e s = s).
  { destruct (process_web_awaiting_connection e s Hs)
      as [(Heq & _)|[(Hok & _)|[(Hfail & _)|(Hfail & _)]]].
    - by rewrite Heq, set_processing_web_same.
    - unfold connect_succeeds in Hok. rewrite He in Hok.
      by rewrite andb_false_r in Hok.
    - unfold connect_fails, association_failed in Hfail. rewrite He in Hfail.
      by rewrite !andb_false_r in Hfail.
    - unfold connect_fails, association_failed in Hfail. rewrite He in Hfail.
      by rewrite !andb_false_r in Hfail. }
  rewrite Hstep. by apply IH.
Qed.

(** X21.  From not connected to waiting for clients.  A call that is not
    switched off and comes at or after [next_connect_time] starts the
    association; calls in which the module reports it as under way change
    nothing; the call that finds it made starts the server.  After these
    calls the machine waits for clients, with [connect_attempts] back at 0
    and one more in [wifi_connects]; [WiFi.begin] and [server.begin] have
    been called once each and nothing else, and neither the other counters
    nor what the visitors have left behind have changed. *)
Theorem association_made (e1 e2 : env) (idle : list env) (s : web) :
  web_status s = WEB_NOT_CONNECTED -> processing_web s = false ->
  web_enabled e1 s = true -> next_connect_time s <= env_now e1 ->
  forallb association_pending idle = true ->
  web_enabled e2 s = true -> env_wifi_status e2 = WL_CONNECTED ->
  web_status (run (e1 :: idle ++ [e2]) s) = WEB_AWAITING_CLIENT /\
  connect_attempts (run (e1 :: idle ++ [e2]) s) = 0 /\
  wifi_connects (run (e1 :: idle ++ [e2]) s) = wrap_long (wifi_connects s + 1) /\
  trace (run (e1 :: idle ++ [e2]) s) = trace s ++ [WiFi_begin; server_begin] /\
  failure_counters (run (e1 :: idle ++ [e2]) s) = failure_counters s /\
  visits (run (e1 :: idle ++ [e2]) s) = visits s.
Proof.
  intros Hs Hp Hen1 Hnow Hidle Hen2 Hup. cbn [run]. rewrite run_app. cbn [run].
  destruct (process_web_not_connected e1 s Hs) as [(_ & [Hoff|Hearly])|(_ & _ & Heq1)];
    [congruence|lia|].
  set (s1 := process_web e1 s) in *.
  assert (Hs1 : web_status s1 = WEB_AWAITING_CONNECTION) by (by rewrite Heq1).
  assert (Hp1 : processing_web s1 = false) by (by rewrite Heq1).
  rewrite (run_association_pending idle s1 Hs1 Hp1 Hidle).
  assert (Hen : web_enabled e2 s1 = true).
  { unfold web_enabled in *. by rewrite Hp1, <- Hp. }
  destruct (process_web_awaiting_connection e2 s1 Hs1)
    as [(_ & _ & Hno)|[(_ & Heq2)|[(Hfail & _)|(Hfail & _)]]].
  - unfold connect_succeeds, awaiting_connection in Hno.
    rewrite Hen, Hs1, Hup in Hno. discriminate.
  - rewrite Heq2, Heq1. simpl. rewrite <- app_assoc. by repeat split.
  - unfold connect_fails, association_failed in Hfail. rewrite Hup in Hfail.
    by rewrite !andb_false_r in Hfail.
  - unfold connect_fails, association_failed in Hfail. rewrite Hup in Hfail.
    by rewrite !andb_false_r in Hfail.
Qed.

(** X22.  Dumped from the network.  A call that is not switched off and
    finds the machine waiting for clients while [WiFi.status()] is not
    WL_CONNECTED counts a disconnect and a reset, resets the module at once
    (whatever [connect_attempts] is), and leaves the machine not connected
    with the next attempt CONNECT_DELAY_SECS later.  In that call no client
    is taken from the server and no trigger is sent, even if both wait: the
    static client, the trigger flag, the delayed response and what the
    visitors have left behind are as before. *)
Theorem network_lost_resets (e : env) (s : web) :
  web_status s = WEB_AWAITING_CLIENT -> web_enabled e s = true ->
  env_wifi_status e <> WL_CONNECTED ->
  web_status (process_web e s) = WEB_NOT_CONNECTED /\
  wifi_disconnects (process_web e s) = wrap_long (wifi_disconnects s + 1) /\
  wifi_resets (process_web e s) = wrap_long (wifi_resets s + 1) /\
  connect_attempts (process_web e s) = 0 /\
  next_connect_time (process_web e s) = wrap_ulong (env_now e + CONNECT_DELAY_SECS) /\
  trace (process_web e s) = trace s ++ [wifi_reset] /\
  client (process_web e s) = client s /\
  ifttt_do_trigger (process_web e s) = ifttt_do_trigger s /\
  pending (process_web e s) = pending s /\
  visits (process_web e s) = visits s.
Proof.
  intros Hs Hen Hlost.
  destruct (process_web_awaiting_client e s Hs)
    as [(Hoff & _)|[(_ & _ & ->)|[(_ & Hup & _)|[(_ & Hup & _)|(_ & Hup & _)]]]];
    [congruence| |done..].
  by repeat split.
Qed.

Lemma attempts_in_range_step (e : env) (s : web) :
  attempts_in_range s = true -> attempts_in_range (process_web e s) = true.
Proof.
  unfold attempts_in_range, MAX_CONNECT_ATTEMPTS. intros Hinv.
  destruct (web_status s) eqn:Hs.
  - apply andb_true_iff in Hinv as [Hlo Hhi]. apply Z.leb_le in Hlo. apply Z.ltb_lt in Hhi.
    destruct (process_web_not_connected e s Hs) as [(-> & _)|(_ & _ & ->)]; simpl.
    + rewrite Hs. apply andb_true_iff. split; [by apply Z.leb_le|by apply Z.ltb_lt].
    + unfold wrap_int. rewrite wrap_long_incr by (unfold can_increment, LONG_MAX; lia).
      apply andb_true_iff. split; apply Z.leb_le; lia.
  - apply andb_true_iff in Hinv as [Hlo Hhi]. apply Z.leb_le in Hlo, Hhi.
    destruct (process_web_awaiting_connection e s Hs)
      as [(-> & _)|[(_ & ->)|[(_ & Hlt & ->)|(_ & _ & ->)]]]; simpl.
    + rewrite Hs. apply andb_true_iff. split; by apply Z.leb_le.
    + reflexivity.
    + unfold MAX_CONNECT_ATTEMPTS in Hlt.
      apply andb_true_iff. split; [apply Z.leb_le|apply Z.ltb_lt]; lia.
    + reflexivity.
  - apply Z.eqb_eq in Hinv.
    destruct (process_web_awaiting_client e s Hs)
      as [(_ & ->)|[(_ & _ & ->)|[(_ & _ & c & _ & ->)|[(_ & _ & _ & _ & ->)|(_ & _ & _ & _ & ->)]]]].
    + simpl. rewrite Hs. by apply Z.eqb_eq.
    + reflexivity.
    + set (s1 := set_web_status WEB_PROCESSING_REQUEST
                   (set_client c (set_processing_web true s))).
      destruct (process_client_request_link (env_millis e) s1) as [Hlink Hcases].
      unfold link in Hlink. simpl in Hlink. injection Hlink as _ Hca _ _ _ _ _ _.
      simpl. rewrite Hca, Hinv.
      by destruct Hcases as [[-> _]|(r & _ & -> & _)].
    + unfold ifttt_send_trigger. destruct (env_ifttt_connect e); simpl;
        rewrite Hs; by apply Z.eqb_eq.
    + simpl. rewrite Hs. by apply Z.eqb_eq.
  - apply Z.eqb_eq in Hinv.
    destruct (process_web_processing_request_any e s Hs)
      as (s1 & [-> | ->] & [-> | ->]); simpl; rewrite ?Hs; by apply Z.eqb_eq.
Qed.

(** X23.  [connect_attempts] stays in range.  In every state that a run of
    calls of [process_web] reaches from a state in which it is in range (as
    the state at power-up is: not connected, no attempt made) the number of
    attempts lies between 0 and MAX_CONNECT_ATTEMPTS: below
    MAX_CONNECT_ATTEMPTS while the machine is not connected, at least 1 while
    it awaits the connection, and 0 once it is connected. *)
Theorem connect_attempts_in_range (es : list env) :
  forall s : web,
    attempts_in_range s = true ->
    attempts_in_range (run es s) = true /\
    0 <= connect_attempts (run es s) <= MAX_CONNECT_ATTEMPTS.
Proof.
  assert (Hrange : forall s, attempts_in_range s = true ->
                             0 <= connect_attempts s <= MAX_CONNECT_ATTEMPTS).
  { intros s. unfold attempts_in_range, MAX_CONNECT_ATTEMPTS.
    destruct (web_status s); intros H;
      [apply andb_true_iff in H as [H1 H2]; apply Z.leb_le in H1; apply Z.ltb_lt in H2
      |apply andb_true_iff in H as [H1 H2]; apply Z.leb_le in H1, H2
      |apply Z.eqb_eq in H|apply Z.eqb_eq in H]; lia. }
  induction es as [|e es IH]; intros s Hinv; cbn [run].
  - split; [exact Hinv|by apply Hrange].
  - apply IH. by apply attempts_in_range_step.
Qed.

End Server.


(* ===================================================================== *)
(** ** The scanners as the spec has them: instances of the statements above *)

(** C1 on sample requests: a stranger's request for button 2 gets the
    password form and queues nothing; the owner's queues button 2 and sends
    nothing; an armed response is sent by the first call after its time. *)
Lemma C1_pushbutton_needs_password_witness :
  (pending (process_client_request scan_key_model scan_int_model 5000 pushbutton_by_stranger)
   = pending pushbutton_by_stranger /\
   trace (process_client_request scan_key_model scan_int_model 5000 pushbutton_by_stranger)
   = [sent_response RSP_ASKPASS]) /\
  (button_webpushed
     (process_client_request scan_key_model scan_int_model 5000 pushbutton_by_owner)
   = [false; false; true; false; false; false; false] /\
   delayed_sendtime
     (process_client_request scan_key_model scan_int_model 5000 pushbutton_by_owner)
   = 6000 /\
   trace (process_client_request scan_key_model scan_int_model 5000 pushbutton_by_owner)
   = []) /\
  trace (run scan_key_model scan_int_model
           ([env_at 2000 5500 WL_CONNECTED None; env_no_power]
            ++ [env_at 2001 6001 WL_CONNECTED None]) web_armed)
  = [sent_response RSP_STATUS].
Proof.
  destruct (C1_pushbutton_needs_password scan_key_model scan_int_model)
    as (Hno & Hyes & Hlater).
  split; [|split].
  - destruct (Hno 5000 pushbutton_by_stranger) as (Hpending & Hform & _);
      [vm_compute; reflexivity|vm_compute; reflexivity|].
    split; [exact Hpending|].
    apply Hform. split; [vm_compute; reflexivity|vm_compute; discriminate].
  - destruct (Hyes 5000 pushbutton_by_owner 2) as (Hb & _ & Ht & Htr & _);
      [vm_compute; reflexivity|vm_compute; reflexivity|vm_compute; reflexivity
      |vm_compute; reflexivity|vm_compute; split; discriminate|].
    split; [exact Hb|]. split; [exact Ht|exact Htr].
  - destruct (Hlater web_armed [env_at 2000 5500 WL_CONNECTED None; env_no_power]
                (env_at 2001 6001 WL_CONNECTED None)) as (_ & Htr & _);
      [reflexivity|reflexivity|reflexivity|vm_compute; reflexivity
      |vm_compute; reflexivity|].
    exact Htr.
Defined.

(** C1 as stated fails: a pushbutton request without a body from a peer that
    has not given the password is answered with the page for an unknown
    request, not with the password form; and a body with two button lines
    from a peer that has given the password queues two buttons. *)
Lemma C1_pushbutton_counterexample :
  (request_type_of scan_key_model (inbuf (client pushbutton_without_body))
   = REQ_PUSHBUTTON /\
   gave_password (peer_record pushbutton_without_body) = false /\
   trace (process_client_request scan_key_model scan_int_model 5000
            pushbutton_without_body)
   = [sent_response RSP_UNKNOWN]) /\
  (request_type_of scan_key_model (inbuf (client two_buttons_by_owner))
   = REQ_PUSHBUTTON /\
   gave_password (peer_record two_buttons_by_owner) = true /\
   body_buttons scan_key_model scan_int_model two_buttons_by_owner = [1; 2] /\
   button_webpushed
     (process_client_request scan_key_model scan_int_model 5000 two_buttons_by_owner)
   = [false; true; true; false; false; false; false]).
Proof. vm_compute. repeat split. Qed.

(** C5 on sample requests: the right password marks the stranger's record
    and gets the status page; a wrong one gets the password form; no body gets
    the page for an unknown request. *)
Lemma C5_setpass_checks_password_witness :
  (check_password "password" = true) /\
  (gave_password
     (client_at (clients (process_client_request scan_key_model scan_int_model 5000
                            setpass_right)) 24) = true /\
   trace (process_client_request scan_key_model scan_int_model 5000 setpass_right)
   = [sent_response RSP_STATUS]) /\
  (gave_password
     (client_at (clients (process_client_request scan_key_model scan_int_model 5000
                            setpass_wrong)) 24) = false /\
   trace (process_client_request scan_key_model scan_int_model 5000 setpass_wrong)
   = [sent_response RSP_ASKPASS]) /\
  trace (process_client_request scan_key_model scan_int_model 5000 setpass_without_body)
  = [sent_response RSP_UNKNOWN].
Proof.
  destruct (C5_setpass_checks_password scan_key_model scan_int_model)
    as (Hcheck & _ & Hreq).
  split; [by apply Hcheck|]. split; [|split].
  - destruct (Hreq 5000 setpass_right) as (Hflag & Hstatus & _);
      [vm_compute; reflexivity|].
    split.
    + apply (Hflag ltac:(vm_compute; split; [discriminate|reflexivity])).
    + apply Hstatus. vm_compute. reflexivity.
  - destruct (Hreq 5000 setpass_wrong) as (Hflag & _ & Hform & _);
      [vm_compute; reflexivity|].
    split.
    + apply (Hflag ltac:(vm_compute; split; [discriminate|reflexivity])).
    + apply Hform; [vm_compute; discriminate|vm_compute; reflexivity].
  - destruct (Hreq 5000 setpass_without_body) as (_ & _ & _ & Hnone);
      [vm_compute; reflexivity|].
    apply Hnone. vm_compute. reflexivity.
Defined.

(** C5 as stated fails: a setpass request without a body is answered with
    the page for an unknown request, not with the password form; and after a
    line with the right password, a further line makes the response the
    password form although the peer is now marked. *)
Lemma C5_setpass_counterexample :
  (request_type_of scan_key_model (inbuf (client setpass_without_body)) = REQ_SETPASS /\
   body_lines scan_key_model setpass_without_body = [] /\
   trace (process_client_request scan_key_model scan_int_model 5000
            setpass_without_body)
   = [sent_response RSP_UNKNOWN]) /\
  (request_type_of scan_key_model (inbuf (client setpass_right_then_more))
   = REQ_SETPASS /\
   body_lines scan_key_model setpass_right_then_more = ["PWD=password"; "xx"] /\
   gave_password
     (client_at (clients (process_client_request scan_key_model scan_int_model 5000
                            setpass_right_then_more)) 24) = true /\
   trace (process_client_request scan_key_model scan_int_model 5000
            setpass_right_then_more)
   = [sent_response RSP_ASKPASS]).
Proof. vm_compute. repeat split. Qed.

(** C6 on a sample run: three attempts, each reported failed. *)
Lemma C6_reset_after_max_connect_attempts_witness :
  wifi_resets (run scan_key_model scan_int_model
                 (two_failures_and_an_attempt ++ [third_failure]) web_start) = 1 /\
  connect_attempts (run scan_key_model scan_int_model
                      (two_failures_and_an_attempt ++ [third_failure]) web_start) = 0 /\
  next_connect_time (run scan_key_model scan_int_model
                       (two_failures_and_an_attempt ++ [third_failure]) web_start)
  = 1034 /\
  wifi_resets (run scan_key_model scan_int_model two_failures_and_an_attempt web_start)
  = 0.
Proof.
  destruct (C6_reset_after_max_connect_attempts scan_key_model scan_int_model
              two_failures_and_an_attempt third_failure web_start)
    as ((Hresets & _ & Hattempts & _ & Hnext) & Hbefore & _);
    [reflexivity|reflexivity|vm_compute; split; [discriminate|reflexivity]
    |vm_compute; reflexivity|vm_compute; reflexivity|vm_compute; reflexivity|].
  split; [exact Hresets|]. split; [exact Hattempts|]. split; [exact Hnext|].
  destruct (Hbefore two_failures_and_an_attempt []) as (Hb & _);
    [by rewrite app_nil_r|exact Hb].
Defined.

(** C7 on a sample run: an attempt at second 1000, its failure at 1001, and
    the next attempt at 1011. *)
Lemma C7_attempts_wait_for_next_connect_time_witness :
  (next_connect_time web_start <= 1000) /\
  (next_connect_time
     (process_web scan_key_model scan_int_model (env_at 1001 0 WL_CONNECT_FAILED None)
        (process_web scan_key_model scan_int_model (env_at 1000 0 WL_IDLE_STATUS None)
           web_start))
   = 1011) /\
  (wrap_ulong (1001 + CONNECT_DELAY_SECS) <= 1011).
Proof.
  destruct (C7_attempts_wait_for_next_connect_time scan_key_model scan_int_model)
    as (Hattempt & _ & Hinto & Hlater).
  split; [|split].
  - apply (Hattempt (env_at 1000 0 WL_IDLE_STATUS None) web_start);
      [discriminate|vm_compute; reflexivity].
  - destruct (Hinto (env_at 1001 0 WL_CONNECT_FAILED None)
                (process_web scan_key_model scan_int_model
                   (env_at 1000 0 WL_IDLE_STATUS None) web_start)) as (Hnext & _);
      [vm_compute; discriminate|vm_compute; reflexivity|exact Hnext].
  - apply (Hlater (env_at 1001 0 WL_CONNECT_FAILED None)
             (process_web scan_key_model scan_int_model
                (env_at 1000 0 WL_IDLE_STATUS None) web_start)
             [env_at 1005 0 WL_IDLE_STATUS None]
             (env_at 1011 0 WL_IDLE_STATUS None));
      [vm_compute; discriminate|vm_compute; reflexivity
      |vm_compute; split; [reflexivity|exact I]|vm_compute; reflexivity].
Defined.

(** C8 on a sample call: a trigger is pending and the owner connects; the
    request is handled and the trigger stays pending. *)
Lemma C8_client_before_trigger_witness :
  process_web scan_key_model scan_int_model
    (env_at 2000 5000 WL_CONNECTED (Some owner_pushes_button))
    (set_ifttt_do_trigger true web_waiting)
  = set_processing_web false
      (process_client_request scan_key_model scan_int_model 5000
         (set_web_status WEB_PROCESSING_REQUEST
            (set_client owner_pushes_button
               (set_processing_web true (set_ifttt_do_trigger true web_waiting))))) /\
  ifttt_do_trigger
    (process_web scan_key_model scan_int_model
       (env_at 2000 5000 WL_CONNECTED (Some owner_pushes_button))
       (set_ifttt_do_trigger true web_waiting)) = true.
Proof.
  destruct (C8_client_before_trigger scan_key_model scan_int_model
              (env_at 2000 5000 WL_CONNECTED (Some owner_pushes_button))
              (set_ifttt_do_trigger true web_waiting))
    as (_ & Hclient); [reflexivity|].
  destruct (Hclient owner_pushes_button) as (Hstep & _ & Hflag);
    [reflexivity|vm_compute; reflexivity|reflexivity|].
  split; [exact Hstep|exact Hflag].
Defined.

(* ===================================================================== *)
(** ** The log page *)

Lemma ring_mod (cap o m : Z) :
  0 <= o < cap -> 0 <= m < cap ->
  (o + m) mod cap = if o + m <? cap then o + m else o + m - cap.
Proof.
  intros Ho Hm. destruct (Z.ltb_spec (o + m) cap) as [Hlt|Hge].
  - apply Z.mod_small. lia.
  - symmetry. apply (Z.mod_unique _ _ 1); lia.
Qed.

(** One round of the walk: from the slot of entry [m > 0] to that of entry
    [m - 1]. *)
Lemma ring_step (cap o m : Z) :
  0 <= o < cap -> 0 < m < cap ->
  (o + m) mod cap <> o /\
  (if (o + m) mod cap - 1 <? 0 then cap - 1 else (o + m) mod cap - 1)
  = (o + (m - 1)) mod cap.
Proof.
  intros Ho Hm.
  rewrite (ring_mod cap o m), (ring_mod cap o (m - 1)) by lia.
  destruct (Z.ltb_spec (o + m) cap), (Z.ltb_spec (o + (m - 1)) cap);
    split; try lia;
    match goal with |- context [?a <? 0] => destruct (Z.ltb_spec a 0) end; lia.
Qed.

Lemma log_walk_ring (cap o : Z) :
  0 <= o < cap ->
  forall (m fuel : nat),
    Z.of_nat m < cap -> (m < fuel)%nat ->
    log_walk fuel cap o ((o + Z.of_nat m) mod cap)
    = Some (map (fun i => (o + Z.of_nat i) mod cap) (rev (seq 0 (S m)))).
Proof.
  intros Ho. induction m as [|m IH]; intros fuel Hm Hfuel;
    (destruct fuel as [|fuel]; [lia|]).
  - simpl. rewrite Z.add_0_r, Z.mod_small by lia. by rewrite Z.eqb_refl.
  - cbn [log_walk].
    destruct (ring_step cap o (Z.of_nat (S m)) Ho ltac:(lia)) as [Hne Hnext].
    destruct (Z.eqb_spec ((o + Z.of_nat (S m)) mod cap) o) as [Heq|_]; [contradiction|].
    rewrite Hnext.
    replace (Z.of_nat (S m) - 1) with (Z.of_nat m) by lia.
    rewrite IH by lia.
    rewrite (seq_S (S m)), rev_app_distr. reflexivity.
Qed.

(** C4.  For a log header that satisfies the ring invariant with [k]
    entries, the walk of the log page ends within [k] rounds and prints the
    entries at the slots of the entries [k-1], [k-2], ..., [0] of the insertion
    order: [k] entries, the first one at [newest], the last one at [oldest],
    each one slot below the one before with wrap-around; none for [k = 0].
    So the page shows the entries in the reverse of the order in which they
    were inserted. *)
Theorem C4_log_page_newest_first :
  forall (hdr : logfile_hdr_t) (log_max_entries k : Z) (fuel : nat),
    ring_invariant hdr log_max_entries k ->
    (Z.to_nat k <= fuel)%nat ->
    log_page_indices fuel hdr log_max_entries
    = Some (map (fun i => ring_slot hdr log_max_entries (Z.of_nat i))
              (rev (seq 0 (Z.to_nat k)))) /\
    (forall indices, log_page_indices fuel hdr log_max_entries = Some indices ->
       length indices = Z.to_nat k /\
       (0 < k -> head indices = Some (newest hdr) /\ last indices = Some (oldest hdr))) /\
    (forall (logfile inserted : list logentry_t),
       length inserted = Z.to_nat k ->
       (forall i, (i < length inserted)%nat ->
          log_at logfile (ring_slot hdr log_max_entries (Z.of_nat i))
          = nth i inserted no_entry) ->
       log_page fuel hdr logfile log_max_entries
       = Some (map (fun entry => (datetime entry, event_type entry)) (rev inserted))).
Proof.
  intros hdr cap k fuel (Hk & Hnum & Hring) Hfuel.
  assert (Hold : 0 < k -> 0 <= oldest hdr < cap) by (intros H; by destruct (Hring H)).
  assert (Hnew : 0 < k -> newest hdr = (oldest hdr + k - 1) mod cap)
    by (intros H; by destruct (Hring H)).
  assert (Hwalk : log_page_indices fuel hdr cap
                  = Some (map (fun i => ring_slot hdr cap (Z.of_nat i))
                            (rev (seq 0 (Z.to_nat k))))).
  { unfold log_page_indices. rewrite Hnum.
    destruct (Z.ltb_spec 0 k) as [Hpos|Hzero].
    - rewrite (Hnew Hpos).
      replace (oldest hdr + k - 1) with (oldest hdr + Z.of_nat (Z.to_nat k - 1)) by lia.
      rewrite (log_walk_ring cap (oldest hdr) (Hold Hpos)) by lia.
      replace (S (Z.to_nat k - 1)) with (Z.to_nat k) by lia. reflexivity.
    - replace k with 0 by lia. reflexivity. }
  split; [exact Hwalk|]. split.
  - intros indices Hind. rewrite Hwalk in Hind. injection Hind as <-.
    split; [by rewrite length_map, length_rev, length_seq|].
    intros Hpos.
    destruct (Z.to_nat k) as [|n] eqn:Hn; [lia|].
    split.
    + rewrite seq_S, rev_app_distr. simpl.
      rewrite (Hnew Hpos). unfold ring_slot. f_equal. f_equal. lia.
    + cbn [seq rev]. rewrite map_app. cbn [map]. rewrite last_snoc. unfold ring_slot.
      rewrite Z.add_0_r, Z.mod_small; [reflexivity|by apply Hold].
  - intros logfile inserted Hlen Hslots. unfold log_page. rewrite Hwalk. simpl.
    f_equal. rewrite map_map.
    assert (Hins : inserted
                   = map (fun i => log_at logfile (ring_slot hdr cap (Z.of_nat i)))
                       (seq 0 (Z.to_nat k))).
    { apply (nth_ext _ _ no_entry
               (log_at logfile (ring_slot hdr cap (Z.of_nat 0%nat)))).
      - by rewrite length_map, length_seq.
      - intros i Hi.
        rewrite (map_nth (fun i => log_at logfile (ring_slot hdr cap (Z.of_nat i)))
                   _ 0%nat i).
        rewrite seq_nth by lia. symmetry. by apply Hslots. }
    rewrite Hins at 1. rewrite <- List.map_rev, map_map. reflexivity.
Qed.

(** C4 on a sample log of capacity 4 that has wrapped. *)
Lemma C4_log_page_newest_first_witness :
  log_page_indices 3 sample_hdr 4 = Some [1; 0; 3] /\
  log_page 3 sample_hdr sample_logfile 4 = Some [(300, 7); (200, 5); (100, 3)].
Proof.
  destruct (C4_log_page_newest_first sample_hdr 4 3 3) as (Hwalk & _ & Hpage).
  - unfold ring_invariant. vm_compute. intuition discriminate.
  - vm_compute. lia.
  - split; [exact Hwalk|].
    apply (Hpage sample_logfile
             [ {| datetime := 100; event_type := 3; extra_info := 0; msg := "" |};
               {| datetime := 200; event_type := 5; extra_info := 0; msg := "" |};
               {| datetime := 300; event_type := 7; extra_info := 0; msg := "" |} ]).
    + reflexivity.
    + intros i Hi. simpl in Hi.
      destruct i as [|[|[|i]]]; [reflexivity|reflexivity|reflexivity|lia].
Defined.

(* ===================================================================== *)
(** ** The expansion of the LCD text *)

Lemma poke_app (out junk : list ascii) (x c : ascii) :
  poke (out ++ x :: junk) (length out) c = Some (out ++ c :: junk).
Proof.
  unfold poke. rewrite length_app. simpl.
  destruct (Nat.ltb_spec (length out) (length out + S (length junk))); [|lia].
  f_equal. replace (length out) with (length out + 0)%nat at 1 by lia.
  by rewrite insert_app_r.
Qed.

(** [strcpy] into the free part of a buffer. *)
Lemma strcpy_app (src : string) :
  forall (out junk : list ascii),
    (String.length src < length junk)%nat ->
    strcpy (out ++ junk) (length out) src
    = Some (out ++ list_ascii_of_string src ++ NUL :: drop (S (String.length src)) junk).
Proof.
  induction src as [|c rest IH]; intros out junk Hlen;
    (destruct junk as [|x junk]; [simpl in Hlen; lia|]); simpl.
  - rewrite poke_app. by rewrite drop_0.
  - rewrite poke_app. simpl.
    replace (out ++ c :: junk) with ((out ++ [c]) ++ junk) by (by rewrite <- app_assoc).
    replace (S (length out)) with (length (out ++ [c])) by (rewrite length_app; simpl; lia).
    rewrite IH by (simpl in Hlen; lia).
    by rewrite <- app_assoc.
Qed.

Lemma expansion_of_length (c : ascii) : (1 <= length (expansion_of c) <= 6)%nat.
Proof.
  unfold expansion_of.
  repeat match goal with |- context [if ?b then _ else _] => destruct b end;
    simpl; lia.
Qed.

Lemma expanded_length (msg : string) : (length (expanded msg) <= 6 * String.length msg)%nat.
Proof.
  induction msg as [|c rest IH]; simpl; [lia|].
  destruct (c =? NUL)%char; simpl; [lia|].
  rewrite length_app. pose proof (expansion_of_length c). lia.
Qed.

(** One round of the loop, seen on a buffer split at the write pointer. *)
Lemma expand_loop_step (c : ascii) (rest : string) (out junk : list ascii) :
  (c =? NUL)%char = false ->
  (8 <= length junk)%nat ->
  exists junk',
    length junk' = (length junk - length (expansion_of c))%nat /\
    expand_loop (String c rest) (out ++ junk) (length out)
    = expand_loop rest ((out ++ expansion_of c) ++ junk')
        (length (out ++ expansion_of c)).
Proof.
  intros Hnul Hlen. cbn [expand_loop]. rewrite Hnul. unfold expansion_of.
  destruct (c =? LEFTARROW)%char;
    [|destruct (c =? UPARROW)%char;
      [|destruct (c =? RIGHTARROW)%char;
        [|destruct (c =? DOWNARROW)%char;
          [|destruct (c =? " ")%char]]]].
  1-5: rewrite strcpy_app by (simpl; lia);
       match goal with
       | |- context [list_ascii_of_string ?s ++ NUL :: drop ?n ?j] =>
           exists (";"%char :: NUL :: drop n j)
       end;
       split; [simpl; rewrite length_drop; simpl; lia|];
       simpl; rewrite !length_app; simpl;
       rewrite <- !app_assoc; reflexivity.
  destruct junk as [|x junk]; [simpl in Hlen; lia|].
  exists junk. split; [simpl; lia|].
  rewrite poke_app. simpl. rewrite length_app. simpl.
  rewrite <- app_assoc. simpl.
  by replace (length out + 1)%nat with (S (length out)) by lia.
Qed.

Lemma expand_loop_app (msg : string) :
  forall (out junk : list ascii),
    (6 * String.length msg + 2 <= length junk)%nat ->
    exists junk',
      (2 <= length junk')%nat /\
      expand_loop msg (out ++ junk) (length out)
      = Some ((out ++ expanded msg) ++ junk', length (out ++ expanded msg)).
Proof.
  induction msg as [|c rest IH]; intros out junk Hlen.
  - exists junk. simpl in *. rewrite app_nil_r. by split; [lia|].
  - destruct (c =? NUL)%char eqn:Hnul.
    + exists junk. simpl in *. rewrite Hnul. rewrite app_nil_r. by split; [lia|].
    + cbn [String.length] in Hlen.
      destruct (expand_loop_step c rest out junk Hnul ltac:(lia)) as (junk1 & Hl1 & ->).
      pose proof (expansion_of_length c) as Hexp.
      destruct (IH (out ++ expansion_of c) junk1 ltac:(lia)) as (junk' & Hl' & ->).
      exists junk'. split; [exact Hl'|].
      cbn [expanded]. rewrite Hnul. by rewrite <- !app_assoc.
Qed.

Lemma c_str_app (l junk : list ascii) :
  Forall (fun c => (c =? NUL)%char = false) l ->
  c_str (l ++ NUL :: junk) = string_of_list_ascii l.
Proof.
  induction 1 as [|c l Hc _ IH]; simpl; [reflexivity|]. by rewrite Hc, IH.
Qed.

Lemma expansion_of_clean (c : ascii) :
  (c =? NUL)%char = false ->
  Forall (fun c' => (c' =? NUL)%char = false /\
                    (c' =? LEFTARROW)%char = false /\ (c' =? UPARROW)%char = false /\
                    (c' =? RIGHTARROW)%char = false /\ (c' =? DOWNARROW)%char = false /\
                    (c' =? " ")%char = false)
    (expansion_of c).
Proof.
  intros Hnul. unfold expansion_of.
  destruct (c =? LEFTARROW)%char eqn:?; [by repeat constructor|].
  destruct (c =? UPARROW)%char eqn:?; [by repeat constructor|].
  destruct (c =? RIGHTARROW)%char eqn:?; [by repeat constructor|].
  destruct (c =? DOWNARROW)%char eqn:?; [by repeat constructor|].
  destruct (c =? " ")%char eqn:?; [by repeat constructor|].
  by repeat constructor.
Qed.

Lemma expanded_clean (msg : string) :
  Forall (fun c' => (c' =? NUL)%char = false /\
                    (c' =? LEFTARROW)%char = false /\ (c' =? UPARROW)%char = false /\
                    (c' =? RIGHTARROW)%char = false /\ (c' =? DOWNARROW)%char = false /\
                    (c' =? " ")%char = false)
    (expanded msg).
Proof.
  induction msg as [|c rest IH]; simpl; [constructor|].
  destruct (c =? NUL)%char eqn:Hnul; [constructor|].
  apply Forall_app. split; [by apply expansion_of_clean|exact IH].
Qed.

(** X10.  What [expand_arrows_and_blanks] returns for every message that fits
    (an LCD row has 20 characters): each arrow and each blank leaves its
    entity without the semicolon, every other character is copied; neither a
    raw arrow nor a blank is in the result.  What the static buffer held
    before does not matter. *)
Theorem expand_arrows_and_blanks_spec (outmsg : list ascii) (msg : string) :
  length outmsg = MAXLINE ->
  (6 * String.length msg + 2 <= MAXLINE)%nat ->
  exists buf,
    expand_arrows_and_blanks outmsg msg = Some buf /\
    c_str buf = string_of_list_ascii (expanded msg) /\
    Forall (fun c => (c =? LEFTARROW)%char = false /\ (c =? UPARROW)%char = false /\
                     (c =? RIGHTARROW)%char = false /\ (c =? DOWNARROW)%char = false /\
                     (c =? " ")%char = false)
      (expanded msg).
Proof.
  intros Hbuf Hfit. unfold expand_arrows_and_blanks.
  destruct (expand_loop_app msg [] outmsg ltac:(simpl; lia)) as (junk & Hjunk & Hloop).
  simpl in Hloop. rewrite Hloop. simpl.
  destruct junk as [|x junk]; [simpl in Hjunk; lia|].
  exists (expanded msg ++ NUL :: junk). split; [apply poke_app|]. split.
  - apply c_str_app. eapply Forall_impl; [apply expanded_clean|]. by intros c (? & _).
  - eapply Forall_impl; [apply expanded_clean|]. by intros c (_ & ?).
Qed.

(** C2.  [expand_arrows_and_blanks] on the row "\x7f A" (left arrow, blank,
    letter): the write pointer is advanced by one less than the length of the
    entity copied, so the next store lands on the semicolon.  The result has
    neither "&#8592;" nor "&nbsp;" in it; it has no raw arrow either. *)
Theorem C2_expand_loses_the_semicolons :
  c_str <$> expand_arrows_and_blanks outmsg0 lcd_row_arrow_blank
  = Some "&#8592&nbspA" /\
  occurs_in "&#8592;" "&#8592&nbspA" = false /\
  occurs_in "&nbsp;" "&#8592&nbspA" = false /\
  occurs_in (String LEFTARROW EmptyString) "&#8592&nbspA" = false.
Proof. vm_compute. repeat split. Qed.

(* ===================================================================== *)
(** ** The visitor table *)

(** The loop returns at the first slot that holds the address. *)
Lemma scan_clients_found (addr : IPAddress) (slots : list client_t) :
  forall (ndx empty_ndx min_ndx min_count : Z) (i : nat) (c : client_t),
    slots !! i = Some c -> ip_address c = addr ->
    (forall j c', (j < i)%nat -> slots !! j = Some c' -> ip_address c' <> addr) ->
    scan_clients addr slots ndx empty_ndx min_ndx min_count = Found (ndx + Z.of_nat i).
Proof.
  induction slots as [|c0 rest IH]; intros ndx e m mc i c Hi Hc Hbefore; [done|].
  cbn [scan_clients]. destruct i as [|i].
  - injection Hi as ->. unfold ip_eqb. rewrite bool_decide_eq_true_2 by exact Hc.
    by rewrite Z.add_0_r.
  - change (rest !! i = Some c) in Hi.
    assert (Hc0 : ip_address c0 <> addr) by (apply (Hbefore 0%nat); [lia|done]).
    unfold ip_eqb. rewrite bool_decide_eq_false_2 by exact Hc0.
    assert (Hrest : forall j c', (j < i)%nat -> rest !! j = Some c' -> ip_address c' <> addr).
    { intros j c' Hj Hl. apply (Hbefore (S j)); [lia|exact Hl]. }
    replace (ndx + Z.of_nat (S i)) with ((ndx + 1) + Z.of_nat i) by lia.
    destruct (count c0 =? 0); [|destruct (count c0 <? mc)]; by eapply IH.
Qed.

(** Over slots that are all in use by other addresses and none of which has
    a count below [min_count], the loop remembers nothing new. *)
Lemma scan_clients_nothing (addr : IPAddress) (slots : list client_t) :
  forall (ndx empty_ndx min_ndx min_count : Z),
    (forall j c', slots !! j = Some c' ->
       ip_address c' <> addr /\ count c' <> 0 /\ min_count <= count c') ->
    scan_clients addr slots ndx empty_ndx min_ndx min_count = NotFound empty_ndx min_ndx.
Proof.
  induction slots as [|c0 rest IH]; intros ndx e m mc Hall; [done|].
  destruct (Hall 0%nat c0 eq_refl) as (Ha & Hz & Hm). cbn [scan_clients].
  unfold ip_eqb. rewrite bool_decide_eq_false_2 by exact Ha.
  destruct (Z.eqb_spec (count c0) 0); [done|].
  destruct (Z.ltb_spec (count c0) mc); [lia|].
  apply IH. intros j c' Hl. by apply (Hall (S j)).
Qed.

(** Over slots in use by other addresses, the loop remembers the first slot
    with the least count, if that count is below [min_count]. *)
Lemma scan_clients_min (addr : IPAddress) (slots : list client_t) :
  forall (ndx empty_ndx min_ndx min_count : Z) (i : nat) (c : client_t),
    (forall j c', slots !! j = Some c' -> ip_address c' <> addr /\ count c' <> 0) ->
    slots !! i = Some c -> count c < min_count ->
    (forall j c', slots !! j = Some c' -> count c <= count c') ->
    (forall j c', (j < i)%nat -> slots !! j = Some c' -> count c < count c') ->
    scan_clients addr slots ndx empty_ndx min_ndx min_count
    = NotFound empty_ndx (ndx + Z.of_nat i).
Proof.
  induction slots as [|c0 rest IH]; intros ndx e m mc i c Hall Hi Hlt Hleast Hfirst;
    [done|].
  destruct (Hall 0%nat c0 eq_refl) as (Ha & Hz). cbn [scan_clients].
  unfold ip_eqb. rewrite bool_decide_eq_false_2 by exact Ha.
  destruct (Z.eqb_spec (count c0) 0); [done|].
  assert (Hall' : forall j c', rest !! j = Some c' -> ip_address c' <> addr /\ count c' <> 0).
  { intros j c' Hl. by apply (Hall (S j)). }
  destruct i as [|i]; [|change (rest !! i = Some c) in Hi].
  - injection Hi as ->. destruct (Z.ltb_spec (count c) mc); [|lia].
    rewrite Z.add_0_r. apply scan_clients_nothing.
    intros j c' Hl. destruct (Hall' j c' Hl) as (? & ?).
    repeat split; try assumption. by apply (Hleast (S j)).
  - assert (Hrest : forall j c', rest !! j = Some c' -> count c <= count c').
    { intros j c' Hl. by apply (Hleast (S j)). }
    assert (Hrest' : forall j c', (j < i)%nat -> rest !! j = Some c' -> count c < count c').
    { intros j c' Hj Hl. apply (Hfirst (S j)); [lia|exact Hl]. }
    assert (Hc0 : count c < count c0) by (apply (Hfirst 0%nat); [lia|done]).
    replace (ndx + Z.of_nat (S i)) with ((ndx + 1) + Z.of_nat i) by lia.
    destruct (Z.ltb_spec (count c0) mc); by eapply IH.
Qed.

(** Over slots that are all in use by other addresses, the loop remembers no
    empty slot. *)
Lemma scan_clients_full (addr : IPAddress) (slots : list client_t) :
  (forall j c', slots !! j = Some c' -> ip_address c' <> addr /\ count c' <> 0) ->
  forall (ndx empty_ndx min_ndx min_count : Z),
    exists min_ndx',
      scan_clients addr slots ndx empty_ndx min_ndx min_count
      = NotFound empty_ndx min_ndx'.
Proof.
  induction slots as [|c0 rest IH]; intros Hall ndx e m mc; [by exists m|].
  destruct (Hall 0%nat c0 eq_refl) as (Ha & Hz). cbn [scan_clients].
  unfold ip_eqb. rewrite bool_decide_eq_false_2 by exact Ha.
  destruct (Z.eqb_spec (count c0) 0); [done|].
  assert (Hall' : forall j c', rest !! j = Some c' -> ip_address c' <> addr /\ count c' <> 0).
  { intros j c' Hl. by apply (Hall (S j)). }
  destruct (count c0 <? mc); by apply IH.
Qed.

(** Over slots held by other addresses, the loop remembers the last empty
    slot. *)
Lemma scan_clients_empty (addr : IPAddress) (slots : list client_t) :
  forall (ndx empty_ndx min_ndx min_count : Z) (i : nat) (c : client_t),
    (forall j c', slots !! j = Some c' -> ip_address c' <> addr) ->
    slots !! i = Some c -> count c = 0 ->
    (forall j c', (i < j)%nat -> slots !! j = Some c' -> count c' <> 0) ->
    exists min_ndx',
      scan_clients addr slots ndx empty_ndx min_ndx min_count
      = NotFound (ndx + Z.of_nat i) min_ndx'.
Proof.
  induction slots as [|c0 rest IH]; intros ndx e m mc i c Hall Hi Hc Hafter; [done|].
  pose proof (Hall 0%nat c0 eq_refl) as Ha. cbn [scan_clients].
  unfold ip_eqb. rewrite bool_decide_eq_false_2 by exact Ha.
  assert (Hall' : forall j c', rest !! j = Some c' -> ip_address c' <> addr).
  { intros j c' Hl. by apply (Hall (S j)). }
  destruct i as [|i]; [|change (rest !! i = Some c) in Hi].
  - injection Hi as ->. rewrite Hc. cbn [Z.eqb]. rewrite Z.add_0_r.
    assert (Hfull : forall j c', rest !! j = Some c' -> count c' <> 0).
    { intros j c' Hl. apply (Hafter (S j)); [lia|exact Hl]. }
    apply scan_clients_full. intros j c' Hl. split; [by apply (Hall' j)|by apply (Hfull j)].
  - assert (Hafter' : forall j c', (i < j)%nat -> rest !! j = Some c' -> count c' <> 0).
    { intros j c' Hj Hl. apply (Hafter (S j)); [lia|exact Hl]. }
    replace (ndx + Z.of_nat (S i)) with ((ndx + 1) + Z.of_nat i) by lia.
    destruct (count c0 =? 0); [|destruct (count c0 <? mc)]; by eapply IH.
Qed.

Lemma store_client_insert (tbl : list client_t) (i : nat) (c : client_t) :
  store_client tbl (Z.of_nat i) c = <[i := c]> tbl.
Proof.
  unfold store_client. destruct (Z.leb_spec 0 (Z.of_nat i)); [|lia].
  by rewrite Nat2Z.id.
Qed.

(** X11.  What [add_IP_address] does on every table but the one of C3 and C9:
    - an address that is in the table: the first slot that holds it is
      returned and the table is not touched;
    - a new address and a table with an empty slot: the last empty slot is
      initialised for it ([count = 1], [gave_password = false]);
    - a new address and a full table with a count below INT_MAX: the first
      of the slots with the least count is given to it.
    In each case the slot is in the table and no other slot changes. *)
Theorem add_IP_address_spec (addr : IPAddress) (tbl : list client_t) :
  (forall (i : nat) (c : client_t),
     tbl !! i = Some c -> ip_address c = addr ->
     (forall j c', (j < i)%nat -> tbl !! j = Some c' -> ip_address c' <> addr) ->
     add_IP_address addr tbl = (Z.of_nat i, tbl)) /\
  (forall (i : nat) (c : client_t),
     (forall j c', tbl !! j = Some c' -> ip_address c' <> addr) ->
     tbl !! i = Some c -> count c = 0 ->
     (forall j c', (i < j)%nat -> tbl !! j = Some c' -> count c' <> 0) ->
     add_IP_address addr tbl = (Z.of_nat i, <[i := new_client addr]> tbl)) /\
  (forall (i : nat) (c : client_t),
     (forall j c', tbl !! j = Some c' -> ip_address c' <> addr /\ count c' <> 0) ->
     tbl !! i = Some c -> count c < INT_MAX ->
     (forall j c', tbl !! j = Some c' -> count c <= count c') ->
     (forall j c', (j < i)%nat -> tbl !! j = Some c' -> count c < count c') ->
     add_IP_address addr tbl = (Z.of_nat i, <[i := new_client addr]> tbl)).
Proof.
  split; [|split].
  - intros i c Hi Hc Hfirst. unfold add_IP_address.
    pose proof (scan_clients_found addr tbl 0 (-1) (-1) INT_MAX i c Hi Hc Hfirst)
      as Hscan.
    rewrite Z.add_0_l in Hscan. by rewrite Hscan.
  - intros i c Hnew Hi Hc Hlast. unfold add_IP_address.
    destruct (scan_clients_empty addr tbl 0 (-1) (-1) INT_MAX i c Hnew Hi Hc Hlast)
      as [m Hscan].
    rewrite Z.add_0_l in Hscan. rewrite Hscan.
    destruct (Z.leb_spec 0 (Z.of_nat i)); [|lia].
    by rewrite store_client_insert.
  - intros i c Hfull Hi Hlt Hleast Hfirst. unfold add_IP_address.
    pose proof (scan_clients_min addr tbl 0 (-1) (-1) INT_MAX i c Hfull Hi Hlt
                  Hleast Hfirst) as Hscan.
    rewrite Z.add_0_l in Hscan. rewrite Hscan.
    change (0 <=? -1) with false. cbv iota.
    by rewrite store_client_insert.
Qed.

(** When the loop runs to its end, no slot holds the address. *)
Lemma scan_clients_not_found (addr : IPAddress) (slots : list client_t) :
  forall (ndx empty_ndx min_ndx min_count empty_ndx' min_ndx' : Z),
    scan_clients addr slots ndx empty_ndx min_ndx min_count
    = NotFound empty_ndx' min_ndx' ->
    forall j c', slots !! j = Some c' -> ip_address c' <> addr.
Proof.
  induction slots as [|c0 rest IH]; intros ndx e m mc e' m' Hscan j c' Hl; [done|].
  cbn [scan_clients] in Hscan. unfold ip_eqb in Hscan.
  destruct (bool_decide_reflect (ip_address c0 = addr)) as [|Hne]; [discriminate|].
  destruct j as [|j].
  - injection Hl as <-. exact Hne.
  - change (rest !! j = Some c') in Hl.
    destruct (count c0 =? 0); [|destruct (count c0 <? mc)]; by eapply IH.
Qed.

(** X27.  [add_IP_address] leaves the table alone or stores one new record, and
    only for an address that no slot holds; so it keeps the addresses of the
    slots in use distinct. *)
Theorem add_IP_address_keeps_addresses_unique (addr : IPAddress) (tbl : list client_t) :
  (snd (add_IP_address addr tbl) = tbl \/
   ((forall j c', tbl !! j = Some c' -> ip_address c' <> addr) /\
    snd (add_IP_address addr tbl)
    = store_client tbl (fst (add_IP_address addr tbl)) (new_client addr))) /\
  (unique_addresses tbl -> unique_addresses (snd (add_IP_address addr tbl))).
Proof.
  assert (Hcases :
    snd (add_IP_address addr tbl) = tbl \/
    ((forall j c', tbl !! j = Some c' -> ip_address c' <> addr) /\
     snd (add_IP_address addr tbl)
     = store_client tbl (fst (add_IP_address addr tbl)) (new_client addr))).
  { unfold add_IP_address.
    destruct (scan_clients addr tbl 0 (-1) (-1) INT_MAX) as [n|e m] eqn:Hscan;
      [by left|right].
    split; [by eapply scan_clients_not_found|reflexivity]. }
  split; [exact Hcases|].
  intros Huniq. destruct Hcases as [->|(Hnew & ->)]; [exact Huniq|].
  unfold store_client. destruct (0 <=? fst (add_IP_address addr tbl)); [|exact Huniq].
  set (n := Z.to_nat (fst (add_IP_address addr tbl))).
  intros j k c d Hj Hk Hc Hd Hip.
  destruct (decide (j = n)) as [->|Hjn], (decide (k = n)) as [->|Hkn]; [reflexivity| | |].
  - rewrite list_lookup_insert_ne in Hk by done.
    apply list_lookup_insert_Some in Hj as [(_ & <- & _)|(? & _)]; [|done].
    simpl in Hip. symmetry in Hip. by destruct (Hnew k d Hk).
  - rewrite list_lookup_insert_ne in Hj by done.
    apply list_lookup_insert_Some in Hk as [(_ & <- & _)|(? & _)]; [|done].
    simpl in Hip. by destruct (Hnew j c Hj).
  - rewrite list_lookup_insert_ne in Hj, Hk by done. by eapply Huniq.
Qed.

(** The indices that the loop remembers are those it started with or lie
    among the slots scanned. *)
Lemma scan_clients_bounds (addr : IPAddress) (slots : list client_t) :
  forall (ndx empty_ndx min_ndx min_count : Z),
    match scan_clients addr slots ndx empty_ndx min_ndx min_count with
    | Found n => ndx <= n < ndx + Z.of_nat (length slots)
    | NotFound e m =>
        (e = empty_ndx \/ ndx <= e < ndx + Z.of_nat (length slots)) /\
        (m = min_ndx \/ ndx <= m < ndx + Z.of_nat (length slots))
    end.
Proof.
  induction slots as [|c0 rest IH]; intros ndx e m mc; cbn [scan_clients length].
  - split; by left.
  - destruct (ip_eqb (ip_address c0) addr); [lia|].
    destruct (count c0 =? 0); [|destruct (count c0 <? mc)];
      match goal with
      | |- context [scan_clients addr rest ?n ?e' ?m' ?mc'] =>
          specialize (IH n e' m' mc');
          destruct (scan_clients addr rest n e' m' mc')
      end; lia.
Qed.

(** If a slot scanned is empty, the loop ends with an empty slot
    remembered; if one is in use with a count below [min_count], with a slot
    remembered for eviction. *)
Lemma scan_clients_remembers (addr : IPAddress) (slots : list client_t) :
  forall (ndx empty_ndx min_ndx min_count e m : Z),
    scan_clients addr slots ndx empty_ndx min_ndx min_count = NotFound e m ->
    ((exists c, In c slots /\ count c = 0) ->
     ndx <= e < ndx + Z.of_nat (length slots)) /\
    ((exists c, In c slots /\ count c <> 0 /\ count c < min_count) ->
     ndx <= m < ndx + Z.of_nat (length slots)).
Proof.
  induction slots as [|c0 rest IH]; intros ndx e0 m0 mc e m Hscan.
  - split; intros (c & [] & _).
  - cbn [scan_clients] in Hscan. cbn [length].
    destruct (ip_eqb (ip_address c0) addr); [discriminate|].
    destruct (Z.eqb_spec (count c0) 0) as [Hz|Hnz];
      [|destruct (Z.ltb_spec (count c0) mc) as [Hlt|Hge]];
      pose proof Hscan as Hb;
      match type of Hscan with
      | scan_clients addr rest ?n ?e' ?m' ?mc' = _ =>
          pose proof (scan_clients_bounds addr rest n e' m' mc') as Hbounds;
          rewrite Hscan in Hbounds;
          destruct (IH _ _ _ _ _ _ Hscan) as [IHe IHm]
      end;
      destruct Hbounds as [He Hm]; split.
    + intros _. lia.
    + intros (c & [<-|Hin] & Hc & Hlt); [done|].
      assert (ndx + 1 <= m < ndx + 1 + Z.of_nat (length rest)) by (apply IHm; eauto).
      lia.
    + intros (c & [<-|Hin] & Hc); [done|].
      assert (ndx + 1 <= e < ndx + 1 + Z.of_nat (length rest)) by (apply IHe; eauto).
      lia.
    + intros _. lia.
    + intros (c & [<-|Hin] & Hc); [done|].
      assert (ndx + 1 <= e < ndx + 1 + Z.of_nat (length rest)) by (apply IHe; eauto).
      lia.
    + intros (c & [<-|Hin] & Hc & Hlt); [lia|].
      assert (ndx + 1 <= m < ndx + 1 + Z.of_nat (length rest)) by (apply IHm; eauto).
      lia.
Qed.

(** X12.  The slot that [add_IP_address] returns lies in the table as soon as one
    slot holds the address or has a count below INT_MAX (an empty slot has):
    every table but those of C3 and C9. *)
Theorem add_IP_address_in_bounds (addr : IPAddress) (tbl : list client_t) :
  (exists c, In c tbl /\ (ip_address c = addr \/ count c < INT_MAX)) ->
  0 <= fst (add_IP_address addr tbl) < Z.of_nat (length tbl).
Proof.
  intros (c & Hin & Hc). unfold add_IP_address.
  pose proof (scan_clients_bounds addr tbl 0 (-1) (-1) INT_MAX) as Hbounds.
  destruct (scan_clients addr tbl 0 (-1) (-1) INT_MAX) as [n|e m] eqn:Hscan;
    [simpl; lia|].
  destruct (scan_clients_remembers addr tbl _ _ _ _ _ _ Hscan) as [He Hm].
  destruct Hbounds as [Hbe Hbm]. simpl.
  destruct (Z.leb_spec 0 e) as [Hpos|Hneg]; [lia|].
  destruct Hc as [Haddr|Hlt].
  - apply list_elem_of_In, list_elem_of_lookup in Hin as [j Hj].
    by destruct (scan_clients_not_found addr tbl _ _ _ _ _ _ Hscan j c Hj).
  - destruct (Z.eq_dec (count c) 0) as [Hz|Hnz].
    + assert (0 <= e < 0 + Z.of_nat (length tbl)) by (apply He; eauto). lia.
    + assert (0 <= m < 0 + Z.of_nat (length tbl)) by (apply Hm; eauto). lia.
Qed.

(** C3.  [add_IP_address] for a new address on the full table in which every
    count is INT_MAX: no count is below the starting value of [min_count], so
    no slot is remembered and none is evicted; the table is as before and the
    new address is in none of its slots. *)
Theorem C3_add_IP_address_evicts_nothing_when_saturated :
  length saturated_table = MAX_IP_ADDRESSES /\
  forallb (fun c => negb (ip_eqb (ip_address c) stranger) && (count c =? INT_MAX))
    saturated_table = true /\
  snd (add_IP_address stranger saturated_table) = saturated_table /\
  forallb (fun c => negb (ip_eqb (ip_address c) stranger))
    (snd (add_IP_address stranger saturated_table)) = true.
Proof. vm_compute. repeat split. Qed.

(** C9.  On that table the index that [add_IP_address] stores through and
    returns is -1: [clients[-1]], outside the table. *)
Theorem C9_add_IP_address_index_out_of_bounds :
  scan_clients stranger saturated_table 0 (-1) (-1) INT_MAX = NotFound (-1) (-1) /\
  fst (add_IP_address stranger saturated_table) = -1.
Proof. vm_compute. repeat split. Qed.
(* ===================================================================== *)
(** ** Output to the client *)

Lemma client_write_all (peer : list round_t) :
  forall (buf : list ascii) (written : list (list ascii)),
    Forall (fun r => is_connected r = true /\ (CHUNKSIZE <= takes r)%nat) peer ->
    (length buf <= CHUNKSIZE * length peer)%nat ->
    exists pieces,
      client_write peer buf written = Some (true, written ++ pieces) /\
      concat pieces = buf /\
      Forall (fun p => (0 < length p <= CHUNKSIZE)%nat) pieces /\
      length pieces = ((length buf + (CHUNKSIZE - 1)) / CHUNKSIZE)%nat.
Proof.
  unfold CHUNKSIZE.
  induction peer as [|r peer IH]; intros buf written Hpeer Hlen.
  - destruct buf as [|c buf]; [|simpl in Hlen; lia].
    exists []. simpl. by rewrite app_nil_r.
  - destruct buf as [|c buf].
    { exists []. simpl. by rewrite app_nil_r. }
    apply Forall_cons in Hpeer as [[Hconn Htakes] Hpeer].
    cbn [client_write]. rewrite Hconn. unfold CHUNKSIZE.
    set (b := c :: buf) in *.
    assert (Hb : (0 < length b)%nat) by (subst b; simpl; lia).
    set (offered := if (500 <? length b)%nat then 500%nat else length b).
    assert (Hoff : (offered = 500 /\ 500 < length b \/
                    offered = length b /\ length b <= 500)%nat).
    { subst offered. destruct (Nat.ltb_spec 500 (length b)); lia. }
    clearbody offered.
    replace (Nat.min (takes r) offered) with offered by lia.
    destruct (IH (drop offered b) (written ++ [take offered b]) Hpeer)
      as (pieces & Hw & Hcat & Hsizes & Hcount).
    { rewrite length_drop. cbn [length] in Hlen. lia. }
    exists (take offered b :: pieces). split; [|split; [|split]].
    + rewrite Hw. by rewrite <- app_assoc.
    + simpl. rewrite Hcat. apply take_drop.
    + constructor; [|exact Hsizes]. rewrite length_take. lia.
    + cbn [length]. rewrite Hcount, length_drop.
      destruct Hoff as [[-> Hbig]|[-> Hsmall]].
      * replace (length b + (500 - 1))%nat with ((length b - 500 + (500 - 1)) + 1 * 500)%nat
          by lia.
        rewrite Nat.div_add by lia. lia.
      * replace (length b - length b + (500 - 1))%nat with 499%nat by lia.
        change (499 / 500)%nat with 0%nat.
        apply (Nat.div_unique _ _ 1 (length b - 1)); lia.
Qed.

(** X1.  [client_write] on a connection that stays up and takes every piece
    it is offered: the function returns true, the pieces written are [buf]
    cut into pieces of CHUNKSIZE bytes (the last one may be shorter, none is
    empty), and there is one call of [write] for each. *)
Theorem client_write_sends_all (peer : list round_t) (buf : list ascii) :
  Forall (fun r => is_connected r = true /\ (CHUNKSIZE <= takes r)%nat) peer ->
  (length buf <= CHUNKSIZE * length peer)%nat ->
  exists pieces,
    client_write peer buf [] = Some (true, pieces) /\
    concat pieces = buf /\
    Forall (fun p => (0 < length p <= CHUNKSIZE)%nat) pieces /\
    length pieces = ((length buf + (CHUNKSIZE - 1)) / CHUNKSIZE)%nat.
Proof.
  intros Hpeer Hlen.
  destruct (client_write_all peer buf [] Hpeer Hlen) as (pieces & Hw & Hrest).
  exists pieces. split; [exact Hw|exact Hrest].
Qed.

Lemma client_write_sends_all_witness :
  exists pieces,
    client_write (replicate 3 (mk_round true 500)) (replicate 1200 "x"%char) []
    = Some (true, pieces) /\
    concat pieces = replicate 1200 "x"%char /\
    Forall (fun p => (0 < length p <= CHUNKSIZE)%nat) pieces /\
    length pieces
    = ((length (replicate 1200 "x"%char) + (CHUNKSIZE - 1)) / CHUNKSIZE)%nat.
Proof.
  apply client_write_sends_all.
  - simpl. repeat constructor.
  - rewrite length_replicate. unfold CHUNKSIZE. simpl. lia.
Defined.

Lemma client_write_written (peer : list round_t) :
  forall (buf : list ascii) (written : list (list ascii)) (ok : bool)
         (out : list (list ascii)),
    client_write peer buf written = Some (ok, out) ->
    exists pieces rest,
      out = written ++ pieces /\
      buf = concat pieces ++ rest /\
      Forall (fun p => (length p <= CHUNKSIZE)%nat) pieces /\
      (ok = true -> rest = []) /\
      (ok = false -> rest <> [] /\ Exists (fun r => is_connected r = false) peer).
Proof.
  induction peer as [|r peer IH]; intros buf written ok out Hw.
  - destruct buf as [|c buf]; [|discriminate].
    injection Hw as <- <-. exists [], []. rewrite app_nil_r.
    repeat split; done.
  - destruct buf as [|c buf].
    { injection Hw as <- <-. exists [], []. rewrite app_nil_r.
      repeat split; done. }
    cbn [client_write] in Hw. destruct (is_connected r) eqn:Hconn.
    + set (b := c :: buf) in *.
      set (n := Nat.min _ _) in Hw.
      assert (Hn : (n <= CHUNKSIZE)%nat).
      { subst n. destruct (Nat.ltb_spec CHUNKSIZE (length b)); lia. }
      clearbody n.
      destruct (IH _ _ _ _ Hw) as (pieces & rest & -> & Hbuf & Hsizes & Htrue & Hfalse).
      exists (take n b :: pieces), rest. split; [by rewrite <- app_assoc|].
      split; [|split; [|split]].
      * simpl. rewrite <- app_assoc, <- Hbuf. by rewrite take_drop.
      * constructor; [|exact Hsizes]. rewrite length_take. lia.
      * exact Htrue.
      * intros Hok. destruct (Hfalse Hok) as [Hrest Hex].
        split; [exact Hrest|by apply Exists_cons_tl].
    + injection Hw as <- <-. exists [], (c :: buf). rewrite app_nil_r.
      split; [done|]. split; [done|]. split; [constructor|]. split; [done|].
      intros _. split; [done|]. by apply Exists_cons_hd.
Qed.

(** X2.  Whatever the connection does, when [client_write] returns, the
    pieces it has written are a prefix of [buf], each of at most CHUNKSIZE
    bytes; it returns true exactly when all of [buf] has been written, and
    false only after the connection has reported that it is closed. *)
Theorem client_write_sends_a_prefix (peer : list round_t) (buf : list ascii)
    (ok : bool) (pieces : list (list ascii)) :
  client_write peer buf [] = Some (ok, pieces) ->
  Forall (fun p => (length p <= CHUNKSIZE)%nat) pieces /\
  (exists rest, buf = concat pieces ++ rest) /\
  (ok = true <-> concat pieces = buf) /\
  (ok = false -> Exists (fun r => is_connected r = false) peer).
Proof.
  intros Hw.
  destruct (client_write_written peer buf [] ok pieces Hw)
    as (pieces' & rest & Hout & Hbuf & Hsizes & Htrue & Hfalse).
  simpl in Hout. subst pieces'. split; [exact Hsizes|].
  split; [by exists rest|]. split; [split|].
  - intros Hok. rewrite Hbuf, (Htrue Hok). by rewrite app_nil_r.
  - intros Hall. destruct ok; [reflexivity|].
    destruct (Hfalse eq_refl) as [Hrest _].
    rewrite Hbuf in Hall. destruct rest as [|c rest]; [done|].
    apply (f_equal length) in Hall. rewrite length_app in Hall. simpl in Hall. lia.
  - intros Hok. by destruct (Hfalse Hok).
Qed.

Lemma client_write_sends_a_prefix_witness :
  Forall (fun p => (length p <= CHUNKSIZE)%nat) [replicate 500 "x"%char] /\
  (exists rest, replicate 700 "x"%char = concat [replicate 500 "x"%char] ++ rest) /\
  (false = true <-> concat [replicate 500 "x"%char] = replicate 700 "x"%char) /\
  (false = false ->
   Exists (fun r => is_connected r = false) [mk_round true 500; mk_round false 0]).
Proof.
  apply (client_write_sends_a_prefix [mk_round true 500; mk_round false 0]
           (replicate 700 "x"%char) false [replicate 500 "x"%char]).
  vm_compute. reflexivity.
Defined.

(** X3.  While the connection stays up and takes none of the bytes offered,
    [client_write] does not return: however many rounds the connection is
    followed for, the loop is still going with all of [buf] to send. *)
Theorem client_write_stalls (peer : list round_t) (buf : list ascii) :
  Forall (fun r => is_connected r = true /\ takes r = 0%nat) peer ->
  buf <> [] ->
  client_write peer buf [] = None.
Proof.
  intros Hpeer Hbuf. generalize (@nil (list ascii)) as written.
  induction peer as [|r peer IH]; intros written.
  - by destruct buf.
  - destruct buf as [|c buf]; [done|].
    apply Forall_cons in Hpeer as [[Hconn Htakes] Hpeer].
    cbn [client_write]. rewrite Hconn, Htakes. cbn [Nat.min drop].
    apply IH, Hpeer.
Qed.

Lemma client_write_stalls_witness :
  client_write (replicate 5 (mk_round true 0)) ["x"%char] [] = None.
Proof.
  apply client_write_stalls; [simpl; repeat constructor|discriminate].
Defined.

Lemma substring_0_length (n : nat) :
  forall s : string, (String.length (String.substring 0 n s) <= n)%nat.
Proof.
  induction n as [|n IH]; intros [|c s]; simpl; try lia.
  specialize (IH s). lia.
Qed.

Lemma substring_0_prefix (n : nat) :
  forall s : string, exists rest, s = (String.substring 0 n s ++ rest)%string.
Proof.
  induction n as [|n IH]; intros [|c s]; simpl.
  - by exists EmptyString.
  - by exists (String c s).
  - by exists EmptyString.
  - destruct (IH s) as [rest Hrest]. exists rest. by rewrite <- Hrest.
Qed.

Lemma substring_0_all (n : nat) :
  forall s : string, (String.length s <= n)%nat -> String.substring 0 n s = s.
Proof.
  induction n as [|n IH]; intros [|c s] Hlen; simpl in *; try done; try lia.
  rewrite IH by lia. done.
Qed.

Lemma cut_nul_length (s : string) : (String.length (cut_nul s) <= String.length s)%nat.
Proof.
  induction s as [|c s IH]; simpl; [lia|].
  destruct (c =? NUL)%char; simpl; lia.
Qed.

Lemma cut_nul_prefix (s : string) : exists rest, s = (cut_nul s ++ rest)%string.
Proof.
  induction s as [|c s IH]; simpl; [by exists EmptyString|].
  destruct (c =? NUL)%char; simpl; [by exists (String c s)|].
  destruct IH as [rest Hrest]. exists rest. by rewrite <- Hrest.
Qed.

Lemma length_list_ascii_of_string (s : string) :
  length (list_ascii_of_string s) = String.length s.
Proof. induction s as [|c s IH]; simpl; [done|by rewrite IH]. Qed.

Lemma list_ascii_of_string_app (s t : string) :
  list_ascii_of_string (s ++ t) = list_ascii_of_string s ++ list_ascii_of_string t.
Proof. induction s as [|c s IH]; simpl; [done|by rewrite IH]. Qed.

(** X4.  [client_printf] sends the start of the text, up to its first NUL
    and never more than MAXLINE - 1 bytes (a longer text is cut, without a
    word to the caller).  That is less than CHUNKSIZE: on a connection that
    is up and takes the bytes offered the text goes out in one [write], and
    an empty text in none. *)
Theorem client_printf_one_write (text : string) :
  let bytes := list_ascii_of_string (cut_nul (vsnprintf MAXLINE text)) in
  (length bytes <= MAXLINE - 1)%nat /\
  (exists rest, list_ascii_of_string text = bytes ++ rest) /\
  (forall (r : round_t) (peer : list round_t),
     is_connected r = true -> (length bytes <= takes r)%nat ->
     client_printf (r :: peer) text
     = Some (true, match bytes with [] => [] | _ => [bytes] end)).
Proof.
  intros bytes.
  assert (Hlen : (length bytes <= MAXLINE - 1)%nat).
  { subst bytes. rewrite length_list_ascii_of_string.
    pose proof (cut_nul_length (vsnprintf MAXLINE text)).
    pose proof (substring_0_length (MAXLINE - 1) text). unfold vsnprintf in *. lia. }
  split; [exact Hlen|]. split.
  - destruct (substring_0_prefix (MAXLINE - 1) text) as [rest1 H1].
    destruct (cut_nul_prefix (vsnprintf MAXLINE text)) as [rest2 H2].
    exists (list_ascii_of_string (rest2 ++ rest1)). subst bytes.
    rewrite <- list_ascii_of_string_app. f_equal.
    rewrite H1 at 1. fold (vsnprintf MAXLINE text). rewrite H2 at 1.
    clear. induction (cut_nul (vsnprintf MAXLINE text)) as [|c s IH]; simpl; [done|].
    by rewrite IH.
  - intros r peer Hconn Htakes. unfold client_printf. fold bytes. clearbody bytes.
    destruct bytes as [|c rest]; [reflexivity|].
    cbn [client_write]. rewrite Hconn.
    unfold MAXLINE in Hlen. unfold CHUNKSIZE.
    destruct (Nat.ltb_spec 500 (length (c :: rest))); [lia|].
    rewrite Nat.min_r by lia.
    rewrite drop_all, firstn_all. simpl. by destruct peer.
Qed.

(* ===================================================================== *)
(** ** Addresses as text *)

Lemma dec_digits_length (fuel : nat) :
  forall (k : nat) (n : Z) (acc : string),
    (1 <= k <= fuel)%nat -> 0 <= n < 10 ^ Z.of_nat k ->
    (String.length (dec_digits fuel n acc) <= k + String.length acc)%nat.
Proof.
  induction fuel as [|fuel IH]; intros k n acc Hk Hn; [lia|].
  cbn [dec_digits]. destruct (Z.ltb_spec n 10) as [Hsmall|Hbig]; [simpl; lia|].
  destruct k as [|[|k]]; [lia|change (10 ^ Z.of_nat 1) with 10 in Hn; lia|].
  assert (Hdiv : 0 <= n / 10 < 10 ^ Z.of_nat (S k)).
  { split; [apply Z.div_pos; lia|]. apply Z.div_lt_upper_bound; [lia|].
    replace (Z.of_nat (S (S k))) with (Z.succ (Z.of_nat (S k))) in Hn by lia.
    rewrite Z.pow_succ_r in Hn by lia. lia. }
  pose proof (IH (S k) (n / 10) (String (digit_char (n mod 10)) acc)
                ltac:(lia) Hdiv) as Hlen.
  simpl in Hlen. lia.
Qed.

Lemma printf_d_byte (b : Z) : is_byte b -> (String.length (printf_d b) <= 3)%nat.
Proof.
  intros Hb. unfold is_byte in Hb. unfold printf_d.
  destruct (Z.ltb_spec b 0); [lia|].
  pose proof (dec_digits_length 10 3 b EmptyString ltac:(lia)
                ltac:(change (10 ^ Z.of_nat 3) with 1000; lia)) as Hlen.
  cbn [String.length] in Hlen |- *. lia.
Qed.

Lemma printf_d_int (n : Z) :
  -2147483648 <= n <= 2147483647 -> (String.length (printf_d n) <= 11)%nat.
Proof.
  intros Hn. unfold printf_d. destruct (Z.ltb_spec n 0).
  - pose proof (dec_digits_length 10 10 (- n) EmptyString ltac:(lia)
                  ltac:(change (10 ^ Z.of_nat 10) with 10000000000; lia)) as Hlen.
    cbn [String.length] in Hlen |- *. lia.
  - pose proof (dec_digits_length 10 10 n EmptyString ltac:(lia)
                  ltac:(change (10 ^ Z.of_nat 10) with 10000000000; lia)) as Hlen.
    cbn [String.length] in Hlen |- *. lia.
Qed.

Lemma printf_d_port (n : Z) : 0 <= n < 65536 -> (String.length (printf_d n) <= 5)%nat.
Proof.
  intros Hn. unfold printf_d. destruct (Z.ltb_spec n 0); [lia|].
  pose proof (dec_digits_length 10 5 n EmptyString ltac:(lia)
                ltac:(change (10 ^ Z.of_nat 5) with 100000; lia)) as Hlen.
  cbn [String.length] in Hlen |- *. lia.
Qed.

Lemma string_length_app (s t : string) :
  String.length (s ++ t) = (String.length s + String.length t)%nat.
Proof. induction s as [|c s IH]; simpl; [done|by rewrite IH]. Qed.

(** X5.  [format_ip_address] never writes past the end of its buffer of 30
    bytes: for the four octets of an address and any [int] as the port the
    text has at most 27 characters, and at most 21 for a port below 65536. *)
Theorem format_ip_address_fits (WIFI_PORT a0 a1 a2 a3 : Z) :
  is_byte a0 -> is_byte a1 -> is_byte a2 -> is_byte a3 ->
  -2147483648 <= WIFI_PORT <= 2147483647 ->
  exists str,
    format_ip_address WIFI_PORT (a0, a1, a2, a3) = Some str /\
    str = (printf_d a0 ++ "." ++ printf_d a1 ++ "." ++ printf_d a2 ++ "."
           ++ printf_d a3 ++ ":" ++ printf_d WIFI_PORT)%string /\
    (String.length str <= 27)%nat /\
    (0 <= WIFI_PORT < 65536 -> (String.length str <= 21)%nat).
Proof.
  intros H0 H1 H2 H3 Hport.
  set (str := (printf_d a0 ++ "." ++ printf_d a1 ++ "." ++ printf_d a2 ++ "."
               ++ printf_d a3 ++ ":" ++ printf_d WIFI_PORT)%string).
  assert (Hlen : String.length str
                 = (String.length (printf_d a0) + String.length (printf_d a1)
                    + String.length (printf_d a2) + String.length (printf_d a3)
                    + String.length (printf_d WIFI_PORT) + 4)%nat).
  { subst str. rewrite !string_length_app. simpl. lia. }
  pose proof (printf_d_byte a0 H0). pose proof (printf_d_byte a1 H1).
  pose proof (printf_d_byte a2 H2). pose proof (printf_d_byte a3 H3).
  pose proof (printf_d_int WIFI_PORT Hport).
  exists str. split; [|split; [reflexivity|split]].
  - unfold format_ip_address, sprintf. fold str.
    destruct (Nat.ltb_spec (String.length str) 30); [reflexivity|lia].
  - lia.
  - intros Hp. pose proof (printf_d_port WIFI_PORT Hp). lia.
Qed.

Lemma format_ip_address_fits_witness :
  exists str,
    format_ip_address 8080 (255, 255, 255, 255) = Some str /\
    str = (printf_d 255 ++ "." ++ printf_d 255 ++ "." ++ printf_d 255 ++ "."
           ++ printf_d 255 ++ ":" ++ printf_d 8080)%string /\
    (String.length str <= 27)%nat /\
    (0 <= 8080 < 65536 -> (String.length str <= 21)%nat).
Proof.
  apply format_ip_address_fits; unfold is_byte; lia.
Defined.

Lemma printf_02X_byte (b : Z) :
  is_byte b ->
  printf_02X b = String (hex_char (b / 16)) (String (hex_char (b mod 16)) EmptyString).
Proof.
  intros Hb. unfold is_byte in Hb. unfold printf_02X.
  rewrite (Z.mod_small b 4294967296) by lia.
  cbn [hex_digits]. destruct (Z.ltb_spec b 16) as [Hsmall|Hbig].
  - rewrite (Z.div_small b 16) by lia. reflexivity.
  - assert (Hdiv : 0 <= b / 16 < 16).
    { split; [apply Z.div_pos; lia|apply Z.div_lt_upper_bound; lia]. }
    destruct (Z.ltb_spec (b / 16) 16); [|lia].
    rewrite (Z.mod_small (b / 16) 16) by lia. reflexivity.
Qed.

Lemma hex_char_inj (a b : Z) :
  0 <= a < 16 -> 0 <= b < 16 -> hex_char a = hex_char b -> a = b.
Proof.
  intros Ha Hb Heq. apply (f_equal nat_of_ascii) in Heq. unfold hex_char in Heq.
  destruct (Z.ltb_spec a 10), (Z.ltb_spec b 10);
    rewrite !nat_ascii_embedding in Heq by lia; lia.
Qed.

Lemma printf_02X_inj (a b : Z) :
  is_byte a -> is_byte b -> printf_02X a = printf_02X b -> a = b.
Proof.
  intros Ha Hb Heq. rewrite !printf_02X_byte in Heq by assumption.
  unfold is_byte in *. injection Heq as Hhi Hlo.
  apply hex_char_inj in Hhi; [|split; [apply Z.div_pos|apply Z.div_lt_upper_bound]; lia..].
  apply hex_char_inj in Hlo; [|apply Z.mod_pos_bound; lia..].
  rewrite (Z.div_mod a 16), (Z.div_mod b 16) by lia. lia.
Qed.

Lemma format_mac_address_bytes (m0 m1 m2 m3 m4 m5 : Z) :
  is_byte m0 -> is_byte m1 -> is_byte m2 -> is_byte m3 -> is_byte m4 -> is_byte m5 ->
  format_mac_address [m0; m1; m2; m3; m4; m5]
  = Some (printf_02X m5 ++ "-" ++ printf_02X m4 ++ "-" ++ printf_02X m3 ++ "-"
          ++ printf_02X m2 ++ "-" ++ printf_02X m1 ++ "-" ++ printf_02X m0)%string.
Proof.
  intros H0 H1 H2 H3 H4 H5. unfold format_mac_address. cbn [lookup list_lookup mbind option_bind].
  rewrite !printf_02X_byte by assumption. reflexivity.
Qed.

(** X6.  [format_mac_address] on the six bytes of a MAC address: the text
    has 17 characters (it fits the buffer of 30 bytes and a row of the LCD),
    it starts with the two hexadecimal digits of [mac[5]], the last byte, and
    two addresses with the same text are the same address. *)
Theorem format_mac_address_spec (mac : list Z) :
  length mac = 6%nat -> Forall is_byte mac ->
  exists str,
    format_mac_address mac = Some str /\
    String.length str = 17%nat /\
    (forall m5, mac !! 5%nat = Some m5 -> String.substring 0 2 str = printf_02X m5) /\
    (forall mac', length mac' = 6%nat -> Forall is_byte mac' ->
                  format_mac_address mac' = Some str -> mac' = mac).
Proof.
  intros Hlen Hbytes.
  destruct mac as [|m0 [|m1 [|m2 [|m3 [|m4 [|m5 [|]]]]]]]; try discriminate.
  repeat (apply Forall_cons in Hbytes as [? Hbytes]).
  eexists. split; [by apply format_mac_address_bytes|].
  rewrite !printf_02X_byte by assumption.
  split; [reflexivity|]. split.
  - intros m Hm. injection Hm as <-. by rewrite printf_02X_byte.
  - intros mac' Hlen' Hbytes' Hfmt.
    destruct mac' as [|n0 [|n1 [|n2 [|n3 [|n4 [|n5 [|]]]]]]]; try discriminate.
    repeat (apply Forall_cons in Hbytes' as [? Hbytes']).
    rewrite format_mac_address_bytes in Hfmt by assumption.
    rewrite !printf_02X_byte in Hfmt by assumption.
    injection Hfmt as E5a E5b E4a E4b E3a E3b E2a E2b E1a E1b E0a E0b.
    assert (Hinj : forall a b, is_byte a -> is_byte b ->
                     hex_char (a / 16) = hex_char (b / 16) ->
                     hex_char (a mod 16) = hex_char (b mod 16) -> a = b).
    { intros a b Ha Hb Hhi Hlo. apply printf_02X_inj; [done..|].
      rewrite !printf_02X_byte by assumption. by rewrite Hhi, Hlo. }
    f_equal; [|f_equal; [|f_equal; [|f_equal; [|f_equal; [|f_equal]]]]]; by apply Hinj.
Qed.

Lemma format_mac_address_spec_witness :
  exists str,
    format_mac_address [1; 2; 3; 171; 205; 239] = Some str /\
    String.length str = 17%nat /\
    (forall m5, [1; 2; 3; 171; 205; 239] !! 5%nat = Some m5 ->
                String.substring 0 2 str = printf_02X m5) /\
    (forall mac', length mac' = 6%nat -> Forall is_byte mac' ->
                  format_mac_address mac' = Some str -> mac' = [1; 2; 3; 171; 205; 239]).
Proof.
  apply format_mac_address_spec; [reflexivity|].
  repeat constructor; unfold is_byte; lia.
Defined.

Lemma format_ip_address_length (WIFI_PORT : Z) (addr : IPAddress) :
  is_address addr -> is_int WIFI_PORT ->
  exists str, format_ip_address WIFI_PORT addr = Some str /\
              (String.length str <= 27)%nat.
Proof.
  destruct addr as [[[a0 a1] a2] a3]. intros (H0 & H1 & H2 & H3) Hport.
  unfold format_ip_address, sprintf.
  set (str := (printf_d a0 ++ "." ++ printf_d a1 ++ "." ++ printf_d a2 ++ "."
               ++ printf_d a3 ++ ":" ++ printf_d WIFI_PORT)%string).
  assert (Hlen : (String.length str <= 27)%nat).
  { subst str. rewrite !string_length_app. simpl.
    pose proof (printf_d_byte a0 H0). pose proof (printf_d_byte a1 H1).
    pose proof (printf_d_byte a2 H2). pose proof (printf_d_byte a3 H3).
    pose proof (printf_d_int WIFI_PORT Hport). lia. }
  exists str. split; [|exact Hlen].
  destruct (Nat.ltb_spec (String.length str) 30); [reflexivity|lia].
Qed.

(** X29.  A line of the visitors page is never cut: for a record with an
    address of four octets and a count in the range of [long], and any
    [int] as the port, [format_ip_address] stays inside its buffer and the
    line "IP ... visited ... times ...<br>" has at most 82 characters, less
    than the MAXLINE - 1 that [client_printf] can send. *)
Theorem visitor_line_fits (WIFI_PORT : Z) (c : client_t) :
  is_address (ip_address c) -> is_int WIFI_PORT -> is_int (count c) ->
  exists text,
    visitor_line WIFI_PORT c = Some text /\
    (String.length text <= 82)%nat /\
    vsnprintf MAXLINE text = text.
Proof.
  intros Haddr Hport Hcount.
  destruct (format_ip_address_length WIFI_PORT (ip_address c) Haddr Hport)
    as (ip & Hip & Hlen).
  unfold visitor_line. rewrite Hip. cbn [mbind option_bind].
  eexists. split; [reflexivity|].
  match goal with |- (String.length ?t <= 82)%nat /\ _ => set (text := t) end.
  assert (Htext : (String.length text <= 82)%nat).
  { subst text. rewrite !string_length_app.
    pose proof (printf_d_int (count c) Hcount).
    destruct (gave_password c); simpl; lia. }
  clearbody text. split; [exact Htext|].
  unfold vsnprintf. apply substring_0_all. unfold MAXLINE. lia.
Qed.

Lemma visitor_line_fits_witness :
  exists text,
    visitor_line 8080 {| ip_address := owner; count := 5; gave_password := true |}
    = Some text /\
    (String.length text <= 82)%nat /\
    vsnprintf MAXLINE text = text.
Proof.
  apply visitor_line_fits; unfold is_address, is_int, is_byte; simpl; lia.
Defined.

(* ===================================================================== *)
(** ** Request lines *)

Lemma readBytesUntil_split (t : ascii) (n : nat) :
  forall input : string,
    let line := fst (readBytesUntil t n input) in
    let rest := snd (readBytesUntil t n input) in
    (String.length line <= n)%nat /\
    free_of t line = true /\
    (input = (line ++ String t rest)%string \/
     (input = (line ++ rest)%string /\
      (rest = EmptyString \/ String.length line = n))).
Proof.
  induction n as [|n IH]; intros input; simpl.
  - split; [lia|]. split; [done|]. right. split; [done|by right].
  - destruct input as [|c input]; simpl.
    + split; [lia|]. split; [done|]. right. split; [done|by left].
    + destruct (Ascii.eqb_spec c t) as [->|Hne]; simpl.
      * split; [lia|]. split; [done|]. by left.
      * specialize (IH input). simpl in IH.
        destruct (readBytesUntil t n input) as [line rest]. simpl in *.
        destruct IH as (Hlen & Hfree & Hcases).
        split; [lia|]. split.
        { apply andb_true_iff. split; [|exact Hfree].
          apply negb_true_iff. by apply Ascii.eqb_neq. }
        destruct Hcases as [->|[-> [->|Hfull]]]; [by left|right..].
        -- split; [done|by left].
        -- split; [done|right; lia].
Qed.

(** X7.  [get_request_line] takes the bytes up to the next line feed off the
    connection, but never more than MAXLINE - 1 of them: the line it stores
    has no line feed in it, and the input is the line, the line feed and the
    rest; or, when there was no line feed within reach, the line and the
    rest, with the connection drained or the line MAXLINE - 1 bytes long (a
    longer line is read in pieces, none of its bytes is lost). *)
Theorem get_request_line_split (input : string) :
  let line := fst (get_request_line input) in
  let rest := snd (get_request_line input) in
  (String.length line <= MAXLINE - 1)%nat /\
  free_of LF line = true /\
  (input = (line ++ String LF rest)%string \/
   (input = (line ++ rest)%string /\
    (rest = EmptyString \/ String.length line = (MAXLINE - 1)%nat))).
Proof. apply readBytesUntil_split. Qed.

Lemma readBytesUntil_line (t : ascii) (line rest : string) :
  forall n : nat,
    free_of t line = true -> (String.length line < n)%nat ->
    readBytesUntil t n (line ++ String t rest) = (line, rest).
Proof.
  induction line as [|c line IH]; intros n Hfree Hlen.
  - destruct n as [|n]; [simpl in Hlen; lia|]. simpl. by rewrite Ascii.eqb_refl.
  - destruct n as [|n]; [simpl in Hlen; lia|]. simpl in *.
    apply andb_true_iff in Hfree as [Hc Hfree].
    apply negb_true_iff in Hc. rewrite Hc.
    by rewrite IH by (done || lia).
Qed.

Lemma readBytesUntil_last (t : ascii) (line : string) :
  forall n : nat,
    free_of t line = true -> (String.length line < n)%nat ->
    readBytesUntil t n line = (line, EmptyString).
Proof.
  induction line as [|c line IH]; intros n Hfree Hlen.
  - by destruct n.
  - destruct n as [|n]; [simpl in Hlen; lia|]. simpl in *.
    apply andb_true_iff in Hfree as [Hc Hfree].
    apply negb_true_iff in Hc. rewrite Hc.
    by rewrite IH by (done || lia).
Qed.

Lemma join_lines_length (lines : list string) (rest : string) :
  (String.length rest <= String.length (join_lines lines rest))%nat.
Proof.
  induction lines as [|l lines IH]; simpl; [lia|].
  rewrite string_length_app. simpl. lia.
Qed.

Lemma while_get_request_line_step {A : Type} (body : string -> A -> A)
    (line rest : string) (acc : A) :
  full_line line = true ->
  while_get_request_line body (line ++ String LF rest) acc
  = while_get_request_line body rest (body line acc).
Proof.
  intros Hline. unfold full_line in Hline.
  apply andb_true_iff in Hline as [Hline Hfree].
  apply andb_true_iff in Hline as [Hmin Hmax].
  apply Nat.leb_le in Hmin, Hmax. unfold MAXLINE in Hmax.
  unfold while_get_request_line at 1. cbn [request_loop].
  unfold get_request_line. rewrite readBytesUntil_line by (done || unfold MAXLINE; lia).
  destruct (Nat.ltb_spec 1 (String.length line)); [|lia].
  apply request_loop_fuel. rewrite string_length_app. simpl. lia.
Qed.

(** X8.  The loop [while (get_request_line(pclient, linebuf))] over a request
    that has the lines [lines], each followed by a line feed, then a line of
    less than two bytes (the empty line of HTTP) and its line feed, and then
    [rest]: the body of the loop is run on each of [lines] in order, the loop
    ends at the short line, and [rest], the body of the request, is left on
    the connection.  Each line has to have at least two bytes, no more than
    MAXLINE - 2, and no line feed. *)
Theorem while_get_request_line_stops_at_short_line {A : Type}
    (body : string -> A -> A) (lines : list string) (stop rest : string) (acc : A) :
  forallb full_line lines = true -> end_line stop = true ->
  while_get_request_line body (join_lines lines (stop ++ String LF rest)) acc
  = (fold_left (fun a line => body line a) lines acc, rest).
Proof.
  intros Hlines Hstop. revert acc.
  induction lines as [|line lines IH]; intros acc.
  - unfold end_line in Hstop. apply andb_true_iff in Hstop as [Hlen Hfree].
    apply Nat.leb_le in Hlen.
    cbn [join_lines fold_left]. unfold while_get_request_line. cbn [request_loop].
    unfold get_request_line.
    rewrite readBytesUntil_line by (done || unfold MAXLINE; simpl; lia).
    by destruct (Nat.ltb_spec 1 (String.length stop)); [lia|].
  - cbn [forallb] in Hlines. apply andb_true_iff in Hlines as [Hline Hlines].
    cbn [join_lines fold_left].
    rewrite while_get_request_line_step by exact Hline. by apply IH.
Qed.

Lemma while_get_request_line_stops_at_short_line_witness :
  while_get_request_line collect
    (join_lines [ String.append "GET / HTTP/1.1" (String "013"%char EmptyString);
                  String.append "Host: generator" (String "013"%char EmptyString) ]
       (String.append (String "013"%char EmptyString) (String LF "BUTTON=2"))) []
  = (fold_left (fun a line => collect line a)
       [ String.append "GET / HTTP/1.1" (String "013"%char EmptyString);
         String.append "Host: generator" (String "013"%char EmptyString) ] [],
     "BUTTON=2").
Proof.
  apply (while_get_request_line_stops_at_short_line collect
           [ String.append "GET / HTTP/1.1" (String "013"%char EmptyString);
             String.append "Host: generator" (String "013"%char EmptyString) ]
           (String "013"%char EmptyString) "BUTTON=2" []); reflexivity.
Defined.

Lemma request_loop_lines (fuel : nat) :
  forall input : string,
    Forall (fun line => (2 <= String.length line <= MAXLINE - 1)%nat)
      (fst (request_loop fuel collect input [])) /\
    (2 * length (fst (request_loop fuel collect input []))
     + String.length (snd (request_loop fuel collect input []))
     <= String.length input)%nat.
Proof.
  induction fuel as [|fuel IH]; intros input; cbn [request_loop].
  - simpl. split; [constructor|lia].
  - pose proof (readBytesUntil_length LF (MAXLINE - 1) input) as Hlen.
    pose proof (readBytesUntil_split LF (MAXLINE - 1) input) as (Hmax & _).
    unfold get_request_line in *.
    destruct (readBytesUntil LF (MAXLINE - 1) input) as [line input'].
    simpl in Hlen, Hmax.
    destruct (Nat.ltb_spec 1 (String.length line)) as [Hgo|Hstop].
    + rewrite request_loop_collect. cbn [fst snd].
      destruct (IH input') as [Hall Hsum]. split.
      * unfold collect at 1. simpl. constructor; [lia|exact Hall].
      * unfold collect at 1. cbn [app length]. lia.
    + simpl. split; [constructor|lia].
Qed.

(** X9.  The loop over the request lines ends on every input: each line it
    hands to its body has between 2 and MAXLINE - 1 bytes, so there are at
    most half as many lines as the input has bytes, and with more rounds
    allowed than the input has bytes the loop gives the run of its body over
    those lines, whatever the number of rounds allowed. *)
Theorem while_get_request_line_ends (input : string) :
  Forall (fun line => (2 <= String.length line <= MAXLINE - 1)%nat)
    (request_lines input) /\
  (2 * length (request_lines input) <= String.length input)%nat /\
  (forall (A : Type) (body : string -> A -> A) (acc : A) (fuel : nat),
     (String.length input < fuel)%nat ->
     request_loop fuel body input acc
     = (fold_left (fun a line => body line a) (request_lines input) acc,
        snd (while_get_request_line collect input []))).
Proof.
  destruct (request_loop_lines (S (String.length input)) input) as [Hall Hsum].
  split; [exact Hall|]. split.
  - unfold request_lines, while_get_request_line. lia.
  - intros A body acc fuel Hfuel.
    rewrite (request_loop_fuel body fuel input acc Hfuel).
    unfold while_get_request_line at 1. by rewrite request_loop_fold.
Qed.

Lemma readBytesUntil_full (t : ascii) (piece : string) :
  forall rest : string,
    free_of t piece = true ->
    readBytesUntil t (String.length piece) (piece ++ rest) = (piece, rest).
Proof.
  induction piece as [|c piece IH]; intros rest Hfree; simpl in *; [reflexivity|].
  apply andb_true_iff in Hfree as [Hc Hfree]. apply negb_true_iff in Hc.
  by rewrite Hc, IH.
Qed.

(** X28.  A line of MAXLINE - 1 bytes or more is read in pieces.  When the
    next MAXLINE - 1 bytes on the connection hold no line feed, the loop over
    the request lines runs its body on them as a line and goes on with the
    bytes behind; if those start with the line feed of that line, the next
    read stores nothing and the loop ends there: a line of exactly
    MAXLINE - 1 bytes ends the loop like an empty line, and what follows it
    is left unread. *)
Theorem while_get_request_line_long_line {A : Type} (body : string -> A -> A)
    (piece rest : string) (acc : A) :
  String.length piece = (MAXLINE - 1)%nat -> free_of LF piece = true ->
  while_get_request_line body (piece ++ rest) acc
  = while_get_request_line body rest (body piece acc) /\
  while_get_request_line body (piece ++ String LF rest) acc = (body piece acc, rest).
Proof.
  intros Hlen Hfree.
  assert (Hstep : forall rest',
            while_get_request_line body (piece ++ rest') acc
            = while_get_request_line body rest' (body piece acc)).
  { intros rest'. unfold while_get_request_line at 1. cbn [request_loop].
    unfold get_request_line. rewrite <- Hlen, readBytesUntil_full by exact Hfree.
    rewrite Hlen. change (1 <? MAXLINE - 1)%nat with true. cbv iota.
    apply request_loop_fuel. rewrite string_length_app. unfold MAXLINE in Hlen. lia. }
  split; [apply Hstep|].
  rewrite Hstep. unfold while_get_request_line. cbn [request_loop].
  unfold get_request_line. change (MAXLINE - 1)%nat with (S 498). cbn [readBytesUntil].
  by rewrite Ascii.eqb_refl.
Qed.

Lemma while_get_request_line_long_line_witness :
  while_get_request_line collect
    (string_of_list_ascii (replicate 499 "x"%char) ++ "BUTTON=2") []
  = while_get_request_line collect "BUTTON=2"
      (collect (string_of_list_ascii (replicate 499 "x"%char)) []) /\
  while_get_request_line collect
    (string_of_list_ascii (replicate 499 "x"%char) ++ String LF "BUTTON=2") []
  = (collect (string_of_list_ascii (replicate 499 "x"%char)) [], "BUTTON=2").
Proof.
  apply while_get_request_line_long_line; reflexivity.
Defined.

(* ===================================================================== *)
(** ** The visitor table, once more *)

Lemma add_IP_address_in_bounds_witness :
  0 <= fst (add_IP_address stranger sample_clients) < Z.of_nat (length sample_clients).
Proof.
  apply add_IP_address_in_bounds.
  exists {| ip_address := owner; count := 5; gave_password := true |}.
  split; [left; reflexivity|right; unfold INT_MAX; simpl; lia].
Defined.

Lemma add_IP_address_spec_witness :
  add_IP_address owner sample_clients = (Z.of_nat 0, sample_clients) /\
  add_IP_address stranger sample_clients
  = (Z.of_nat 24, <[24%nat := new_client stranger]> sample_clients) /\
  add_IP_address stranger busy_table
  = (Z.of_nat 0, <[0%nat := new_client stranger]> busy_table).
Proof.
  split; [|split].
  - apply (proj1 (add_IP_address_spec owner sample_clients) 0%nat
             {| ip_address := owner; count := 5; gave_password := true |});
      [reflexivity|reflexivity|intros j c' Hj; lia].
  - apply (proj1 (proj2 (add_IP_address_spec stranger sample_clients)) 24%nat
             no_client_slot).
    + intros j c' Hj. do 25 (destruct j as [|j]; [injection Hj as <-; discriminate|]).
      discriminate.
    + reflexivity.
    + reflexivity.
    + intros j c' Hlt Hj. do 25 (destruct j as [|j]; [lia|]). discriminate.
  - apply (proj2 (proj2 (add_IP_address_spec stranger busy_table)) 0%nat
             {| ip_address := (10, 0, 0, 1); count := 6; gave_password := true |}).
    + intros j c' Hj.
      do 25 (destruct j as [|j]; [injection Hj as <-; split; discriminate|]).
      discriminate.
    + reflexivity.
    + reflexivity.
    + intros j c' Hj.
      do 25 (destruct j as [|j]; [injection Hj as <-; vm_compute; discriminate|]).
      discriminate.
    + intros j c' Hlt. lia.
Defined.

(** When the loop returns early, it is at the first slot that holds the
    address. *)
Lemma scan_clients_found_first (addr : IPAddress) (slots : list client_t) :
  forall (ndx empty_ndx min_ndx min_count n : Z),
    scan_clients addr slots ndx empty_ndx min_ndx min_count = Found n ->
    exists (i : nat) (c : client_t),
      n = ndx + Z.of_nat i /\ slots !! i = Some c /\ ip_address c = addr /\
      forall j c', (j < i)%nat -> slots !! j = Some c' -> ip_address c' <> addr.
Proof.
  induction slots as [|c0 rest IH]; intros ndx e m mc n Hscan; [discriminate|].
  cbn [scan_clients] in Hscan. unfold ip_eqb in Hscan.
  destruct (bool_decide_reflect (ip_address c0 = addr)) as [Heq|Hne].
  - injection Hscan as <-. exists 0%nat, c0. split; [lia|]. split; [done|].
    split; [exact Heq|]. intros j c' Hj. lia.
  - assert (Hrest : exists n' e' m' mc',
               scan_clients addr rest n' e' m' mc' = Found n /\ n' = ndx + 1).
    { destruct (count c0 =? 0); [|destruct (count c0 <? mc)]; eauto 10. }
    destruct Hrest as (n' & e' & m' & mc' & Hscan' & ->).
    destruct (IH _ _ _ _ _ Hscan') as (i & c & -> & Hi & Hc & Hfirst).
    exists (S i), c. split; [lia|]. split; [exact Hi|]. split; [exact Hc|].
    intros [|j] c' Hj Hl.
    + injection Hl as <-. exact Hne.
    + apply (Hfirst j c'); [lia|exact Hl].
Qed.

(** The slot that [add_IP_address] returns, when it lies in the table, is
    the first slot of the table afterwards that holds the address. *)
Lemma add_IP_address_first (addr : IPAddress) (tbl : list client_t) :
  0 <= fst (add_IP_address addr tbl) < Z.of_nat (length tbl) ->
  exists (i : nat) (c : client_t),
    fst (add_IP_address addr tbl) = Z.of_nat i /\
    snd (add_IP_address addr tbl) !! i = Some c /\ ip_address c = addr /\
    forall j c', (j < i)%nat -> snd (add_IP_address addr tbl) !! j = Some c' ->
                 ip_address c' <> addr.
Proof.
  unfold add_IP_address.
  destruct (scan_clients addr tbl 0 (-1) (-1) INT_MAX) as [n|e m] eqn:Hscan;
    cbn [fst snd]; intros Hn.
  - destruct (scan_clients_found_first _ _ _ _ _ _ _ Hscan) as (i & c & -> & Hrest).
    exists i, c. split; [lia|exact Hrest].
  - set (n := if 0 <=? e then e else m) in *.
    exists (Z.to_nat n), (new_client addr).
    split; [lia|]. unfold store_client.
    destruct (Z.leb_spec 0 n); [|lia].
    split; [apply list_lookup_insert_eq; lia|]. split; [reflexivity|].
    intros j c' Hj Hl. rewrite list_lookup_insert_ne in Hl by lia.
    by eapply scan_clients_not_found.
Qed.

(** A table in which slot [i] is the first to hold the address is left as
    it is, and slot [i] is returned. *)
Lemma add_IP_address_known (addr : IPAddress) (tbl : list client_t) (i : nat)
    (c : client_t) :
  tbl !! i = Some c -> ip_address c = addr ->
  (forall j c', (j < i)%nat -> tbl !! j = Some c' -> ip_address c' <> addr) ->
  add_IP_address addr tbl = (Z.of_nat i, tbl).
Proof.
  intros Hi Hc Hfirst. unfold add_IP_address.
  pose proof (scan_clients_found addr tbl 0 (-1) (-1) INT_MAX i c Hi Hc Hfirst) as Hscan.
  rewrite Z.add_0_l in Hscan. by rewrite Hscan.
Qed.




(** X13.  Asking again gives the same answer: when the slot that
    [add_IP_address] returns lies in the table, that slot holds the address
    afterwards, and a second call for the same address returns the same slot
    and leaves the table as the first call left it. *)
Theorem add_IP_address_again (addr : IPAddress) (tbl : list client_t) :
  0 <= fst (add_IP_address addr tbl) < Z.of_nat (length tbl) ->
  ip_address (client_at (snd (add_IP_address addr tbl)) (fst (add_IP_address addr tbl)))
  = addr /\
  add_IP_address addr (snd (add_IP_address addr tbl)) = add_IP_address addr tbl.
Proof.
  intros Hn. destruct (add_IP_address_first addr tbl Hn) as (i & c & Hi & Hl & Hc & Hfirst).
  split.
  - rewrite Hi. unfold client_at. destruct (Z.leb_spec 0 (Z.of_nat i)); [|lia].
    by rewrite Nat2Z.id, Hl.
  - rewrite (add_IP_address_known addr _ i c Hl Hc Hfirst).
    rewrite <- Hi. by destruct (add_IP_address addr tbl).
Qed.

Lemma add_IP_address_again_witness :
  ip_address (client_at (snd (add_IP_address stranger sample_clients))
                (fst (add_IP_address stranger sample_clients)))
  = stranger /\
  add_IP_address stranger (snd (add_IP_address stranger sample_clients))
  = add_IP_address stranger sample_clients.
Proof.
  apply add_IP_address_again. vm_compute. split; [discriminate|reflexivity].
Defined.

(* ===================================================================== *)
(** ** From one request to the next *)

Section Sessions.

Variable scan_key : string -> string -> bool * string.
Variable scan_int : string -> Z -> Z -> option (Z * string).

Local Abbreviation process_client_request := (process_client_request scan_key scan_int).
Local Abbreviation request_type_of := (request_type_of scan_key).
Local Abbreviation request_body := (request_body scan_key).
Local Abbreviation body_lines := (body_lines scan_key).
Local Abbreviation body_buttons := (body_buttons scan_key scan_int).
Local Abbreviation password_line := (password_line scan_key).
Local Abbreviation counted := (counted scan_key).

(** The record of the peer in the table with which the response is chosen:
    the record that [add_IP_address] returned, with the request counted. *)
Lemma counted_record (s : web) :
  0 <= peer_slot s < Z.of_nat (length (clients s)) ->
  exists i : nat,
    peer_slot s = Z.of_nat i /\
    current_client (counted s) = Z.of_nat i /\
    clients (counted s) !! i
    = Some {| ip_address := remoteIP (client s);
              count := wrap_long (count (peer_record s) + 1);
              gave_password := gave_password (peer_record s) |} /\
    forall j c', (j < i)%nat -> clients (counted s) !! j = Some c' ->
                 ip_address c' <> remoteIP (client s).
Proof.
  intros Hn. unfold peer_slot in Hn.
  destruct (add_IP_address_first _ _ Hn) as (i & c & Hi & Hl & Hc & Hfirst).
  exists i. split; [exact Hi|]. split; [exact Hi|].
  assert (Hrec : client_at (snd (add_IP_address (remoteIP (client s)) (clients s)))
                   (peer_slot s) = c).
  { unfold peer_slot. rewrite Hi. unfold client_at.
    destruct (Z.leb_spec 0 (Z.of_nat i)); [|lia]. by rewrite Nat2Z.id, Hl. }
  unfold counted, count_request. simpl. unfold peer_record. rewrite Hrec.
  unfold peer_slot. rewrite Hi, store_client_insert, Hc. split.
  - apply list_lookup_insert_eq. by eapply lookup_lt_Some.
  - intros j c' Hj Hl'. rewrite list_lookup_insert_ne in Hl' by lia.
    by eapply Hfirst.
Qed.

(** [current_client->gave_password = true] through a pointer into the
    table. *)
Lemma set_gave_password_lookup (t : web) (i : nat) (c : client_t) :
  current_client t = Z.of_nat i -> clients t !! i = Some c ->
  clients (set_gave_password t)
  = <[i := {| ip_address := ip_address c; count := count c;
              gave_password := true |}]> (clients t).
Proof.
  intros Hcur Hl. unfold set_gave_password. simpl.
  rewrite Hcur, store_client_insert. unfold client_at.
  destruct (Z.leb_spec 0 (Z.of_nat i)); [|lia]. by rewrite Nat2Z.id, Hl.
Qed.

(** The same, for a request that gives the password. *)
Lemma password_record (s : web) :
  0 <= peer_slot s < Z.of_nat (length (clients s)) ->
  exists (i : nat) (c : client_t),
    clients (set_gave_password (counted s)) !! i = Some c /\
    ip_address c = remoteIP (client s) /\ gave_password c = true /\
    forall j c', (j < i)%nat -> clients (set_gave_password (counted s)) !! j = Some c' ->
                 ip_address c' <> remoteIP (client s).
Proof.
  intros Hn. destruct (counted_record s Hn) as (i & _ & Hcur & Hl & Hfirst).
  exists i. eexists. rewrite (set_gave_password_lookup (counted s) i _ Hcur Hl).
  split; [|split; [|split]].
  - apply list_lookup_insert_eq. by eapply lookup_lt_Some.
  - reflexivity.
  - reflexivity.
  - intros j c' Hj Hl'. rewrite list_lookup_insert_ne in Hl' by lia.
    by eapply Hfirst.
Qed.

(** X18.  The password is given once: after a setpass request with a body
    line that gives the password, from a peer whose record lies in the
    table, a later pushbutton request from the same address finds the
    password flag set in its record, as long as the table has not changed in
    between; if its body names one button, that button is queued and the
    delayed response is armed, without a response in that call. *)
Theorem password_opens_the_buttons (m1 m2 i : Z) (s s' : web) :
  request_type_of (inbuf (client s)) = REQ_SETPASS ->
  existsb password_line (body_lines s) = true ->
  0 <= peer_slot s < Z.of_nat (length (clients s)) ->
  clients s' = clients (process_client_request m1 s) ->
  remoteIP (client s') = remoteIP (client s) ->
  request_type_of (inbuf (client s')) = REQ_PUSHBUTTON ->
  2 < Z.of_nat (String.length (request_body s')) ->
  body_buttons s' = [i] -> 0 <= i <= NUM_BUTTONS - 1 ->
  gave_password (peer_record s') = true /\
  button_webpushed (process_client_request m2 s')
  = <[Z.to_nat i := true]> (button_webpushed s') /\
  delayed_response (process_client_request m2 s') = true /\
  delayed_sendtime (process_client_request m2 s') = wrap_ulong (m2 + DELAYED_RSP_MSEC) /\
  trace (process_client_request m2 s') = trace s'.
Proof.
  intros Hrt Hpw Hn Htbl Hpeer Hrt' Hlen Hb Hi.
  assert (Hgp : gave_password (peer_record s') = true).
  { destruct (process_setpass scan_key scan_int m1 s Hrt) as [rest Hp].
    rewrite Hpw in Hp.
    assert (Hc : clients s' = clients (set_gave_password (counted s))).
    { rewrite Htbl, Hp.
      destruct (respond_effect
                  match last (body_lines s) with
                  | Some line => if password_line line then RSP_STATUS else RSP_ASKPASS
                  | None => RSP_UNKNOWN
                  end (set_inbuf rest (set_gave_password (counted s))))
        as (_ & _ & -> & _). reflexivity. }
    destruct (password_record s Hn) as (k & c & Hl & Hip & Hgave & Hfirst).
    unfold peer_record, peer_slot. rewrite Hc, Hpeer.
    rewrite (add_IP_address_known _ _ k c Hl Hip Hfirst). cbn [fst snd].
    unfold client_at. destruct (Z.leb_spec 0 (Z.of_nat k)); [|lia].
    by rewrite Nat2Z.id, Hl. }
  split; [exact Hgp|].
  destruct (process_pushbutton scan_key scan_int m2 s' Hrt') as [rest Hp].
  rewrite Hp, Hgp, Hb. clear Hp.
  destruct (Z.ltb_spec 2 (Z.of_nat (String.length (request_body s')))); [|lia].
  simpl. unfold push_button. destruct (Z.leb_spec 0 i); [|lia]. by repeat split.
Qed.

(** X19.  The visitors page counts the request that asks for it: for a
    request for the visitors page from a peer whose record lies in the
    table, the page is made from the table in which the count of the peer is
    already one more, and from a request counter that is one more; the page
    has a line for the peer with that count (2 for a peer not seen before),
    and every record listed has a count above zero. *)
Theorem visitors_page_lists_the_visitor (m : Z) (s : web) :
  request_type_of (inbuf (client s)) = REQ_VISITORS ->
  0 <= peer_slot s < Z.of_nat (length (clients s)) ->
  0 <= count (peer_record s) < LONG_MAX ->
  exists s2,
    process_client_request m s = generate_response RSP_VISITORS s2 /\
    requests_processed s2 = wrap_long (requests_processed s + 1) /\
    In {| ip_address := remoteIP (client s);
          count := count (peer_record s) + 1;
          gave_password := gave_password (peer_record s) |}
       (visitors_listed (clients s2)) /\
    (forall c, In c (visitors_listed (clients s2)) -> 0 < count c).
Proof.
  intros Hrt Hn Hcount. exists (counted s). split; [|split; [|split]].
  - rewrite process_client_request_unfold, Hrt. reflexivity.
  - reflexivity.
  - destruct (counted_record s Hn) as (i & _ & _ & Hl & _).
    rewrite wrap_long_incr in Hl by (unfold can_increment; lia).
    unfold visitors_listed. apply List.filter_In. split.
    + apply list_elem_of_In. by eapply list_elem_of_lookup_2.
    + simpl. apply Z.ltb_lt. lia.
  - intros c Hc. unfold visitors_listed in Hc. apply List.filter_In in Hc as [_ Hc].
    by apply Z.ltb_lt.
Qed.

Lemma simple_response_sent (request_type : request_type_t) :
  request_type <> REQ_PUSHBUTTON -> request_type <> REQ_SETPASS ->
  simple_response request_type <> RSP_NONE.
Proof. by destruct request_type. Qed.

Lemma generate_response_stops (r : response_type_t) (s : web) :
  connected (client (generate_response r s)) = false.
Proof. unfold generate_response. simpl. by destruct (connected (client s)) eqn:Hc. Qed.

Lemma respond_sent (r : response_type_t) (s : web) :
  r <> RSP_NONE ->
  pending (respond r s) = pending s /\
  trace (respond r s) = trace s ++ [sent_response r] /\
  web_status (respond r s) = WEB_AWAITING_CLIENT /\
  connected (client (respond r s)) = false.
Proof.
  intros Hr. destruct r; try done; cbn [respond];
    (split; [reflexivity|split; [reflexivity|split; [reflexivity|]]]);
    apply generate_response_stops.
Qed.

(** X24.  Only a pushbutton request queues a button.  A request whose
    header makes it anything but a pushbutton request leaves the buttons and
    the delayed response as they are, and it is answered in the same call:
    one response is sent, the connection is stopped and the machine waits
    for the next client. *)
Theorem only_pushbutton_queues_buttons (m : Z) (s : web) :
  request_type_of (inbuf (client s)) <> REQ_PUSHBUTTON ->
  pending (process_client_request m s) = pending s /\
  (exists r, r <> RSP_NONE /\
             trace (process_client_request m s) = trace s ++ [sent_response r]) /\
  web_status (process_client_request m s) = WEB_AWAITING_CLIENT /\
  connected (client (process_client_request m s)) = false.
Proof.
  intros Hrt.
  assert (Hcase : request_type_of (inbuf (client s)) = REQ_SETPASS \/
                  request_type_of (inbuf (client s)) <> REQ_SETPASS)
    by (destruct (request_type_of (inbuf (client s))); (by left) || (by right)).
  destruct Hcase as [Hsp|Hsp].
  - destruct (process_setpass scan_key scan_int m s Hsp) as [rest ->].
    set (r := match last (body_lines s) with
              | Some line => if password_line line then RSP_STATUS else RSP_ASKPASS
              | None => RSP_UNKNOWN
              end).
    assert (Hr : r <> RSP_NONE).
    { subst r. destruct (last (body_lines s)) as [line|]; [|done].
      by destruct (password_line line). }
    destruct (respond_sent r
                (set_inbuf rest (if existsb password_line (body_lines s)
                                 then set_gave_password (counted s) else counted s)) Hr)
      as (Hp & Ht & Hw & Hc).
    rewrite Hp, Ht, Hw, Hc. split; [|split; [exists r; split; [exact Hr|]|by split]].
    + by destruct (existsb password_line (body_lines s)).
    + by destruct (existsb password_line (body_lines s)).
  - rewrite process_client_request_unfold. cbv zeta.
    set (rt := request_type_of (inbuf (client s))) in *.
    set (s1 := set_inbuf (request_body s) _).
    assert (Hchoose : choose_response scan_key scan_int m rt (count_visit rt s1)
                      = (count_visit rt s1, simple_response rt)).
    { by destruct rt. }
    rewrite Hchoose. cbn [fst snd].
    destruct (respond_sent (simple_response rt) (count_visit rt s1)
                (simple_response_sent rt Hrt Hsp)) as (Hp & Ht & Hw & Hc).
    rewrite Hp, Ht, Hw, Hc. split; [|split; [|by split]].
    + by destruct rt.
    + exists (simple_response rt). split; [by apply simple_response_sent|].
      by destruct rt.
Qed.

Lemma clients_queue_button_pushes (m : Z) (buttons : list Z) :
  forall t : web,
    clients (fold_left (fun s b => queue_button_push m b s) buttons t) = clients t.
Proof. induction buttons as [|b bs IH]; intros t; simpl; [done|by rewrite IH]. Qed.

Lemma count_visit_gave_password (request_type : request_type_t) (t : web) (j : Z) :
  gave_password (client_at (clients (count_visit request_type t)) j)
  = gave_password (client_at (clients t) j).
Proof.
  destruct request_type; simpl; try done;
    rewrite client_at_store; destruct (_ && _) eqn:Hj; try done;
    apply andb_true_iff in Hj as [Hj _]; apply andb_true_iff in Hj as [Hj _];
    apply Z.eqb_eq in Hj; by subst j.
Qed.

Lemma add_IP_address_gave_password (addr : IPAddress) (tbl : list client_t) (j : Z) :
  gave_password (client_at (snd (add_IP_address addr tbl)) j) = true ->
  gave_password (client_at tbl j) = true.
Proof.
  unfold add_IP_address.
  destruct (scan_clients addr tbl 0 (-1) (-1) INT_MAX) as [n|e n]; [done|].
  cbn [snd]. rewrite client_at_store. by destruct (_ && _).
Qed.

(** X25.  Only a setpass request sets a password flag.  After a request
    whose header makes it anything but a setpass request, a record of the
    table has its password flag set only if the record in that slot had it
    set before: neither the lookup of the peer (a new record starts without
    the flag) nor the counting of the request nor the pushing of buttons
    grants anything. *)
Theorem only_setpass_sets_the_flag (m j : Z) (s : web) :
  request_type_of (inbuf (client s)) <> REQ_SETPASS ->
  gave_password (client_at (clients (process_client_request m s)) j) = true ->
  gave_password (client_at (clients s) j) = true.
Proof.
  intros Hrt Hflag. apply (add_IP_address_gave_password (remoteIP (client s))).
  assert (Hclients :
    clients (process_client_request m s)
    = clients (count_visit (request_type_of (inbuf (client s)))
                 (set_inbuf (request_body s)
                    (set_current_client (peer_slot s)
                       (set_clients
                          (snd (add_IP_address (remoteIP (client s)) (clients s))) s))))).
  { assert (Hcase : request_type_of (inbuf (client s)) = REQ_PUSHBUTTON \/
                    request_type_of (inbuf (client s)) <> REQ_PUSHBUTTON)
      by (destruct (request_type_of (inbuf (client s))); (by left) || (by right)).
    destruct Hcase as [Hpb|Hpb].
    - destruct (process_pushbutton scan_key scan_int m s Hpb) as [rest ->].
      rewrite Hpb.
      repeat match goal with
             | |- context [if ?b then _ else _] => destruct b
             end;
        match goal with
        | |- clients (respond ?r ?t) = _ =>
            destruct (respond_effect r t) as (_ & _ & -> & _)
        end; simpl; rewrite ?clients_queue_button_pushes; reflexivity.
    - rewrite process_client_request_unfold. cbv zeta.
      set (rt := request_type_of (inbuf (client s))) in *.
      set (s1 := set_inbuf (request_body s) _).
      assert (Hchoose : choose_response scan_key scan_int m rt (count_visit rt s1)
                        = (count_visit rt s1, simple_response rt)).
      { by destruct rt. }
      rewrite Hchoose. cbn [fst snd].
      by destruct (respond_effect (simple_response rt) (count_visit rt s1))
        as (_ & _ & -> & _). }
  rewrite Hclients, count_visit_gave_password in Hflag. exact Hflag.
Qed.


End Sessions.

(* ===================================================================== *)
(** ** The rows of the status page *)

Lemma poke_length (buf buf' : list ascii) (i : nat) (c : ascii) :
  poke buf i c = Some buf' -> length buf' = length buf.
Proof.
  unfold poke. destruct (i <? length buf)%nat; [|discriminate].
  intros [= <-]. apply length_insert.
Qed.

Lemma strcpy_length (src : string) :
  forall (buf buf' : list ascii) (dst : nat),
    strcpy buf dst src = Some buf' -> length buf' = length buf.
Proof.
  induction src as [|c rest IH]; intros buf buf' dst Hcpy; simpl in Hcpy.
  - by eapply poke_length.
  - destruct (poke buf dst c) as [buf1|] eqn:Hpoke; [|discriminate]. simpl in Hcpy.
    rewrite (IH _ _ _ Hcpy). by eapply poke_length.
Qed.

Lemma expand_loop_length (src : string) :
  forall (outmsg outmsg' : list ascii) (dst dst' : nat),
    expand_loop src outmsg dst = Some (outmsg', dst') -> length outmsg' = length outmsg.
Proof.
  induction src as [|c rest IH]; intros outmsg outmsg' dst dst' Hloop;
    cbn [expand_loop] in Hloop; [by injection Hloop as <- _|].
  destruct (c =? NUL)%char; [by injection Hloop as <- _|].
  repeat match type of Hloop with
         | (if ?b then _ else _) = _ => destruct b
         end;
    match type of Hloop with
    | (?step ≫= _) = _ => destruct step as [buf1|] eqn:Hstep; [|discriminate]
    end;
    simpl in Hloop; rewrite (IH _ _ _ _ Hloop);
    first [by eapply strcpy_length|by eapply poke_length].
Qed.

Lemma expand_arrows_and_blanks_length (outmsg buf : list ascii) (msg : string) :
  expand_arrows_and_blanks outmsg msg = Some buf -> length buf = length outmsg.
Proof.
  unfold expand_arrows_and_blanks. intros Hexp.
  destruct (expand_loop msg outmsg 0) as [[out dst]|] eqn:Hloop; [|discriminate].
  simpl in Hexp. rewrite (poke_length _ _ _ _ Hexp). by eapply expand_loop_length.
Qed.

(** The buffer that [expand_arrows_and_blanks] leaves: the expansion, its
    NUL, and what lay behind. *)
Lemma expand_arrows_and_blanks_buffer (outmsg : list ascii) (msg : string) :
  length outmsg = MAXLINE ->
  (6 * String.length msg + 2 <= MAXLINE)%nat ->
  exists junk, expand_arrows_and_blanks outmsg msg = Some (expanded msg ++ NUL :: junk).
Proof.
  intros Hbuf Hfit. unfold expand_arrows_and_blanks.
  destruct (expand_loop_app msg [] outmsg ltac:(simpl; lia)) as (junk & Hjunk & Hloop).
  simpl in Hloop. rewrite Hloop. simpl.
  destruct junk as [|x junk]; [simpl in Hjunk; lia|].
  exists junk. apply poke_app.
Qed.

Lemma plain_format_free (format : string) :
  free_of "%" format = true -> plain_format format = Some format.
Proof.
  induction format as [|c rest IH]; simpl; [done|].
  intros Hfree. apply andb_true_iff in Hfree as [Hc Hfree].
  apply negb_true_iff in Hc. rewrite Hc, (IH Hfree). reflexivity.
Qed.

Lemma free_of_list (t : ascii) (l : list ascii) :
  Forall (fun c => (c =? t)%char = false) l -> free_of t (string_of_list_ascii l) = true.
Proof. induction 1 as [|c l Hc _ IH]; simpl; [done|]. by rewrite Hc, IH. Qed.

Lemma expanded_free_of_percent (msg : string) :
  free_of "%" msg = true -> Forall (fun c => (c =? "%")%char = false) (expanded msg).
Proof.
  induction msg as [|c rest IH]; simpl; [constructor|].
  intros Hfree. apply andb_true_iff in Hfree as [Hc Hfree]. apply negb_true_iff in Hc.
  destruct (c =? NUL)%char; [constructor|].
  apply Forall_app. split; [|by apply IH].
  unfold expansion_of.
  repeat match goal with |- context [if ?b then _ else _] => destruct b end;
    by repeat constructor.
Qed.

Lemma cut_nul_list (l : list ascii) :
  Forall (fun c => (c =? NUL)%char = false) l ->
  cut_nul (string_of_list_ascii l) = string_of_list_ascii l.
Proof. induction 1 as [|c l Hc _ IH]; simpl; [done|]. by rewrite Hc, IH. Qed.

Lemma length_string_of_list_ascii (l : list ascii) :
  String.length (string_of_list_ascii l) = length l.
Proof. induction l as [|c l IH]; simpl; [done|by rewrite IH]. Qed.

(** X20.  The rows of the status page.  Each row of the LCD mirror is
    expanded in the static buffer and the result is printed as the format of
    a [client_printf].  For rows of at most 20 characters without a per cent
    sign, whatever the buffer held before: no store leaves the buffer, no
    text is cut, and the texts printed are the expansions of the rows, in
    order, each of at most 120 characters. *)
Theorem status_rows_sends_the_expansions (lcdbuf : list string) :
  forall outmsg : list ascii,
    length outmsg = MAXLINE ->
    forallb lcd_row lcdbuf = true ->
    exists outmsg',
      status_rows outmsg lcdbuf
      = Some (outmsg', map (fun row => string_of_list_ascii (expanded row)) lcdbuf) /\
      length outmsg' = MAXLINE /\
      Forall (fun row => (length (expanded row) <= 120)%nat) lcdbuf.
Proof.
  induction lcdbuf as [|row rows IH]; intros outmsg Hbuf Hrows.
  - exists outmsg. simpl. by repeat split.
  - cbn [forallb] in Hrows. apply andb_true_iff in Hrows as [Hrow Hrows].
    unfold lcd_row in Hrow. apply andb_true_iff in Hrow as [Hlen Hfree].
    apply Nat.leb_le in Hlen.
    destruct (expand_arrows_and_blanks_buffer outmsg row Hbuf
                ltac:(unfold MAXLINE; lia)) as (junk & Hexp).
    set (buf := expanded row ++ NUL :: junk) in *.
    assert (Hstr : c_str buf = string_of_list_ascii (expanded row)).
    { apply c_str_app. eapply Forall_impl; [apply expanded_clean|]. by intros c (? & _). }
    clearbody buf.
    pose proof (expand_arrows_and_blanks_length _ _ _ Hexp) as Hbuf'.
    rewrite Hbuf in Hbuf'.
    destruct (IH buf Hbuf' Hrows) as (outmsg' & Hrest & Hout & Hall).
    pose proof (expanded_length row) as Hexpanded.
    exists outmsg'. split; [|split; [exact Hout|constructor; [lia|exact Hall]]].
    cbn [status_rows map]. rewrite Hexp. cbn [mbind option_bind]. rewrite Hstr.
    rewrite plain_format_free by (by apply free_of_list, expanded_free_of_percent).
    cbn [mbind option_bind]. rewrite Hrest. cbn [mbind option_bind].
    unfold vsnprintf.
    rewrite substring_0_all
      by (rewrite length_string_of_list_ascii; unfold MAXLINE; simpl; lia).
    rewrite cut_nul_list; [reflexivity|].
    eapply Forall_impl; [apply expanded_clean|]. by intros c (? & _).
Qed.

Lemma status_rows_sends_the_expansions_witness :
  exists outmsg',
    status_rows outmsg0 sample_lcdbuf
    = Some (outmsg', map (fun row => string_of_list_ascii (expanded row)) sample_lcdbuf) /\
    length outmsg' = MAXLINE /\
    Forall (fun row => (length (expanded row) <= 120)%nat) sample_lcdbuf.
Proof.
  apply status_rows_sends_the_expansions; reflexivity.
Defined.

(* ===================================================================== *)
(** ** The log page, once more *)

Lemma log_walk_misses (fuel : nat) (log_max_entries oldest : Z) :
  forall ndx : Z,
    0 <= ndx < log_max_entries ->
    ~ (0 <= oldest < log_max_entries) ->
    log_walk fuel log_max_entries oldest ndx = None.
Proof.
  induction fuel as [|fuel IH]; intros ndx Hndx Hold; cbn [log_walk]; [reflexivity|].
  destruct (Z.eqb_spec ndx oldest) as [->|_]; [lia|].
  rewrite IH; [reflexivity| |exact Hold].
  destruct (Z.ltb_spec (ndx - 1) 0); lia.
Qed.

(** X26.  The walk of the log page needs [oldest] inside the log.  The loop
    ends only when the index, which steps down from [newest] and wraps from
    0 to [log_max_entries - 1], meets [oldest]; with entries in the log,
    [newest] inside it and [oldest] outside, that never happens: however many
    rounds are allowed, the walk is still going. *)
Theorem log_page_needs_oldest_in_range (fuel : nat) (hdr : logfile_hdr_t)
    (logfile : list logentry_t) (log_max_entries : Z) :
  0 < num_entries hdr ->
  0 <= newest hdr < log_max_entries ->
  ~ (0 <= oldest hdr < log_max_entries) ->
  log_page fuel hdr logfile log_max_entries = None.
Proof.
  intros Hnum Hnew Hold. unfold log_page, log_page_indices.
  destruct (Z.ltb_spec 0 (num_entries hdr)); [|lia].
  by rewrite log_walk_misses.
Qed.

Lemma log_page_needs_oldest_in_range_witness :
  log_page 1000 broken_hdr sample_logfile 4 = None.
Proof.
  apply log_page_needs_oldest_in_range; simpl; lia.
Defined.

(* ===================================================================== *)
(** ** The statements above on the sample requests *)

Lemma expand_arrows_and_blanks_spec_witness :
  exists buf,
    expand_arrows_and_blanks outmsg0 lcd_row_arrow_blank = Some buf /\
    c_str buf = string_of_list_ascii (expanded lcd_row_arrow_blank) /\
    Forall (fun c => (c =? LEFTARROW)%char = false /\ (c =? UPARROW)%char = false /\
                     (c =? RIGHTARROW)%char = false /\ (c =? DOWNARROW)%char = false /\
                     (c =? " ")%char = false)
      (expanded lcd_row_arrow_blank).
Proof.
  apply expand_arrows_and_blanks_spec; [reflexivity|].
  unfold MAXLINE. simpl. lia.
Defined.

Lemma serving_while_network_up_witness :
  serving (run scan_key_model scan_int_model busy_second web_waiting) = true /\
  link_counters (run scan_key_model scan_int_model busy_second web_waiting)
  = link_counters web_waiting /\
  exists evs,
    trace (run scan_key_model scan_int_model busy_second web_waiting)
    = trace web_waiting ++ evs /\
    forallb (fun ev => negb (is_link_event ev)) evs = true.
Proof.
  apply (serving_while_network_up scan_key_model scan_int_model busy_second web_waiting);
    reflexivity.
Defined.

Lemma visits_change_only_with_a_client_witness :
  visits (run scan_key_model scan_int_model network_lost_and_found web_waiting)
  = visits web_waiting.
Proof.
  apply (visits_change_only_with_a_client scan_key_model scan_int_model). reflexivity.
Defined.

Lemma delayed_response_time_wraps_witness :
  (delayed_sendtime (queue_button_push 4294967000 2 web_armed)
   = 4294967000 + DELAYED_RSP_MSEC - 4294967296 /\
   trace (process_web scan_key_model scan_int_model before_the_wrap
            (queue_button_push 4294967000 2 web_armed))
   = trace web_armed ++ [sent_response RSP_STATUS] /\
   web_status (process_web scan_key_model scan_int_model before_the_wrap
                 (queue_button_push 4294967000 2 web_armed))
   = WEB_AWAITING_CLIENT) /\
  (delayed_sendtime (queue_button_push (ULONG_MAX - DELAYED_RSP_MSEC) 2 web_armed)
   = ULONG_MAX /\
   run scan_key_model scan_int_model around_the_wrap
     (queue_button_push (ULONG_MAX - DELAYED_RSP_MSEC) 2 web_armed)
   = queue_button_push (ULONG_MAX - DELAYED_RSP_MSEC) 2 web_armed).
Proof.
  split.
  - apply (proj1 (delayed_response_time_wraps scan_key_model scan_int_model)
             4294967000 2 web_armed before_the_wrap);
      try reflexivity; unfold ULONG_MAX, DELAYED_RSP_MSEC; simpl; lia.
  - apply (proj2 (delayed_response_time_wraps scan_key_model scan_int_model));
      reflexivity.
Defined.

Lemma password_opens_the_buttons_witness :
  gave_password (peer_record stranger_after_password) = true /\
  button_webpushed
    (process_client_request scan_key_model scan_int_model 7000 stranger_after_password)
  = <[Z.to_nat 2 := true]> (button_webpushed stranger_after_password) /\
  delayed_response
    (process_client_request scan_key_model scan_int_model 7000 stranger_after_password)
  = true /\
  delayed_sendtime
    (process_client_request scan_key_model scan_int_model 7000 stranger_after_password)
  = wrap_ulong (7000 + DELAYED_RSP_MSEC) /\
  trace (process_client_request scan_key_model scan_int_model 7000 stranger_after_password)
  = trace stranger_after_password.
Proof.
  apply (password_opens_the_buttons scan_key_model scan_int_model 5000 7000 2
           setpass_right stranger_after_password);
    try reflexivity; vm_compute; split; congruence.
Defined.

Lemma visitors_page_lists_the_visitor_witness :
  exists s2,
    process_client_request scan_key_model scan_int_model 5000 visitors_by_stranger
    = generate_response RSP_VISITORS s2 /\
    requests_processed s2 = wrap_long (requests_processed visitors_by_stranger + 1) /\
    In {| ip_address := remoteIP (client visitors_by_stranger);
          count := count (peer_record visitors_by_stranger) + 1;
          gave_password := gave_password (peer_record visitors_by_stranger) |}
       (visitors_listed (clients s2)) /\
    (forall c, In c (visitors_listed (clients s2)) -> 0 < count c).
Proof.
  apply (visitors_page_lists_the_visitor scan_key_model scan_int_model 5000
           visitors_by_stranger);
    [reflexivity|vm_compute; split; congruence|vm_compute; split; congruence].
Defined.

Lemma association_made_witness :
  web_status (run scan_key_model scan_int_model
                (first_attempt :: [first_attempt] ++ [attempt_made]) web_start)
  = WEB_AWAITING_CLIENT /\
  connect_attempts (run scan_key_model scan_int_model
                      (first_attempt :: [first_attempt] ++ [attempt_made]) web_start)
  = 0 /\
  wifi_connects (run scan_key_model scan_int_model
                   (first_attempt :: [first_attempt] ++ [attempt_made]) web_start)
  = wrap_long (wifi_connects web_start + 1) /\
  trace (run scan_key_model scan_int_model
           (first_attempt :: [first_attempt] ++ [attempt_made]) web_start)
  = trace web_start ++ [WiFi_begin; server_begin] /\
  failure_counters (run scan_key_model scan_int_model
                      (first_attempt :: [first_attempt] ++ [attempt_made]) web_start)
  = failure_counters web_start /\
  visits (run scan_key_model scan_int_model
            (first_attempt :: [first_attempt] ++ [attempt_made]) web_start)
  = visits web_start.
Proof.
  apply (association_made scan_key_model scan_int_model first_attempt attempt_made
           [first_attempt] web_start); try reflexivity.
  simpl. lia.
Defined.

Lemma network_lost_resets_witness :
  web_status (process_web scan_key_model scan_int_model network_gone web_waiting)
  = WEB_NOT_CONNECTED /\
  wifi_disconnects (process_web scan_key_model scan_int_model network_gone web_waiting)
  = wrap_long (wifi_disconnects web_waiting + 1) /\
  wifi_resets (process_web scan_key_model scan_int_model network_gone web_waiting)
  = wrap_long (wifi_resets web_waiting + 1) /\
  connect_attempts (process_web scan_key_model scan_int_model network_gone web_waiting)
  = 0 /\
  next_connect_time (process_web scan_key_model scan_int_model network_gone web_waiting)
  = wrap_ulong (env_now network_gone + CONNECT_DELAY_SECS) /\
  trace (process_web scan_key_model scan_int_model network_gone web_waiting)
  = trace web_waiting ++ [wifi_reset] /\
  client (process_web scan_key_model scan_int_model network_gone web_waiting)
  = client web_waiting /\
  ifttt_do_trigger (process_web scan_key_model scan_int_model network_gone web_waiting)
  = ifttt_do_trigger web_waiting /\
  pending (process_web scan_key_model scan_int_model network_gone web_waiting)
  = pending web_waiting /\
  visits (process_web scan_key_model scan_int_model network_gone web_waiting)
  = visits web_waiting.
Proof.
  apply (network_lost_resets scan_key_model scan_int_model network_gone web_waiting);
    [reflexivity|reflexivity|discriminate].
Defined.

Lemma connect_attempts_in_range_witness :
  attempts_in_range
    (run scan_key_model scan_int_model (two_failures_and_an_attempt ++ [third_failure])
       web_start) = true /\
  0 <= connect_attempts
         (run scan_key_model scan_int_model
            (two_failures_and_an_attempt ++ [third_failure]) web_start)
    <= MAX_CONNECT_ATTEMPTS.
Proof.
  apply (connect_attempts_in_range scan_key_model scan_int_model). reflexivity.
Defined.

Lemma only_pushbutton_queues_buttons_witness :
  pending (process_client_request scan_key_model scan_int_model 5000 root_by_owner)
  = pending root_by_owner /\
  (exists r, r <> RSP_NONE /\
             trace (process_client_request scan_key_model scan_int_model 5000 root_by_owner)
             = trace root_by_owner ++ [sent_response r]) /\
  web_status (process_client_request scan_key_model scan_int_model 5000 root_by_owner)
  = WEB_AWAITING_CLIENT /\
  connected (client (process_client_request scan_key_model scan_int_model 5000
                       root_by_owner)) = false.
Proof.
  apply (only_pushbutton_queues_buttons scan_key_model scan_int_model 5000 root_by_owner).
  vm_compute. discriminate.
Defined.

Lemma only_setpass_sets_the_flag_witness :
  gave_password (client_at (clients pushbutton_by_owner) 0) = true.
Proof.
  apply (only_setpass_sets_the_flag scan_key_model scan_int_model 5000 0
           pushbutton_by_owner).
  - vm_compute. discriminate.
  - vm_compute. reflexivity.
Defined.


